(** * s3-simulation: the document generator and the monthly archiver

    A shallow embedding of [generate_s3_structure.py] and
    [monthly_archive.py], and the properties of the specification that
    are settled on it.

    Conventions of the embedding:
    - Python integers are [Z]; [//] and [%] are [Z.div] and [Z.modulo]
      (both floor, as in Python, for the positive divisors used here).
    - [bytes] values are [list byte]; [str] values are [string].
    - A Python call that may raise returns a [result]; methods that also
      change files thread a [state] (monad [M]).
    - The object store, the local tree and the clock are read through an
      environment record [env] of oracles.
    - Paths are built as [pathlib] builds them ([Pathlib]), names are
      resolved in a tree of directories and files ([Fs]), and the names of
      archive members are derived as [zipfile] derives them ([Zipfile]). *)

From Stdlib Require Import ZArith Lia List Ascii String Bool.
From Stdlib.Strings Require Import Byte.
From stdpp Require Import base option list gmap strings.

Local Open Scope Z_scope.

(** ** Exceptions and fallible results *)

Inductive exc_class :=
| OverflowError | ValueError | TypeError | RuntimeError | ClientError | OSError
| IndexError | StructError.

(** Every exception of the model is an instance of Python's [Exception]
    (hence caught by [except Exception]); [SystemExit] is kept apart, in
    [outcome] below. *)
Record exception := Exc { exc_type : exc_class; exc_msg : string }.

Inductive result (A : Type) : Type :=
| Ok (a : A)
| Raise (e : exception).
Arguments Ok {A} a.
Arguments Raise {A} e.

#[global] Instance result_ret : MRet result := fun A a => Ok a.
#[global] Instance result_bind : MBind result := fun A B f r =>
  match r with Ok a => f a | Raise e => Raise e end.

Definition is_ok {A} (r : result A) : bool :=
  match r with Ok _ => true | Raise _ => false end.

(** ** The proleptic Gregorian calendar of [datetime] *)

Module Calendar.

Definition MINYEAR : Z := 1.
Definition MAXYEAR : Z := 9999.
Definition MAXORDINAL : Z := 3652059.

Definition is_leap (year : Z) : bool :=
  (year mod 4 =? 0) && (negb (year mod 100 =? 0) || (year mod 400 =? 0)).

Definition DAYS_IN_MONTH (month : Z) : Z :=
  match month with
  | 1 => 31 | 2 => 28 | 3 => 31 | 4 => 30 | 5 => 31 | 6 => 30
  | 7 => 31 | 8 => 31 | 9 => 30 | 10 => 31 | 11 => 30 | 12 => 31
  | _ => -1
  end.

Definition DAYS_BEFORE_MONTH (month : Z) : Z :=
  match month with
  | 1 => 0 | 2 => 31 | 3 => 59 | 4 => 90 | 5 => 120 | 6 => 151
  | 7 => 181 | 8 => 212 | 9 => 243 | 10 => 273 | 11 => 304 | 12 => 334
  | _ => -1
  end.

Definition days_before_year (year : Z) : Z :=
  let y := year - 1 in
  y * 365 + y / 4 - y / 100 + y / 400.

Definition days_in_month (year month : Z) : Z :=
  if (month =? 2) && is_leap year then 29 else DAYS_IN_MONTH month.

Definition days_before_month (year month : Z) : Z :=
  DAYS_BEFORE_MONTH month + (if (2 <? month) && is_leap year then 1 else 0).

Definition ymd2ord (year month day : Z) : Z :=
  days_before_year year + days_before_month year month + day.

Definition DI400Y : Z := 146097.
Definition DI100Y : Z := 36524.
Definition DI4Y : Z := 1461.

Definition ord2ymd (n : Z) : Z * Z * Z :=
  let n := n - 1 in
  let n400 := n / DI400Y in
  let n := n mod DI400Y in
  let year := n400 * 400 + 1 in
  let n100 := n / DI100Y in
  let n := n mod DI100Y in
  let n4 := n / DI4Y in
  let n := n mod DI4Y in
  let n1 := n / 365 in
  let n := n mod 365 in
  let year := year + n100 * 100 + n4 * 4 + n1 in
  if (n1 =? 4) || (n100 =? 4) then (year - 1, 12, 31)
  else
    let leapyear := (n1 =? 3) && (negb (n4 =? 24) || (n100 =? 3)) in
    let month := Z.shiftr (n + 50) 5 in
    let preceding :=
      DAYS_BEFORE_MONTH month + (if (2 <? month) && leapyear then 1 else 0) in
    if n <? preceding then
      let month := month - 1 in
      let preceding :=
        preceding
        - (DAYS_IN_MONTH month + (if (month =? 2) && leapyear then 1 else 0)) in
      (year, month, n - preceding + 1)
    else (year, month, n - preceding + 1).

(** The month before [(year, month)]. *)
Definition prev_month (year month : Z) : Z * Z :=
  if month =? 1 then (year - 1, 12) else (year, month - 1).

(** One month of the round trip between dates and ordinals: the first
    day, and the day before it. *)
Definition month_ok (year month : Z) : bool :=
  let '(y, m, d) := ord2ymd (ymd2ord year month 1) in
  let '(py, pm) := prev_month year month in
  let '(y', m', d') := ord2ymd (ymd2ord year month 1 - 1) in
  (y =? year) && (m =? month) && (d =? 1)
  && ((year =? 1) && (month =? 1)
      || (y' =? py) && (m' =? pm) && (d' =? days_in_month py pm)
         && (ymd2ord py pm (days_in_month py pm) =? ymd2ord year month 1 - 1)).

Definition months : list Z := map Z.of_nat (seq 1 12).

Definition year_ok (year : Z) : bool := forallb (month_ok year) months.

(** The years [lo+1 .. lo+n]. *)
Definition years_ok (lo : Z) (n : nat) : bool :=
  forallb year_ok (map (fun i => lo + Z.of_nat i) (seq 1 n)).

(** What is needed of a month: its first day converts to its ordinal and
    back, and the day before it (when there is one) is the last day of the
    month before. *)
Definition month_facts (y m : Z) : Prop :=
  let py := fst (prev_month y m) in
  let pm := snd (prev_month y m) in
  ord2ymd (ymd2ord y m 1) = (y, m, 1)
  /\ (~ (y = 1 /\ m = 1) ->
      ord2ymd (ymd2ord y m 1 - 1) = (py, pm, days_in_month py pm)
      /\ ymd2ord py pm (days_in_month py pm) = ymd2ord y m 1 - 1).

End Calendar.

Import Calendar.

(** ** [datetime], [timedelta] and [timezone] *)

(** The broken-down fields of a [datetime]. *)
Record civil := mkcivil {
  year : Z; month : Z; day : Z;
  hour : Z; minute : Z; second : Z; microsecond : Z
}.

(** A [datetime] is naive ([tzinfo = None]) or aware; an aware one carries
    the offset of its zone from UTC in minutes ([timezone.utc] is 0). *)
Record datetime := mkdatetime { wall : civil; tzinfo : option Z }.

Record timedelta := mktimedelta {
  td_days : Z; td_seconds : Z; td_microseconds : Z
}.

Module Datetime.

Definition utc : Z := 0.

Definition US_PER_SECOND : Z := 1000000.
Definition US_PER_DAY : Z := 86400 * US_PER_SECOND.

(** The invariant the [datetime] constructor enforces. *)
Definition civil_ok (c : civil) : bool :=
  (MINYEAR <=? year c) && (year c <=? MAXYEAR)
  && (1 <=? month c) && (month c <=? 12)
  && (1 <=? day c) && (day c <=? days_in_month (year c) (month c))
  && (0 <=? hour c) && (hour c <? 24)
  && (0 <=? minute c) && (minute c <? 60)
  && (0 <=? second c) && (second c <? 60)
  && (0 <=? microsecond c) && (microsecond c <? US_PER_SECOND).

Definition naive (c : civil) : datetime := {| wall := c; tzinfo := None |}.
Definition aware_utc (c : civil) : datetime :=
  {| wall := c; tzinfo := Some utc |}.

Definition is_aware (d : datetime) : bool :=
  match tzinfo d with Some _ => true | None => false end.

Definition days (n : Z) : timedelta :=
  {| td_days := n; td_seconds := 0; td_microseconds := 0 |}.
Definition microseconds (n : Z) : timedelta :=
  {| td_days := 0; td_seconds := 0; td_microseconds := n |}.

Definition timedelta_us (t : timedelta) : Z :=
  (td_days t * 86400 + td_seconds t) * US_PER_SECOND + td_microseconds t.

Definition toordinal (c : civil) : Z := ymd2ord (year c) (month c) (day c).

(** Microseconds since the start of ordinal day 0. *)
Definition to_us (c : civil) : Z :=
  toordinal c * US_PER_DAY
  + ((hour c * 60 + minute c) * 60 + second c) * US_PER_SECOND
  + microsecond c.

(** [d.replace(day=1, hour=0, minute=0, second=0, microsecond=0)] *)
Definition replace_first_instant (d : datetime) : datetime :=
  {| wall := {| year := year (wall d); month := month (wall d); day := 1;
                hour := 0; minute := 0; second := 0; microsecond := 0 |};
     tzinfo := tzinfo d |}.

(** [d.replace(tzinfo=tz)] *)
Definition replace_tzinfo (d : datetime) (tz : Z) : datetime :=
  {| wall := wall d; tzinfo := Some tz |}.

(** [d - t]: the fields are turned into a duration since ordinal 0, the
    difference is normalised and turned back; the zone is kept. *)
Definition sub (d : datetime) (t : timedelta) : result datetime :=
  let us := to_us (wall d) - timedelta_us t in
  let delta_days := us / US_PER_DAY in
  let rem := us mod US_PER_DAY in
  let delta_seconds := rem / US_PER_SECOND in
  let delta_microseconds := rem mod US_PER_SECOND in
  if (0 <? delta_days) && (delta_days <=? MAXORDINAL) then
    let '(y, m, dd) := ord2ymd delta_days in
    Ok {| wall := {| year := y; month := m; day := dd;
                     hour := delta_seconds / 3600;
                     minute := delta_seconds mod 3600 / 60;
                     second := delta_seconds mod 3600 mod 60;
                     microsecond := delta_microseconds |};
          tzinfo := tzinfo d |}
  else Raise (Exc OverflowError "date value out of range").

(** [a <= b]: ordering a naive and an aware instant raises [TypeError];
    aware instants are ordered after their offsets are subtracted. *)
Definition le (a b : datetime) : result bool :=
  match tzinfo a, tzinfo b with
  | None, None => Ok (to_us (wall a) <=? to_us (wall b))
  | Some oa, Some ob =>
      Ok (to_us (wall a) - oa * 60 * US_PER_SECOND
          <=? to_us (wall b) - ob * 60 * US_PER_SECOND)
  | _, _ =>
      Raise (Exc TypeError
               "can't compare offset-naive and offset-aware datetimes")
  end.

(** [lo <= x <= hi], evaluated left to right with short circuit. *)
Definition between (lo x hi : datetime) : result bool :=
  b ← le lo x; if b : bool then le x hi else Ok false.

(** The first instant of a month, as [replace] builds it. *)
Definition first_instant (y m : Z) (tz : option Z) : datetime :=
  {| wall := mkcivil y m 1 0 0 0 0; tzinfo := tz |}.

(** The last instant of a month, at the resolution of [datetime]. *)
Definition last_instant (y m : Z) (tz : option Z) : datetime :=
  {| wall := mkcivil y m (days_in_month y m) 23 59 59 999999; tzinfo := tz |}.

(** Decimal rendering of [n] on [width] digits, zero padded. *)
Definition digit (n : Z) : ascii := ascii_of_nat (48 + Z.to_nat (n mod 10)).

Fixpoint zero_padded (width : nat) (n : Z) : string :=
  match width with
  | O => EmptyString
  | S w => String.append (zero_padded w (n / 10)) (String (digit n) EmptyString)
  end.

(** [str(n)] *)
Fixpoint decimal (fuel : nat) (n : Z) : string :=
  match fuel with
  | O => EmptyString
  | S fuel' =>
      if n <? 10 then String (digit n) EmptyString
      else String.append (decimal fuel' (n / 10)) (String (digit n) EmptyString)
  end.

Definition str_int (n : Z) : string :=
  if n <? 0 then String "-" (decimal (S (Z.to_nat (Z.log2 (- n)))) (- n))
  else decimal (S (Z.to_nat (Z.log2 n))) n.

(** [d.strftime('%Y-%m')], as the C library of Linux renders it: the year
    in decimal without padding (four digits from the year 1000 on, fewer
    below), the month on two digits. *)
Definition strftime_Y_m (d : datetime) : string :=
  String.append (str_int (year (wall d)))
    (String.append "-" (zero_padded 2 (month (wall d)))).

End Datetime.

(** ** [datetime.strptime]

    The standard library turns a format into a regular expression (one
    ordered alternation per directive, matched ignoring case from the start
    of the text), requires the match to consume the whole text, and then
    builds the [datetime], whose constructor checks the fields. Every
    failure is a [ValueError]. The model covers the directives the two
    formats of the archiver use, on ASCII text. *)

Module Strptime.

Inductive directive := dY | dm | dd | dH | dM | dS.

Inductive item := Dir (d : directive) | Lit (c : ascii).

(** A character class: one character, or a range of them. *)
Inductive cls := One (c : ascii) | Range (lo hi : ascii).

Definition cls_match (k : cls) (x : ascii) : bool :=
  match k with
  | One c => Ascii.eqb c x
  | Range lo hi =>
      (nat_of_ascii lo <=? nat_of_ascii x)%nat
      && (nat_of_ascii x <=? nat_of_ascii hi)%nat
  end.

Definition any_digit : cls := Range "0" "9".

(** The alternation of each directive, in the order it is tried. *)
Definition alternatives (d : directive) : list (list cls) :=
  match d with
  | dY => [[any_digit; any_digit; any_digit; any_digit]]
  | dm => [[One "1"; Range "0" "2"]; [One "0"; Range "1" "9"]; [Range "1" "9"]]
  | dd => [[One "3"; Range "0" "1"]; [Range "1" "2"; any_digit];
           [One "0"; Range "1" "9"]; [Range "1" "9"];
           [One " "; Range "1" "9"]]
  | dH => [[One "2"; Range "0" "3"]; [Range "0" "1"; any_digit]; [any_digit]]
  | dM => [[Range "0" "5"; any_digit]; [any_digit]]
  | dS => [[One "6"; Range "0" "1"]; [Range "0" "5"; any_digit]; [any_digit]]
  end.

(** Match a sequence of classes at the head of [s]: matched text and rest. *)
Fixpoint match_classes (ks : list cls) (s : string) : option (string * string) :=
  match ks with
  | [] => Some (EmptyString, s)
  | k :: ks' =>
      match s with
      | EmptyString => None
      | String x s' =>
          if cls_match k x then
            match match_classes ks' s' with
            | Some (txt, rest) => Some (String x txt, rest)
            | None => None
            end
          else None
      end
  end.

Definition match_alternatives (alts : list (list cls)) (s : string)
  : list (string * string) :=
  flat_map (fun ks => match match_classes ks s with
                      | Some r => [r]
                      | None => []
                      end) alts.

Definition lower (c : ascii) : ascii :=
  let n := nat_of_ascii c in
  if (65 <=? n)%nat && (n <=? 90)%nat then ascii_of_nat (n + 32) else c.

Definition lit_match (c x : ascii) : bool := Ascii.eqb (lower c) (lower x).

(** All the ways the format matches a prefix of [s], in the order a
    backtracking matcher finds them: the groups and the unmatched rest. *)
Fixpoint match_format (f : list item) (s : string)
  : list (list (directive * string) * string) :=
  match f with
  | [] => [([], s)]
  | Lit c :: f' =>
      match s with
      | String x s' => if lit_match c x then match_format f' s' else []
      | EmptyString => []
      end
  | Dir d :: f' =>
      flat_map (fun '(txt, rest) =>
                  map (fun '(groups, r) => ((d, txt) :: groups, r))
                      (match_format f' rest))
               (match_alternatives (alternatives d) s)
  end.

(** [int(txt)] on a matched group (digits, after optional blanks). *)
Fixpoint int_of (acc : Z) (txt : string) : Z :=
  match txt with
  | EmptyString => acc
  | String x t =>
      if Ascii.eqb x " " then int_of acc t
      else int_of (acc * 10 + Z.of_nat (nat_of_ascii x - 48)) t
  end.

Definition directive_eqb (a b : directive) : bool :=
  match a, b with
  | dY, dY | dm, dm | dd, dd | dH, dH | dM, dM | dS, dS => true
  | _, _ => false
  end.

Fixpoint group (d : directive) (default : Z) (gs : list (directive * string)) : Z :=
  match gs with
  | [] => default
  | (d', txt) :: gs' =>
      if directive_eqb d d' then int_of 0 txt else group d default gs'
  end.

Definition strptime (data_string : string) (format : list item)
  : result datetime :=
  match match_format format data_string with
  | [] => Raise (Exc ValueError "time data does not match format")
  | (groups, rest) :: _ =>
      match rest with
      | String _ _ => Raise (Exc ValueError "unconverted data remains")
      | EmptyString =>
          let c := {| year := group dY 1900 groups;
                      month := group dm 1 groups;
                      day := group dd 1 groups;
                      hour := group dH 0 groups;
                      minute := group dM 0 groups;
                      second := group dS 0 groups;
                      microsecond := 0 |} in
          if Datetime.civil_ok c then Ok (Datetime.naive c)
          else Raise (Exc ValueError "field out of range")
      end
  end.

(** ['%Y-%m-%d'] *)
Definition fmt_date : list item :=
  [Dir dY; Lit "-"; Dir dm; Lit "-"; Dir dd].

(** ['%Y-%m-%dT%H:%M:%S'] *)
Definition fmt_timestamp : list item :=
  [Dir dY; Lit "-"; Dir dm; Lit "-"; Dir dd; Lit "T";
   Dir dH; Lit ":"; Dir dM; Lit ":"; Dir dS].

End Strptime.

Import Datetime.

(** ** The generator: dummy document contents ([generate_s3_structure.py]) *)

Module Generator.

Definition newline : string := String "010"%char EmptyString.
Definition dquote : string := String "034"%char EmptyString.

(** The text made of the given lines, each ended by a newline. *)
Definition text (ls : list string) : string :=
  fold_right (fun l acc => String.append l (String.append newline acc))
             EmptyString ls.

(** [s.encode('utf-8')] and byte literals, for ASCII text. *)
Definition encode (s : string) : list byte := list_byte_of_string s.

Definition pdf_header : list byte := encode (text ["%PDF-1.4"]).

Definition pdf_content : list byte := encode (text [
  "1 0 obj";
  "<< /Type /Catalog /Pages 2 0 R >>";
  "endobj";
  "2 0 obj";
  "<< /Type /Pages /Kids [3 0 R] /Count 1 >>";
  "endobj";
  "3 0 obj";
  "<< /Type /Page /Parent 2 0 R /Resources 4 0 R /MediaBox [0 0 612 792] /Contents 5 0 R >>";
  "endobj";
  "4 0 obj";
  "<< /Font << /F1 << /Type /Font /Subtype /Type1 /BaseFont /Helvetica >> >> >>";
  "endobj";
  "5 0 obj";
  "<< /Length 44 >>";
  "stream";
  "BT /F1 12 Tf 100 700 Td (Dummy Document) Tj ET";
  "endstream";
  "endobj";
  "xref";
  "0 6";
  "0000000000 65535 f";
  "0000000009 00000 n";
  "0000000058 00000 n";
  "0000000115 00000 n";
  "0000000229 00000 n";
  "0000000327 00000 n";
  "trailer";
  "<< /Size 6 /Root 1 0 R >>";
  "startxref";
  "420";
  "%%EOF"
]).

Definition len (b : list byte) : Z := Z.of_nat (length b).

(** The bytes [create_dummy_pdf] writes for a requested size. *)
Definition dummy_pdf (size_bytes : Z) : list byte :=
  let header_size := len pdf_header + len pdf_content in
  let padding_size := Z.max 0 (size_bytes - header_size) in
  let padding := repeat x00 (Z.to_nat padding_size) in
  pdf_header ++ pdf_content ++ padding.

Definition xml_header : list byte :=
  encode (String.append "<?xml version="
           (String.append dquote (String.append "1.0"
             (String.append dquote (String.append " encoding="
               (String.append dquote (String.append "UTF-8"
                 (String.append dquote (String.append "?>" newline))))))))).

Definition xml_start : list byte :=
  encode (text ["<document>"; "  <type>OPA</type>"; "  <data>"]).

Definition xml_end : list byte :=
  encode (text ["  </data>"; "</document>"]).

(** [string.ascii_letters + string.digits + ' \n'] *)
Definition population : list ascii :=
  list_ascii_of_string
    (String.append
       "abcdefghijklmnopqrstuvwxyzABCDEFGHIJKLMNOPQRSTUVWXYZ0123456789 "
       newline).

(** [random.choices(population, k=k)]: [k] independent draws; the
    generator is the sequence [rng] of the indices drawn. *)
Definition choices (rng : nat -> nat) (population : list ascii) (k : nat)
  : list ascii :=
  map (fun i => nth (rng i mod length population)%nat population " "%char)
      (seq 0 k).

(** The bytes [create_dummy_xml] writes for a requested size. *)
Definition dummy_xml (rng : nat -> nat) (size_bytes : Z) : list byte :=
  let header_size := len xml_header + len xml_start + len xml_end in
  let padding_size := Z.max 0 (size_bytes - header_size) in
  let padding :=
    string_of_list_ascii (choices rng population (Z.to_nat padding_size)) in
  xml_header ++ xml_start ++ encode padding ++ xml_end.

(** The staging directory: the content of each file written. *)
Definition create_dummy_pdf (filepath : string) (size_bytes : Z)
    (fs : gmap string (list byte)) : gmap string (list byte) :=
  <[filepath := dummy_pdf size_bytes]> fs.

Definition create_dummy_xml (rng : nat -> nat) (filepath : string)
    (size_bytes : Z) (fs : gmap string (list byte)) : gmap string (list byte) :=
  <[filepath := dummy_xml rng size_bytes]> fs.

Inductive kind := pdf | xml.

(** The dispatch of the tree builder on the kind of a document. *)
Definition create_dummy (k : kind) (rng : nat -> nat) (filepath : string)
    (size_bytes : Z) (fs : gmap string (list byte)) : gmap string (list byte) :=
  match k with
  | xml => create_dummy_xml rng filepath size_bytes fs
  | pdf => create_dummy_pdf filepath size_bytes fs
  end.

(** The fixed part of a document of each kind. *)
Definition fixed_skeleton_length (k : kind) : Z :=
  match k with
  | pdf => len pdf_header + len pdf_content
  | xml => len xml_header + len xml_start + len xml_end
  end.

End Generator.

(** ** Paths: [posixpath] and [pathlib] *)

Module Posix.

Definition is_sep (c : ascii) : bool := Ascii.eqb c "/".

(** [s.split('/')] *)
Fixpoint split (s : string) : list string :=
  match s with
  | EmptyString => [EmptyString]
  | String c rest =>
      if is_sep c then EmptyString :: split rest
      else match split rest with
           | first :: others => String c first :: others
           | [] => [String c EmptyString]
           end
  end.

(** ['/'.join(parts)] *)
Fixpoint join (parts : list string) : string :=
  match parts with
  | [] => EmptyString
  | part :: rest =>
      match rest with
      | [] => part
      | _ :: _ => String.append part (String "/" (join rest))
      end
  end.

(** [s.lstrip('/')] *)
Fixpoint lstrip (s : string) : string :=
  match s with
  | EmptyString => EmptyString
  | String c rest => if is_sep c then lstrip rest else s
  end.

(** [s.endswith('/')] *)
Fixpoint ends_with_sep (s : string) : bool :=
  match s with
  | EmptyString => false
  | String c EmptyString => is_sep c
  | String _ rest => ends_with_sep rest
  end.

(** The slashes [normpath] keeps in front: two when the path starts with
    exactly two, else one when it starts with one. *)
Definition initial_slashes (path : string) : string :=
  if String.prefix "/" path then
    if String.prefix "//" path && negb (String.prefix "///" path)
    then "//"%string else "/"%string
  else EmptyString.

(** The body of the loop of [normpath]; [new_comps] is kept last
    component first. *)
Definition normpath_comp (initial : string) (new_comps : list string)
    (comp : string) : list string :=
  if String.eqb comp EmptyString || String.eqb comp "." then new_comps
  else if negb (String.eqb comp "..")
          || (String.eqb initial EmptyString
              && match new_comps with [] => true | _ :: _ => false end)
          || match new_comps with
             | last :: _ => String.eqb last ".."
             | [] => false
             end
  then comp :: new_comps
  else tl new_comps.

(** [os.path.normpath] *)
Definition normpath (path : string) : string :=
  if String.eqb path EmptyString then "."%string
  else
    let initial := initial_slashes path in
    let comps := rev (fold_left (normpath_comp initial) (split path) []) in
    let path := String.append initial (join comps) in
    if String.eqb path EmptyString then "."%string else path.

End Posix.

Module Pathlib.

(** A [PurePosixPath]: its root (none, one slash, or two) and the parts
    below it. *)
Record path := mkpath { root : string; parts : list string }.

Definition keep (x : string) : bool :=
  negb (String.eqb x EmptyString) && negb (String.eqb x ".").

(** [splitroot] *)
Definition splitroot (part : string) : string * string :=
  if String.prefix "/" part then
    let stripped := Posix.lstrip part in
    if Nat.eqb (String.length part - String.length stripped) 2
    then ("//"%string, stripped) else ("/"%string, stripped)
  else (EmptyString, part).

(** [Path(s)]: empty parts and ['.'] are dropped, ['..'] is kept. *)
Definition Path (s : string) : path :=
  let '(r, rel) := splitroot s in
  mkpath r (List.filter keep (Posix.split rel)).

(** [p / key]: a rooted [key] replaces [p]. *)
Definition truediv (p : path) (key : string) : path :=
  let q := Path key in
  if String.eqb (root q) EmptyString then mkpath (root p) (parts p ++ parts q)
  else q.

(** [str(p)] *)
Definition str (p : path) : string :=
  match parts p with
  | [] => if String.eqb (root p) EmptyString then "."%string else root p
  | _ :: _ => String.append (root p) (Posix.join (parts p))
  end.

(** [p.parent]: a path without parts is its own parent. *)
Definition parent (p : path) : path := mkpath (root p) (removelast (parts p)).

(** [p.name] *)
Definition name (p : path) : string := List.last (parts p) EmptyString.

(** [str(Path(s))] *)
Definition normal (s : string) : string := str (Path s).

End Pathlib.

(** ** The archiver ([monthly_archive.py]): its surroundings *)

(** An entry of a listing page. The client library hands out
    [LastModified] as an aware [datetime] in UTC: the record keeps its
    fields, [obj_LastModified] is the value the code reads. *)
Record S3Object := mkS3Object { Key : string; LastModified : civil }.

Definition obj_LastModified (obj : S3Object) : datetime :=
  aware_utc (LastModified obj).

(** The answer to [head_object]; the ['Metadata'] entry may be missing. *)
Record head_response := mkhead { Metadata : option (gmap string string) }.

(** A path found by [rglob] under the data directory: [rel_path] is the
    path relative to the data directory, [mtime] the fields of
    [datetime.fromtimestamp(st_mtime)], a naive local time. The local tree
    is taken as readable: walking it and reading a modification time do
    not fail. *)
Record local_entry := mklocal {
  rel_path : string; is_file : bool; mtime : civil
}.

Definition entry_mtime (e : local_entry) : datetime := naive (mtime e).

(** What [os.stat] tells of a path: whether it is a directory, and the
    fields of [time.localtime(st_mtime)]. *)
Record stat_result := mkstat { st_isdir : bool; st_mtime : civil }.

(** What the program reads from outside: the clock, the object store,
    the local tree. A listing is the sequence of its pages; a page may
    fail to arrive, and may lack ['Contents']. The clock reads [now]
    throughout a run. [os_stat] and [read_file] tell what the file system
    held before the run; [create_error] tells where it refuses a new file
    or directory. *)
Record env := mkenv {
  HAS_BOTO3 : bool;
  now : civil;
  tempdir : string;
  paginate : string -> string -> list (result (option (list S3Object)));
  head_object : string -> string -> result head_response;
  download_file : string -> string -> result (list byte);
  upload_error : string -> string -> string -> option exception;
  path_exists : string -> bool;
  rglob : string -> list local_entry;
  os_stat : string -> result stat_result;
  read_file : string -> result (list byte);
  create_error : string -> option exception
}.

(** A ZIP archive: its members in the order written, each an archive name
    and a content. *)
Definition zip_archive : Type := list (string * list byte).

(** What a run puts at a path: a directory, or a file. *)
Inductive node :=
| Dir
| File (content : list byte).

(** What the program changes: the ZIP files on disk (by the path they were
    opened under), the directories made, the tree built by the run in
    progress (by resolved path: the download workspace and what the
    downloads put in it or elsewhere), the objects uploaded, and standard
    error. What earlier runs left outside their workspace belongs to the
    surroundings. *)
Record state := mkstate {
  zips : gmap string zip_archive;
  dirs : gset string;
  temp : gmap string node;
  uploads : list (string * string * string);
  stderr : list string
}.

Definition M (A : Type) : Type := state -> result A * state.

#[global] Instance M_ret : MRet M := fun A a st => (Ok a, st).
#[global] Instance M_bind : MBind M := fun A B f m st =>
  match m st with
  | (Ok a, st') => f a st'
  | (Raise e, st') => (Raise e, st')
  end.

Definition lift {A} (r : result A) : M A := fun st => (r, st).

Definition set_zips (f : gmap string zip_archive -> gmap string zip_archive)
  : M unit :=
  fun st => (Ok tt, mkstate (f (zips st)) (dirs st) (temp st) (uploads st) (stderr st)).
Definition set_dirs (f : gset string -> gset string) : M unit :=
  fun st => (Ok tt, mkstate (zips st) (f (dirs st)) (temp st) (uploads st) (stderr st)).
Definition add_upload (u : string * string * string) : M unit :=
  fun st => (Ok tt, mkstate (zips st) (dirs st) (temp st) (uploads st ++ [u]) (stderr st)).
Definition eprint (line : string) (st : state) : state :=
  mkstate (zips st) (dirs st) (temp st) (uploads st) (stderr st ++ [line]).

(** An operation on the tree of the run. *)
Definition tree_op {A} (f : gmap string node -> result A * gmap string node)
  : M A :=
  fun st =>
    let '(r, t) := f (temp st) in
    (r, mkstate (zips st) (dirs st) t (uploads st) (stderr st)).

(** [for x in xs: body(x)] *)
Fixpoint for_each {A} (xs : list A) (body : A -> M unit) : M unit :=
  match xs with
  | [] => mret tt
  | x :: xs' => _ ← body x; for_each xs' body
  end.

(** [str(Path(a) / b)] *)
Definition path_join (a b : string) : string :=
  Pathlib.str (Pathlib.truediv (Pathlib.Path a) b).

(** Python truth value of an optional string ([None] and [''] are false). *)
Definition truthy (o : option string) : bool :=
  match o with
  | Some s => negb (String.eqb s EmptyString)
  | None => false
  end.

(** ** The file system under the run

    Names are resolved part by part as the kernel does in a tree without
    symbolic links: [..] steps to the directory above, and every part on
    the way must be a directory. What stands at a name is what the run has
    put there, else what the surroundings hold. *)

Module Fs.

Inductive errno := ENOENT | EEXIST | ENOTDIR | EISDIR.

Definition strerror (n : errno) : string :=
  match n with
  | ENOENT => "[Errno 2] No such file or directory"
  | EEXIST => "[Errno 17] File exists"
  | ENOTDIR => "[Errno 20] Not a directory"
  | EISDIR => "[Errno 21] Is a directory"
  end.

(** [str] of the [OSError] for a file name of plain characters. *)
Definition os_error (n : errno) (filename : string) : exception :=
  Exc OSError
    (String.append (strerror n)
       (String.append ": '" (String.append filename "'"))).

Definition embedded_null : exception := Exc ValueError "embedded null byte".

Fixpoint has_nul (s : string) : bool :=
  match s with
  | EmptyString => false
  | String c rest => Ascii.eqb c "000" || has_nul rest
  end.

Inductive kind := Missing | Directory | Regular.

(** The directory above a resolved one, and the entry [name] in it. *)
Definition up (c : Pathlib.path) : Pathlib.path :=
  match rev (Pathlib.parts c) with
  | [] =>
      if String.eqb (Pathlib.root c) EmptyString
      then Pathlib.mkpath EmptyString [".."%string] else c
  | last :: before =>
      if String.eqb last ".."
      then Pathlib.mkpath (Pathlib.root c) (Pathlib.parts c ++ [".."%string])
      else Pathlib.mkpath (Pathlib.root c) (rev before)
  end.

Definition down (c : Pathlib.path) (name : string) : Pathlib.path :=
  Pathlib.mkpath (Pathlib.root c) (Pathlib.parts c ++ [name]).

(** The resolved form of a path, every [..] taken. *)
Definition canonical (p : Pathlib.path) : Pathlib.path :=
  fold_left (fun cur part => if String.eqb part ".." then up cur
                             else down cur part)
    (Pathlib.parts p) (Pathlib.mkpath (Pathlib.root p) []).

(** [name] lies below the directory [dir]. *)
Definition inside (dir name : string) : bool :=
  String.prefix (if Posix.ends_with_sep dir then dir
                 else String.append dir "/") name.

(** The tree once the directory [dir] is removed with all it holds. *)
Definition rmtree (dir : string) (t : gmap string node) : gmap string node :=
  delete dir (filter (fun entry => inside dir (fst entry) = false) t).

(** Where name resolution ends: at a resolved name ([existing] when it is
    known to be a directory that exists), or at an error. *)
Inductive resolution :=
| At (c : Pathlib.path) (existing : bool)
| Refused (n : errno).

Section Kernel.

Variable E : env.

Definition look (t : gmap string node) (name : string) : kind :=
  match t !! name with
  | Some Dir => Directory
  | Some (File _) => Regular
  | None =>
      match os_stat E name with
      | Ok s => if st_isdir s then Directory else Regular
      | Raise _ => Missing
      end
  end.

Fixpoint walk (t : gmap string node) (cur : Pathlib.path) (ps : list string)
  : resolution :=
  match ps with
  | [] => At cur true
  | p :: rest =>
      if String.eqb p ".." then walk t (up cur) rest
      else
        match rest with
        | [] => At (down cur p) false
        | _ :: _ =>
            match look t (Pathlib.str (down cur p)) with
            | Directory => walk t (down cur p) rest
            | Regular => Refused ENOTDIR
            | Missing => Refused ENOENT
            end
        end
  end.

Definition resolve (t : gmap string node) (p : Pathlib.path) : resolution :=
  walk t (Pathlib.mkpath (Pathlib.root p) []) (Pathlib.parts p).

(** [os.mkdir(p)] *)
Inductive attempt :=
| Made (t : gmap string node)
| Errno (n : errno)
| Other (e : exception).

Definition os_mkdir (t : gmap string node) (p : Pathlib.path) : attempt :=
  if has_nul (Pathlib.str p) then Other embedded_null
  else
    match resolve t p with
    | Refused n => Errno n
    | At c true => Errno EEXIST
    | At c false =>
        match look t (Pathlib.str c) with
        | Missing =>
            match create_error E (Pathlib.str c) with
            | Some e => Other e
            | None => Made (<[Pathlib.str c := Dir]> t)
            end
        | _ => Errno EEXIST
        end
    end.

(** [p.is_dir()] *)
Definition is_dir (t : gmap string node) (p : Pathlib.path) : bool :=
  match resolve t p with
  | Refused _ => false
  | At c true => true
  | At c false =>
      match look t (Pathlib.str c) with
      | Directory => true
      | _ => false
      end
  end.

(** [p.mkdir(parents=True, exist_ok=True)], [p] given by its root and its
    parts, last first: the directory is made; when a directory on the way
    is missing the parent is made first, in the same way, and the
    directory after it; an error other than that is let through unless the
    directory exists. *)
Fixpoint mkdir_from (r : string) (rparts : list string) (t : gmap string node)
  : result unit * gmap string node :=
  let self := Pathlib.mkpath r (rev rparts) in
  match os_mkdir t self with
  | Made t' => (Ok tt, t')
  | Other e => (Raise e, t)
  | Errno ENOENT =>
      match rparts with
      | [] => (Raise (os_error ENOENT (Pathlib.str self)), t)
      | _ :: rparent =>
          match mkdir_from r rparent t with
          | (Raise e, t1) => (Raise e, t1)
          | (Ok _, t1) =>
              match os_mkdir t1 self with
              | Made t2 => (Ok tt, t2)
              | Other e => (Raise e, t1)
              | Errno ENOENT =>
                  (Raise (os_error ENOENT (Pathlib.str self)), t1)
              | Errno n =>
                  if is_dir t1 self then (Ok tt, t1)
                  else (Raise (os_error n (Pathlib.str self)), t1)
              end
          end
      end
  | Errno n =>
      if is_dir t self then (Ok tt, t)
      else (Raise (os_error n (Pathlib.str self)), t)
  end.

Definition mkdir (p : Pathlib.path) (t : gmap string node)
  : result unit * gmap string node :=
  mkdir_from (Pathlib.root p) (rev (Pathlib.parts p)) t.

(** A file is put at [filename], over the file that stood there if any;
    a directory cannot be replaced. *)
Definition write (filename : string) (content : list byte)
    (t : gmap string node) : result unit * gmap string node :=
  if has_nul filename then (Raise embedded_null, t)
  else
    match resolve t (Pathlib.Path filename) with
    | Refused n => (Raise (os_error n filename), t)
    | At c true => (Raise (os_error EISDIR filename), t)
    | At c false =>
        match look t (Pathlib.str c) with
        | Directory => (Raise (os_error EISDIR filename), t)
        | _ =>
            match create_error E (Pathlib.str c) with
            | Some e => (Raise e, t)
            | None => (Ok tt, <[Pathlib.str c := File content]> t)
            end
        end
    end.

(** [os.stat(filename)]: what the run has put at the name was modified
    when the clock read [now]. *)
Definition stat (filename : string) (t : gmap string node)
  : result stat_result :=
  if has_nul filename then Raise embedded_null
  else
    match resolve t (Pathlib.Path filename) with
    | Refused n => Raise (os_error n filename)
    | At c _ =>
        match t !! Pathlib.str c with
        | Some Dir => Ok (mkstat true (now E))
        | Some (File _) => Ok (mkstat false (now E))
        | None => os_stat E (Pathlib.str c)
        end
    end.

(** [open(filename, 'rb').read()] *)
Definition read (filename : string) (t : gmap string node)
  : result (list byte) :=
  if has_nul filename then Raise embedded_null
  else
    match resolve t (Pathlib.Path filename) with
    | Refused n => Raise (os_error n filename)
    | At c _ =>
        match t !! Pathlib.str c with
        | Some Dir => Raise (os_error EISDIR filename)
        | Some (File content) => Ok content
        | None => read_file E (Pathlib.str c)
        end
    end.

End Kernel.

End Fs.

(** ** [zipfile]: the member [ZipFile.write] adds *)

Module Zipfile.

(** The archive name before the check of [ZipInfo]: [normpath], then the
    slashes in front dropped. *)
Definition arcname_of (arcname : string) : string :=
  Posix.lstrip (Posix.normpath arcname).

(** The text before the first null character. *)
Fixpoint until_nul (s : string) : string :=
  match s with
  | EmptyString => EmptyString
  | String c rest =>
      if Ascii.eqb c "000" then EmptyString else String c (until_nul rest)
  end.

Definition index_error : exception :=
  Exc IndexError "string index out of range".

(** [ZipInfo.from_file(filename, arcname).filename], from what [os.stat]
    told of the file. *)
Definition filename_of (arcname : string) (isdir : bool) : result string :=
  let name := arcname_of arcname in
  if String.eqb name EmptyString then Raise index_error
  else Ok (until_nul (if isdir then String.append name "/" else name)).

(** [ZipFile.write(filename, arcname)]: the member added, given what
    [os.stat] told of the file and what reading it yields. Timestamps are
    strict: a year before 1980 is refused by [ZipInfo], a year after 2107
    does not fit the header. A name that ends with a slash is stored as a
    directory, without content. *)
Definition member (st : stat_result) (content : result (list byte))
    (arcname : string) : result (string * list byte) :=
  name ← filename_of arcname (st_isdir st);
  if year (st_mtime st) <? 1980 then
    Raise (Exc ValueError "ZIP does not support timestamps before 1980")
  else if String.eqb name EmptyString then Raise index_error
  else
    content ← (if Posix.ends_with_sep name then Ok [] else content);
    if 2107 <? year (st_mtime st) then
      Raise (Exc StructError "ushort format requires 0 <= number <= 65535")
    else Ok (name, content).

End Zipfile.

(** ** The archiver: [class MonthlyArchiver] *)

Record MonthlyArchiver := mkarchiver {
  bucket_name : string;
  output_dir : string;
  use_s3 : bool;
  local_data_dir : option string
}.

Module Archiver.

Section Methods.

Variable E : env.
Variable self : MonthlyArchiver.

(** [get_previous_month_range] *)
Definition get_previous_month_range (reference_date : option datetime)
  : result (datetime * datetime) :=
  let reference_date :=
    match reference_date with
    | None => naive (now E)
    | Some d => d
    end in
  let first_of_current_month := replace_first_instant reference_date in
  last_of_previous_month ← sub first_of_current_month (days 1);
  let first_of_previous_month :=
    replace_first_instant last_of_previous_month in
  end_of_previous_month ← sub first_of_current_month (microseconds 1);
  if use_s3 self then
    Ok (replace_tzinfo first_of_previous_month utc,
        replace_tzinfo end_of_previous_month utc)
  else Ok (first_of_previous_month, end_of_previous_month).

(** The date the [try] block of [list_s3_files] settles on for one
    object: the metadata timestamp when there is one, else
    [LastModified]. *)
Definition s3_file_date (obj : S3Object) : result datetime :=
  head_response ← head_object E (bucket_name self) (Key obj);
  let metadata := default ∅ (Metadata head_response) in
  match metadata !! "original-timestamp"%string with
  | Some timestamp_str =>
      file_date ← Strptime.strptime timestamp_str Strptime.fmt_timestamp;
      Ok (replace_tzinfo file_date utc)
  | None => Ok (obj_LastModified obj)
  end.

(** The body of the inner loop of [list_s3_files]: the [try] block and
    its [except Exception] handler. *)
Definition s3_select (start_date end_date : datetime) (obj : S3Object)
    (files : list string) : result (list string) :=
  match
    file_date ← s3_file_date obj;
    b ← between start_date file_date end_date;
    Ok (if b : bool then files ++ [Key obj] else files)
  with
  | Ok files' => Ok files'
  | Raise _ =>
      b ← between start_date (obj_LastModified obj) end_date;
      Ok (if b : bool then files ++ [Key obj] else files)
  end.

Fixpoint s3_contents_loop (start_date end_date : datetime)
    (contents : list S3Object) (files : list string)
  : result (list string) :=
  match contents with
  | [] => Ok files
  | obj :: rest =>
      files' ← s3_select start_date end_date obj files;
      s3_contents_loop start_date end_date rest files'
  end.

Fixpoint s3_pages_loop (start_date end_date : datetime)
    (pages : list (result (option (list S3Object)))) (files : list string)
  : result (list string) :=
  match pages with
  | [] => Ok files
  | Raise e :: _ => Raise e
  | Ok None :: rest => s3_pages_loop start_date end_date rest files
  | Ok (Some contents) :: rest =>
      files' ← s3_contents_loop start_date end_date contents files;
      s3_pages_loop start_date end_date rest files'
  end.

(** [list_s3_files] *)
Definition list_s3_files (prefix : string) (start_date end_date : datetime)
  : result (list string) :=
  s3_pages_loop start_date end_date
    (paginate E (bucket_name self) prefix) [].

Fixpoint local_loop (start_date end_date : datetime)
    (found : list local_entry) (files : list string)
  : result (list string) :=
  match found with
  | [] => Ok files
  | file_path :: rest =>
      if is_file file_path then
        b ← between start_date (entry_mtime file_path) end_date;
        local_loop start_date end_date rest
          (if b : bool then files ++ [rel_path file_path] else files)
      else local_loop start_date end_date rest files
  end.

(** [list_local_files] *)
Definition list_local_files (folder_name : string)
    (start_date end_date : datetime) : result (list string) :=
  match local_data_dir self with
  | None => Raise (Exc TypeError "unsupported operand type(s) for /")
  | Some data_dir =>
      let folder_path := path_join data_dir folder_name in
      if negb (path_exists E folder_path) then Ok []
      else local_loop start_date end_date (rglob E folder_path) []
  end.

(** [download_s3_file]: the directories above [local_path] are made, then
    the client library fetches the object and leaves it at [local_path]. *)
Definition download_s3_file (s3_key : string) (local_path : Pathlib.path)
  : M unit :=
  _ ← tree_op (Fs.mkdir E (Pathlib.parent local_path));
  content ← lift (download_file E (bucket_name self) s3_key);
  tree_op (Fs.write E (Pathlib.str local_path) content).

(** [zipfile.ZipFile(zip_path, 'w', ...)]: the file is created, or
    emptied when it exists. *)
Definition zip_open (zip_path : string) : M unit :=
  match create_error E zip_path with
  | Some e => lift (Raise e)
  | None => set_zips (fun z => <[zip_path := []]> z)
  end.

(** [zipf.write(local_file, arcname=arcname)]: the file is examined, then
    read, and one more member is added. *)
Definition zip_write (zip_path local_file arcname : string) : M unit :=
  st ← tree_op (fun t => (Fs.stat E local_file t, t));
  member ← tree_op (fun t =>
              (Zipfile.member st (Fs.read E local_file t) arcname, t));
  set_zips (fun z => <[zip_path := default [] (z !! zip_path) ++ [member]]> z).

(** [create_zip_archive]. An exception inside the [with] block leaves
    the archive on disk with the members written so far. *)
Definition create_zip_archive (files : list string) (zip_path : string)
    (folder_prefix : string) (temp_dir : string) : M Z :=
  match files with
  | [] => mret 0
  | _ :: _ =>
      _ ← zip_open zip_path;
      _ ← for_each files (fun file_key =>
             local_file ←
               (if use_s3 self then
                  let local_file :=
                    Pathlib.truediv (Pathlib.Path temp_dir) file_key in
                  _ ← download_s3_file file_key local_file;
                  mret local_file
                else
                  match local_data_dir self with
                  | Some data_dir =>
                      mret (Pathlib.truediv (Pathlib.Path data_dir) file_key)
                  | None =>
                      lift (Raise (Exc TypeError
                                     "unsupported operand type(s) for /"))
                  end);
             zip_write zip_path (Pathlib.str local_file) file_key);
      mret (Z.of_nat (length files))
  end.

(** [with tempfile.TemporaryDirectory() as temp_dir: body]: the body runs
    with a new directory, in which nothing stands yet, and the directory is
    removed with all it holds on every way out. What the body put
    elsewhere stays. *)
Definition with_temporary_directory {A} (body : string -> M A) : M A :=
  fun st =>
    let workspace :=
      Pathlib.str (Fs.canonical (Pathlib.Path (tempdir E))) in
    let '(r, st') :=
      body (tempdir E)
        (mkstate (zips st) (dirs st) ∅ (uploads st) (stderr st)) in
    (r, mkstate (zips st') (dirs st') (Fs.rmtree workspace (temp st'))
          (uploads st') (stderr st')).

(** The selector of the mode the archiver runs in. *)
Definition list_files (folder : string) (start_date end_date : datetime)
  : result (list string) :=
  if use_s3 self then
    list_s3_files (String.append folder "/") start_date end_date
  else list_local_files folder start_date end_date.

Definition upload_file (filename key : string) : M unit :=
  match upload_error E filename (bucket_name self) key with
  | Some e => lift (Raise e)
  | None => add_upload (filename, bucket_name self, key)
  end.

End Methods.

(** The dictionary [stats] of [archive_previous_month]. *)
Record stats := mkstats {
  stat_month : string;
  opening_files : Z;
  customer_files : Z;
  opening_zip : option string;
  customer_zip : option string
}.

Definition set_opening (s : stats) (n : Z) (zip : string) : stats :=
  mkstats (stat_month s) n (customer_files s) (Some zip) (customer_zip s).
Definition set_customer (s : stats) (n : Z) (zip : string) : stats :=
  mkstats (stat_month s) (opening_files s) n (opening_zip s) (Some zip).

(** [Path(p).name] *)
Definition path_name (p : string) : string := Pathlib.name (Pathlib.Path p).

Definition zip_name (folder month_str : string) : string :=
  String.append folder (String.append "_" (String.append month_str ".zip")).

Section Run.

Variable E : env.
Variable self : MonthlyArchiver.

(** The block run for the Opening folder, and the like block for the
    Customer folder, inside the workspace. *)
Definition process_opening (start_date end_date : datetime)
    (month_str temp_dir : string) (st : stats) : M stats :=
  opening_files ← lift (list_files E self "Opening" start_date end_date);
  match opening_files with
  | [] => mret st
  | _ :: _ =>
      let opening_zip_name := zip_name "Opening" month_str in
      let opening_zip_path := path_join (output_dir self) opening_zip_name in
      files_count ← create_zip_archive E self opening_files
                      opening_zip_path "Opening/" temp_dir;
      mret (set_opening st files_count opening_zip_path)
  end.

Definition process_customer (start_date end_date : datetime)
    (month_str temp_dir : string) (st : stats) : M stats :=
  customer_files ← lift (list_files E self "Customer" start_date end_date);
  match customer_files with
  | [] => mret st
  | _ :: _ =>
      let customer_zip_name := zip_name "Customer" month_str in
      let customer_zip_path :=
        path_join (output_dir self) customer_zip_name in
      files_count ← create_zip_archive E self customer_files
                      customer_zip_path "Customer/" temp_dir;
      mret (set_customer st files_count customer_zip_path)
  end.

Definition upload_if_made (zip : option string) : M unit :=
  match zip with
  | Some path =>
      if truthy (Some path) then
        upload_file E self path (String.append "archives/" (path_name path))
      else mret tt
  | None => mret tt
  end.

(** [archive_previous_month]; what it prints on standard output is left
    out, and with it the size of each archive, read only to be printed. *)
Definition archive_previous_month (reference_date : option datetime)
    (upload_to_s3 : bool) : M stats :=
  '(start_date, end_date) ←
    lift (get_previous_month_range E self reference_date);
  let month_str := strftime_Y_m start_date in
  let st := mkstats month_str 0 0 None None in
  st ← with_temporary_directory E (fun temp_dir =>
         st ← process_opening start_date end_date month_str temp_dir st;
         process_customer start_date end_date month_str temp_dir st);
  _ ← (if upload_to_s3 && use_s3 self then
         _ ← upload_if_made (opening_zip st);
         upload_if_made (customer_zip st)
       else mret tt);
  mret st.

End Run.

End Archiver.

(** ** The command line ([main]) *)

Module Cli.

(** The namespace [parse_args] returns; [--output] is required. *)
Record args := mkargs {
  bucket : option string;
  local_dir : option string;
  output : string;
  upload_to_s3 : bool;
  date : option string
}.

(** How [main] ends: it returns a code, [parser.error] raises
    [SystemExit], or an exception leaves it uncaught. *)
Inductive outcome :=
| Return (code : Z)
| SystemExit (code : Z)
| Uncaught (e : exception).

(** The exit status of [sys.exit(main())]. *)
Definition exit_code (o : outcome) : Z :=
  match o with
  | Return code => code
  | SystemExit code => code
  | Uncaught _ => 1
  end.

(** [parser.error(message)]: usage and message on standard error, then
    [SystemExit(2)]. *)
Definition parser_error (message : string) (st : state) : outcome * state :=
  (SystemExit 2, eprint message st).

(** [MonthlyArchiver.__init__] *)
Definition init (E : env) (bucket_name output_dir : string) (use_s3 : bool)
    (local_data_dir : option string) : M MonthlyArchiver :=
  let self_local_data_dir :=
    if truthy local_data_dir then local_data_dir else None in
  let self :=
    mkarchiver bucket_name output_dir use_s3 self_local_data_dir in
  _ ← (if use_s3 then
         if negb (HAS_BOTO3 E) then
           lift (Raise (Exc RuntimeError
             "boto3 is required for S3 operations. Install with: pip install boto3"))
         else mret tt
       else
         match self_local_data_dir with
         | None =>
             lift (Raise (Exc ValueError
                            "local_data_dir must exist when use_s3=False"))
         | Some d =>
             if negb (path_exists E d) then
               lift (Raise (Exc ValueError
                              "local_data_dir must exist when use_s3=False"))
             else mret tt
         end);
  _ ← (match create_error E (Pathlib.normal output_dir) with
       | Some e => lift (Raise e)
       | None => set_dirs (fun ds => {[Pathlib.normal output_dir]} ∪ ds)
       end);
  mret self.

(** The reference date [main] computes from [--date]: [None] without the
    option, the parsed date with it, [inr message] when it does not
    parse. *)
Definition reference_date_of (date : option string)
  : option datetime + string :=
  if truthy date then
    let text := default EmptyString date in
    match Strptime.strptime text Strptime.fmt_date with
    | Ok d => inl (Some d)
    | Raise _ =>
        inr (String.append "Invalid date format: "
               (String.append text ". Use YYYY-MM-DD"))
    end
  else inl None.

(** [main] *)
Definition main (E : env) (a : args) (st : state) : outcome * state :=
  if negb (truthy (bucket a)) && negb (truthy (local_dir a)) then
    parser_error "Either --bucket or --local-dir must be specified" st
  else if truthy (bucket a) && truthy (local_dir a) then
    parser_error "Cannot specify both --bucket and --local-dir" st
  else
    match reference_date_of (date a) with
    | inr message => parser_error message st
    | inl reference_date =>
        let use_s3 := truthy (bucket a) in
        match init E (if use_s3 then default EmptyString (bucket a)
                      else "local")
                   (output a) use_s3 (local_dir a) st with
        | (Raise e, st') => (Uncaught e, st')
        | (Ok archiver, st') =>
            match Archiver.archive_previous_month E archiver reference_date
                    (upload_to_s3 a) st' with
            | (Ok _, st'') => (Return 0, st'')
            | (Raise e, st'') =>
                (Return 1,
                 eprint (String.append Generator.newline
                           (String.append "Error: " (exc_msg e))) st'')
            end
        end
    end.

(** The argument combinations the command line refuses. *)
Definition both_given (a : args) : bool :=
  truthy (bucket a) && truthy (local_dir a).
Definition neither_given (a : args) : bool :=
  negb (truthy (bucket a)) && negb (truthy (local_dir a)).
Definition malformed_date (a : args) : bool :=
  truthy (date a)
  && negb (is_ok (Strptime.strptime (default EmptyString (date a))
                    Strptime.fmt_date)).
Definition invalid_arguments (a : args) : bool :=
  both_given a || neither_given a || malformed_date a.

End Cli.

(** ** Sample surroundings

    A data directory with one Opening document last modified in September
    2025, and a bucket whose objects exercise each way the remote selector
    dates an object. *)

Module Examples.

Definition sample_clock : civil := mkcivil 2025 11 3 9 26 0 0.

Definition no_such_file : exception := Exc OSError "No such file or directory".
Definition not_found : exception := Exc ClientError "Not Found".

Definition local_env : env := {|
  HAS_BOTO3 := false;
  now := sample_clock;
  tempdir := "/tmp/tmpk3v9";
  paginate := fun _ _ => [];
  head_object := fun _ _ => Raise not_found;
  download_file := fun _ _ => Raise not_found;
  upload_error := fun _ _ _ => None;
  path_exists := fun p =>
    String.eqb p "data" || String.eqb p "data/Opening";
  rglob := fun p =>
    if String.eqb p "data/Opening" then
      [mklocal "Opening/TXN100000" false (mkcivil 2025 9 17 10 30 0 0);
       mklocal "Opening/TXN100000/IDD.pdf" true (mkcivil 2025 9 17 10 30 0 0)]
    else [];
  os_stat := fun p =>
    if String.eqb p "data" || String.eqb p "data/Opening"
       || String.eqb p "data/Opening/TXN100000"
    then Ok (mkstat true (mkcivil 2025 9 17 10 30 0 0))
    else if String.eqb p "data/Opening/TXN100000/IDD.pdf"
    then Ok (mkstat false (mkcivil 2025 9 17 10 30 0 0))
    else Raise no_such_file;
  read_file := fun p =>
    if String.eqb p "data/Opening/TXN100000/IDD.pdf"
    then Ok (Generator.dummy_pdf 600) else Raise no_such_file;
  create_error := fun _ => None
|}.

Definition local_archiver : MonthlyArchiver :=
  mkarchiver "local" "archives" false (Some "data"%string).

Definition empty_state : state := mkstate ∅ ∅ ∅ [] [].

(** A bucket with four Opening objects, all uploaded in November 2025:
    one stamped in September by its metadata, one without the metadata
    entry, one whose metadata does not parse, one whose metadata cannot be
    fetched; and one more, last modified in September, stamped in August. *)
Definition uploaded : civil := mkcivil 2025 11 1 8 0 0 0.
Definition in_september : civil := mkcivil 2025 9 20 12 0 0 0.

Definition stamped : S3Object := mkS3Object "Opening/TXN1/IDD.pdf" uploaded.
Definition unstamped : S3Object := mkS3Object "Opening/TXN2/IDD.pdf" in_september.
Definition garbled : S3Object := mkS3Object "Opening/TXN3/IDD.pdf" in_september.
Definition unreachable : S3Object := mkS3Object "Opening/TXN4/IDD.pdf" in_september.
Definition restamped : S3Object := mkS3Object "Opening/TXN5/IDD.pdf" in_september.

Definition stamp (value : string) : head_response :=
  mkhead (Some {[ "original-timestamp"%string := value ]}).

Definition s3_env : env := {|
  HAS_BOTO3 := true;
  now := sample_clock;
  tempdir := "/tmp/tmpk3v9";
  paginate := fun _ prefix =>
    if String.eqb prefix "Opening/" then
      [Ok (Some [stamped; unstamped; garbled]); Ok None;
       Ok (Some [unreachable; restamped])]
    else [Ok None];
  head_object := fun _ key =>
    if String.eqb key "Opening/TXN1/IDD.pdf" then Ok (stamp "2025-09-05T10:00:00")
    else if String.eqb key "Opening/TXN2/IDD.pdf" then Ok (mkhead None)
    else if String.eqb key "Opening/TXN3/IDD.pdf" then Ok (stamp "05/09/2025")
    else if String.eqb key "Opening/TXN5/IDD.pdf" then Ok (stamp "2025-08-31T23:59:59")
    else Raise not_found;
  download_file := fun _ key => Ok (Generator.dummy_pdf 600);
  upload_error := fun _ _ _ => None;
  path_exists := fun _ => false;
  rglob := fun _ => [];
  os_stat := fun p =>
    if String.eqb p "/tmp" || String.eqb p "/tmp/tmpk3v9"
    then Ok (mkstat true sample_clock)
    else Raise no_such_file;
  read_file := fun _ => Raise no_such_file;
  create_error := fun _ => None
|}.

Definition s3_archiver : MonthlyArchiver :=
  mkarchiver "transaction-documents" "archives" true None.

Definition september_start : datetime :=
  aware_utc (mkcivil 2025 9 1 0 0 0 0).
Definition september_end : datetime :=
  aware_utc (mkcivil 2025 9 30 23 59 59 999999).

End Examples.

(** ** Notions used to state what the selectors return *)

Module Selection.

(** The objects of a listing, page after page. *)
Definition page_objects (pages : list (result (option (list S3Object))))
  : list S3Object :=
  flat_map (fun page => match page with
                        | Ok (Some contents) => contents
                        | _ => []
                        end) pages.

(** The date [list_s3_files] ends up comparing for an object: the one the
    [try] block settles on, else, in the handler, [LastModified]. *)
Definition effective_timestamp (E : env) (self : MonthlyArchiver)
    (obj : S3Object) : datetime :=
  match Archiver.s3_file_date E self obj with
  | Ok file_date => file_date
  | Raise _ => obj_LastModified obj
  end.

(** [lo <= x <= hi] holds (and the comparison does not raise). *)
Definition within (lo x hi : datetime) : bool :=
  match between lo x hi with
  | Ok b => b
  | Raise _ => false
  end.

(** The keys the remote selector keeps of a run of objects, when the
    bounds are aware. *)
Definition kept (E : env) (self : MonthlyArchiver)
    (start_date end_date : datetime) (objects : list S3Object)
  : list string :=
  map Key
    (List.filter
       (fun obj => within start_date (effective_timestamp E self obj)
                     end_date) objects).

(** The fields [c] lie in month [m] of year [y]. *)
Definition in_month (y m : Z) (c : civil) : bool :=
  (year c =? y) && (month c =? m).

(** The month after [(year, month)]. *)
Definition next_month (year month : Z) : Z * Z :=
  if month =? 12 then (year + 1, 1) else (year, month + 1).

End Selection.

(** ** More sample surroundings *)

Module Samples.

Definition timed_out : exception := Exc ClientError "Read timeout".

(** The sample bucket behind a connection that drops after the first
    page of a listing. *)
Definition flaky_env : env := {|
  HAS_BOTO3 := true;
  now := Examples.sample_clock;
  tempdir := "/tmp/tmpk3v9";
  paginate := fun _ _ =>
    [Ok (Some [Examples.stamped; Examples.unstamped]); Raise timed_out;
     Ok (Some [Examples.unreachable])];
  head_object := head_object Examples.s3_env;
  download_file := download_file Examples.s3_env;
  upload_error := fun _ _ _ => None;
  path_exists := fun _ => false;
  rglob := fun _ => [];
  os_stat := os_stat Examples.s3_env;
  read_file := fun _ => Raise Examples.no_such_file;
  create_error := fun _ => None
|}.

Definition october_15 : datetime := naive (mkcivil 2025 10 15 0 0 0 0).



End Samples.

(** ** The effect of a run, as a function of the surroundings

    What the archive assembler and the orchestrator do, told without the
    state: which members are fetched, what is written, what is uploaded,
    and where the first failure stops them. The properties below relate
    the methods to these. *)

Module Plan.

Section Plans.

Variable E : env.
Variable self : MonthlyArchiver.

(** The member [ZipFile.write] makes of [local_file] under [arcname] when
    the tree of the run is [t]. *)
Definition stored (t : gmap string node) (local_file arcname : string)
  : result (string * list byte) :=
  st ← Fs.stat E local_file t;
  Zipfile.member st (Fs.read E local_file t) arcname.

(** One pass of the loop of [create_zip_archive]: the member added for
    [file_key] (or the exception of the pass), and the tree after it. In
    remote mode the object is downloaded first. *)
Definition member (temp_dir : string) (t : gmap string node)
    (file_key : string) : result (string * list byte) * gmap string node :=
  if use_s3 self then
    let local_file := Pathlib.truediv (Pathlib.Path temp_dir) file_key in
    match Fs.mkdir E (Pathlib.parent local_file) t with
    | (Raise e, t1) => (Raise e, t1)
    | (Ok _, t1) =>
        match download_file E (bucket_name self) file_key with
        | Raise e => (Raise e, t1)
        | Ok content =>
            match Fs.write E (Pathlib.str local_file) content t1 with
            | (Raise e, t2) => (Raise e, t2)
            | (Ok _, t2) =>
                (stored t2 (Pathlib.str local_file) file_key, t2)
            end
        end
    end
  else
    match local_data_dir self with
    | Some data_dir => (stored t (path_join data_dir file_key) file_key, t)
    | None => (Raise (Exc TypeError "unsupported operand type(s) for /"), t)
    end.

(** The members stored before the first pass that raises, the exception
    of that pass, and the tree after the loop. *)
Fixpoint members (temp_dir : string) (t : gmap string node)
    (files : list string)
  : list (string * list byte) * option exception * gmap string node :=
  match files with
  | [] => ([], None, t)
  | file_key :: rest =>
      match member temp_dir t file_key with
      | (Raise e, t1) => ([], Some e, t1)
      | (Ok m, t1) =>
          let '(ms, failure, t2) := members temp_dir t1 rest in
          (m :: ms, failure, t2)
      end
  end.

Definition outcome {A} (failure : option exception) (a : A) : result A :=
  match failure with
  | None => Ok a
  | Some e => Raise e
  end.

(** [create_zip_archive]: the count returned (or the exception raised),
    the change to the ZIP files on disk, and the tree after the call. *)
Definition archive (temp_dir : string) (t : gmap string node)
    (files : list string) (zip_path : string)
  : result Z * (gmap string zip_archive -> gmap string zip_archive)
    * gmap string node :=
  match files with
  | [] => (Ok 0, fun z => z, t)
  | _ :: _ =>
      match create_error E zip_path with
      | Some e => (Raise e, fun z => z, t)
      | None =>
          let '(ms, failure, t') := members temp_dir t files in
          (outcome failure (Z.of_nat (length files)),
           fun z => <[zip_path := ms]> z, t')
      end
  end.

(** The block of the orchestrator for one folder. *)
Definition folder (temp_dir : string) (t : gmap string node) (name : string)
    (record : Archiver.stats -> Z -> string -> Archiver.stats)
    (start_date end_date : datetime) (month_str : string)
    (s : Archiver.stats)
  : result Archiver.stats
    * (gmap string zip_archive -> gmap string zip_archive)
    * gmap string node :=
  match Archiver.list_files E self name start_date end_date with
  | Raise e => (Raise e, fun z => z, t)
  | Ok [] => (Ok s, fun z => z, t)
  | Ok (f :: rest) =>
      let zip_path :=
        path_join (output_dir self) (Archiver.zip_name name month_str) in
      let '(r, change, t') := archive temp_dir t (f :: rest) zip_path in
      (n ← r; Ok (record s n zip_path), change, t')
  end.

(** The uploads of the archives made, up to the first that fails. *)
Fixpoint upload_all (made : list string)
  : list (string * string * string) * option exception :=
  match made with
  | [] => ([], None)
  | path :: rest =>
      let key := String.append "archives/" (Archiver.path_name path) in
      match upload_error E path (bucket_name self) key with
      | Some e => ([], Some e)
      | None =>
          let '(done, failure) := upload_all rest in
          ((path, bucket_name self, key) :: done, failure)
      end
  end.

Definition made_archives (s : Archiver.stats) : list string :=
  List.filter (fun path => truthy (Some path))
    (option_list (Archiver.opening_zip s)
     ++ option_list (Archiver.customer_zip s)).

(** The result of [archive_previous_month]: what it returns, the change
    to the ZIP files, the uploads, and the tree the run leaves when it got
    as far as the workspace. *)
Record run_result := mkrun {
  returned : result Archiver.stats;
  change : gmap string zip_archive -> gmap string zip_archive;
  uploaded : list (string * string * string);
  left : option (gmap string node)
}.

Definition workspace : string :=
  Pathlib.str (Fs.canonical (Pathlib.Path (tempdir E))).

Definition run (reference_date : option datetime) (upload_to_s3 : bool)
  : run_result :=
  match Archiver.get_previous_month_range E self reference_date with
  | Raise e => mkrun (Raise e) (fun z => z) [] None
  | Ok (start_date, end_date) =>
      let month_str := strftime_Y_m start_date in
      let s0 := Archiver.mkstats month_str 0 0 None None in
      let '(r1, change1, t1) :=
        folder (tempdir E) ∅ "Opening" Archiver.set_opening
          start_date end_date month_str s0 in
      match r1 with
      | Raise e => mkrun (Raise e) change1 [] (Some (Fs.rmtree workspace t1))
      | Ok s1 =>
          let '(r2, change2, t2) :=
            folder (tempdir E) t1 "Customer" Archiver.set_customer
              start_date end_date month_str s1 in
          let after := Some (Fs.rmtree workspace t2) in
          match r2 with
          | Raise e => mkrun (Raise e) (fun z => change2 (change1 z)) [] after
          | Ok s2 =>
              if upload_to_s3 && use_s3 self then
                let '(done, failure) := upload_all (made_archives s2) in
                mkrun (outcome failure s2) (fun z => change2 (change1 z))
                  done after
              else mkrun (Ok s2) (fun z => change2 (change1 z)) [] after
          end
      end
  end.

End Plans.

End Plan.

(** ** Notions used to state what a run leaves behind *)

Module Effects.


(** No ['/'] in a name. *)
Fixpoint no_slash (s : string) : bool :=
  match s with
  | EmptyString => true
  | String c rest => negb (Ascii.eqb c "/") && no_slash rest
  end.

(** A name: no slash, not empty, not ['.']. *)
Definition part_ok (x : string) : bool := Pathlib.keep x && no_slash x.

(** A well-formed path: a root of at most two slashes, and parts that are
    names. *)
Definition path_ok (p : Pathlib.path) : Prop :=
  (Pathlib.root p = EmptyString \/ Pathlib.root p = "/"%string
   \/ Pathlib.root p = "//"%string)
  /\ Forall (fun x => part_ok x = true) (Pathlib.parts p).




(** The upload recorded for the archive of a folder. *)
Definition upload_of (self : MonthlyArchiver) (folder month_str : string)
    (zip : option string) : list (string * string * string) :=
  match zip with
  | Some path =>
      [(path, bucket_name self,
        String.append "archives/" (Archiver.zip_name folder month_str))]
  | None => []
  end.

End Effects.

(** The sample bucket, with one object that cannot be downloaded. *)
Module Broken.

Definition download_env : env := {|
  HAS_BOTO3 := true;
  now := Examples.sample_clock;
  tempdir := "/tmp/tmpk3v9";
  paginate := paginate Examples.s3_env;
  head_object := head_object Examples.s3_env;
  download_file := fun _ key =>
    if String.eqb key "Opening/TXN3/IDD.pdf" then Raise Examples.not_found
    else Ok (Generator.encode key);
  upload_error := fun _ _ _ => None;
  path_exists := fun _ => false;
  rglob := fun _ => [];
  os_stat := os_stat Examples.s3_env;
  read_file := fun _ => Raise Examples.no_such_file;
  create_error := fun _ => None
|}.


End Broken.

(** ** The generator: the tree builder ([generate_s3_structure.py])

    The staging tree is the content of each file written and the set of
    the directories made; it is taken as writable. The random generator is
    a sequence [rng] of draws and the count of those consumed. *)

Module Builder.

Definition MONTHS_TO_SIMULATE : Z := 3.
Definition TRANSACTIONS_PER_MONTH : Z := 500.
Definition CUSTOMER_DOCS_PER_MONTH : Z := 25.

(** [OPENING_FILE_SPECS], in the order the dictionary is written. *)
Definition OPENING_FILE_SPECS : list (string * Z) :=
  [("IDD.pdf"%string, 620 * 1024);
   ("KYC.pdf"%string, 1300 * 1024);
   ("OPA.xml"%string, 4 * 1024);
   ("PID.pdf"%string, 300 * 1024)].

Definition CUSTOMER_FILE_MIN_SIZE : Z := 300 * 1024.
Definition CUSTOMER_FILE_MAX_SIZE : Z := 1300 * 1024.

Record tree := mktree {
  files : gmap string (list byte);
  made : gset string;
  drawn : nat
}.

Definition G (A : Type) : Type := tree -> result A * tree.

#[global] Instance G_ret : MRet G := fun A a t => (Ok a, t).
#[global] Instance G_bind : MBind G := fun A B f m t =>
  match m t with
  | (Ok a, t') => f a t'
  | (Raise e, t') => (Raise e, t')
  end.

Definition fail {A} (e : exception) : G A := fun t => (Raise e, t).

(** [for i in range(n): body] *)
Fixpoint repeat_times (n : nat) (body : G unit) : G unit :=
  match n with
  | O => mret tt
  | S n' => _ ← body; repeat_times n' body
  end.

(** [for x in xs: body(x)] *)
Fixpoint for_items {A} (xs : list A) (body : A -> G unit) : G unit :=
  match xs with
  | [] => mret tt
  | x :: xs' => _ ← body x; for_items xs' body
  end.

Definition starts_with_slash (s : string) : bool :=
  match s with
  | String c _ => Ascii.eqb c "/"
  | EmptyString => false
  end.

Fixpoint ends_with_slash (s : string) : bool :=
  match s with
  | EmptyString => false
  | String c EmptyString => Ascii.eqb c "/"
  | String _ rest => ends_with_slash rest
  end.

(** [os.path.join(a, b)] *)
Definition os_path_join (a b : string) : string :=
  if starts_with_slash b then b
  else if String.eqb a EmptyString || ends_with_slash a then String.append a b
  else String.append a (String.append "/" b).

(** [s.endswith(suffix)] *)
Definition endswith (s suffix : string) : bool :=
  (String.length suffix <=? String.length s)%nat
  && String.eqb
       (String.substring (String.length s - String.length suffix)
          (String.length suffix) s)
       suffix.

(** [a + t] on a [datetime], as [Datetime.sub] with the other sign. *)
Definition dt_add (d : datetime) (t : timedelta) : result datetime :=
  let us := to_us (wall d) + timedelta_us t in
  let delta_days := us / US_PER_DAY in
  let rem := us mod US_PER_DAY in
  let delta_seconds := rem / US_PER_SECOND in
  let delta_microseconds := rem mod US_PER_SECOND in
  if (0 <? delta_days) && (delta_days <=? MAXORDINAL) then
    let '(y, m, dd) := ord2ymd delta_days in
    Ok {| wall := {| year := y; month := m; day := dd;
                     hour := delta_seconds / 3600;
                     minute := delta_seconds mod 3600 / 60;
                     second := delta_seconds mod 3600 mod 60;
                     microsecond := delta_microseconds |};
          tzinfo := tzinfo d |}
  else Raise (Exc OverflowError "date value out of range").

(** [(a - b).days] for two [datetime]s. *)
Definition days_between (a b : datetime) : result Z :=
  match tzinfo a, tzinfo b with
  | None, None => Ok ((to_us (wall a) - to_us (wall b)) / US_PER_DAY)
  | Some oa, Some ob =>
      Ok ((to_us (wall a) - oa * 60 * US_PER_SECOND
           - (to_us (wall b) - ob * 60 * US_PER_SECOND)) / US_PER_DAY)
  | _, _ =>
      Raise (Exc TypeError
               "can't subtract offset-naive and offset-aware datetimes")
  end.

(** [d.strftime('%Y%m%d')]; the dates of the generator lie within ninety
    days of the clock, in years of four digits. *)
Definition strftime_Ymd (d : datetime) : string :=
  String.append (zero_padded 4 (year (wall d)))
    (String.append (zero_padded 2 (month (wall d)))
       (zero_padded 2 (day (wall d)))).

Section Build.

Variable rng : nat -> nat.

Definition draw : G nat :=
  fun t => (Ok (rng (drawn t)), mktree (files t) (made t) (S (drawn t))).

(** [random.randint(a, b)] *)
Definition randint (a b : Z) : G Z :=
  if b <? a then fail (Exc ValueError "empty range for randrange()")
  else n ← draw; mret (a + Z.of_nat n mod (b - a + 1)).

(** The event [random.random() < 0.7], read off the next draw. *)
Definition random_below_0_7 : G bool :=
  n ← draw; mret (n mod 10 <? 7)%nat.

(** [os.makedirs(path, exist_ok=True)] *)
Definition makedirs (path : string) : G unit :=
  fun t => (Ok tt, mktree (files t) ({[path]} ∪ made t) (drawn t)).

(** [create_dummy_pdf] on the staging tree. *)
Definition write_pdf (filepath : string) (size_bytes : Z) : G unit :=
  fun t =>
    (Ok tt,
     mktree (Generator.create_dummy_pdf filepath size_bytes (files t))
       (made t) (drawn t)).

(** [create_dummy_xml] on the staging tree: the padding takes the next
    draws. *)
Definition write_xml (filepath : string) (size_bytes : Z) : G unit :=
  fun t =>
    (Ok tt,
     mktree
       (Generator.create_dummy_xml (fun i => rng (drawn t + i)%nat)
          filepath size_bytes (files t))
       (made t)
       (drawn t
        + Z.to_nat (Z.max 0 (size_bytes
                             - Generator.fixed_skeleton_length Generator.xml)))%nat).

(** [generate_transaction_id] *)
Definition generate_transaction_id : G string :=
  n ← randint 100000 999999;
  mret (String.append "TXN" (str_int n)).

(** The body of the loop of [generate_opening_folder]. *)
Definition opening_transaction (opening_dir : string) : G unit :=
  txn_id ← generate_transaction_id;
  let txn_dir := os_path_join opening_dir txn_id in
  _ ← makedirs txn_dir;
  for_items OPENING_FILE_SPECS (fun '(filename, size) =>
    let filepath := os_path_join txn_dir filename in
    if endswith filename ".xml" then write_xml filepath size
    else write_pdf filepath size).

(** [generate_opening_folder] *)
Definition generate_opening_folder (base_dir : string)
    (start_date end_date : datetime) : G Z :=
  let opening_dir := os_path_join base_dir "Opening" in
  _ ← makedirs opening_dir;
  days ← (fun t => (days_between end_date start_date, t));
  let total_transactions := TRANSACTIONS_PER_MONTH * MONTHS_TO_SIMULATE in
  _ ← repeat_times (Z.to_nat total_transactions)
        (opening_transaction opening_dir);
  mret total_transactions.

(** The body of the loop of [generate_customer_folder]. *)
Definition customer_document (customer_dir : string)
    (start_date end_date : datetime) : G unit :=
  below ← random_below_0_7;
  let file_ext := if below : bool then "pdf"%string else "xml"%string in
  days ← (fun t => (days_between end_date start_date, t));
  k ← randint 0 days;
  doc_date ← (fun t => (dt_add start_date (Datetime.days k), t));
  suffix ← randint 1000 9999;
  let filename :=
    String.append "CUST_"
      (String.append (strftime_Ymd doc_date)
         (String.append "_"
            (String.append (str_int suffix)
               (String.append "." file_ext)))) in
  let filepath := os_path_join customer_dir filename in
  size ← randint CUSTOMER_FILE_MIN_SIZE CUSTOMER_FILE_MAX_SIZE;
  if String.eqb file_ext "xml" then write_xml filepath size
  else write_pdf filepath size.

(** [generate_customer_folder] *)
Definition generate_customer_folder (base_dir : string)
    (start_date end_date : datetime) : G Z :=
  let customer_dir := os_path_join base_dir "Customer" in
  _ ← makedirs customer_dir;
  let total_docs := CUSTOMER_DOCS_PER_MONTH * MONTHS_TO_SIMULATE in
  _ ← repeat_times (Z.to_nat total_docs)
        (customer_document customer_dir start_date end_date);
  mret total_docs.

End Build.

(** A file holds [size] bytes. *)
Definition holds (fs : gmap string (list byte)) (path : string) (size : Z)
  : Prop :=
  exists content, fs !! path = Some content /\ Generator.len content = size.

(** A transaction identifier: [TXN] and six decimal digits. *)
Definition is_transaction_id (s : string) : Prop :=
  exists n, 100000 <= n <= 999999
            /\ s = String.append "TXN" (zero_padded 6 n).

End Builder.

(** ** Notions used to state what the tree builder leaves behind *)

Module Staging.

(** A path that ends in the name of an Opening document and holds a file
    of the size listed for that name. *)
Definition opening_document (fs : gmap string (list byte)) (path : string)
  : Prop :=
  exists prefix name size,
    path = String.append prefix name
    /\ In (name, size) Builder.OPENING_FILE_SPECS
    /\ Builder.holds fs path size.

(** A directory holding the four Opening documents at their sizes. *)
Definition complete_transaction (fs : gmap string (list byte))
    (txn_dir : string) : Prop :=
  forall name size,
    In (name, size) Builder.OPENING_FILE_SPECS ->
    Builder.holds fs (Builder.os_path_join txn_dir name) size.

(** From [fs] to [fs']: the documents of the table stay in place, and
    every path is left alone or holds one. *)
Definition extends (fs fs' : gmap string (list byte)) : Prop :=
  (forall prefix name size,
      In (name, size) Builder.OPENING_FILE_SPECS ->
      Builder.holds fs (String.append prefix name) size ->
      Builder.holds fs' (String.append prefix name) size)
  /\ (forall path, fs' !! path = fs !! path \/ opening_document fs' path).

(** The name of a Customer document. *)
Definition customer_name (name : string) : Prop :=
  exists (doc_date : datetime) (suffix : Z) (ext : string),
    1000 <= suffix <= 9999
    /\ (ext = "pdf"%string \/ ext = "xml"%string)
    /\ name
       = String.append "CUST_"
           (String.append (Builder.strftime_Ymd doc_date)
              (String.append "_"
                 (String.append (zero_padded 4 suffix)
                    (String.append "." ext)))).

(** A Customer document: its name, and a size within the bounds. *)
Definition customer_document (fs : gmap string (list byte))
    (customer_dir path : string) : Prop :=
  exists name content,
    customer_name name
    /\ path = Builder.os_path_join customer_dir name
    /\ fs !! path = Some content
    /\ Builder.CUSTOMER_FILE_MIN_SIZE <= Generator.len content
       <= Builder.CUSTOMER_FILE_MAX_SIZE.

End Staging.

(** * Properties *)

(** ** Facts about the calendar

    The Gregorian calendar repeats every 400 years: the round trip
    between dates and ordinals is checked by evaluation on the years
    1..401 and carried to every later year by that period. *)

Lemma years_1_401_ok : years_ok 0 401 = true.
Proof. vm_compute. reflexivity. Qed.

Lemma years_ok_month lo n y m :
  years_ok lo n = true -> lo < y <= lo + Z.of_nat n -> 1 <= m <= 12 ->
  month_ok y m = true.
Proof.
  intros Hall Hy Hm. unfold years_ok in Hall.
  rewrite forallb_forall in Hall.
  assert (Hyear : year_ok y = true).
  { apply Hall. apply in_map_iff. exists (Z.to_nat (y - lo)). split; [lia|].
    apply in_seq. lia. }
  unfold year_ok in Hyear. rewrite forallb_forall in Hyear.
  apply Hyear. unfold months. apply in_map_iff.
  exists (Z.to_nat m). split; [lia|]. apply in_seq. lia.
Qed.

Lemma is_leap_period y : is_leap (y + 400) = is_leap y.
Proof.
  unfold is_leap.
  replace ((y + 400) mod 4) with (y mod 4)
    by (replace (y + 400) with (y + 100 * 4) by lia; now rewrite Z.mod_add).
  replace ((y + 400) mod 100) with (y mod 100)
    by (replace (y + 400) with (y + 4 * 100) by lia; now rewrite Z.mod_add).
  replace ((y + 400) mod 400) with (y mod 400)
    by (replace (y + 400) with (y + 1 * 400) by lia; now rewrite Z.mod_add).
  reflexivity.
Qed.

Lemma days_before_year_period y :
  days_before_year (y + 400) = days_before_year y + DI400Y.
Proof.
  unfold days_before_year, DI400Y. cbv zeta.
  replace ((y + 400 - 1) / 4) with ((y - 1) / 4 + 100)
    by (replace (y + 400 - 1) with (y - 1 + 100 * 4) by lia;
        now rewrite Z.div_add).
  replace ((y + 400 - 1) / 100) with ((y - 1) / 100 + 4)
    by (replace (y + 400 - 1) with (y - 1 + 4 * 100) by lia;
        now rewrite Z.div_add).
  replace ((y + 400 - 1) / 400) with ((y - 1) / 400 + 1)
    by (replace (y + 400 - 1) with (y - 1 + 1 * 400) by lia;
        now rewrite Z.div_add).
  lia.
Qed.

Lemma days_in_month_period y m : days_in_month (y + 400) m = days_in_month y m.
Proof. unfold days_in_month. now rewrite is_leap_period. Qed.

Lemma ymd2ord_period y m d : ymd2ord (y + 400) m d = ymd2ord y m d + DI400Y.
Proof.
  unfold ymd2ord, days_before_month.
  rewrite days_before_year_period, is_leap_period. lia.
Qed.

Lemma ord2ymd_period n :
  ord2ymd (n + DI400Y) =
  let '(y, m, d) := ord2ymd n in (y + 400, m, d).
Proof.
  unfold ord2ymd. cbv zeta.
  replace (n + DI400Y - 1) with (n - 1 + 1 * DI400Y) by lia.
  rewrite Z.div_add, Z.mod_add by (unfold DI400Y; lia).
  set (r := (n - 1) mod DI400Y).
  destruct ((r mod DI100Y mod DI4Y / 365 =? 4) || (r / DI100Y =? 4)).
  - apply (f_equal2 pair); [apply (f_equal2 pair)|]; lia.
  - match goal with |- (if ?c then _ else _) = _ => destruct c end;
      (apply (f_equal2 pair); [apply (f_equal2 pair)|]; lia).
Qed.

Lemma month_facts_base y m :
  1 <= y <= 401 -> 1 <= m <= 12 -> month_facts y m.
Proof.
  intros Hy Hm.
  pose proof (years_ok_month 0 401 y m years_1_401_ok ltac:(lia) Hm) as H.
  unfold month_ok in H. unfold month_facts.
  destruct (ord2ymd (ymd2ord y m 1)) as [[a b] c].
  destruct (prev_month y m) as [py pm]. cbn [fst snd].
  destruct (ord2ymd (ymd2ord y m 1 - 1)) as [[a' b'] c'].
  apply andb_prop in H as [H1 H2].
  apply andb_prop in H1 as [H1 Hc]. apply andb_prop in H1 as [Ha Hb].
  apply Z.eqb_eq in Ha, Hb, Hc. split; [congruence|].
  intros Hne. apply orb_prop in H2 as [H2|H2].
  - apply andb_prop in H2 as [Hy1 Hm1]. apply Z.eqb_eq in Hy1, Hm1. tauto.
  - apply andb_prop in H2 as [H2 Ho]. apply andb_prop in H2 as [H2 Hc'].
    apply andb_prop in H2 as [Ha' Hb'].
    apply Z.eqb_eq in Ha', Hb', Hc', Ho. split; congruence.
Qed.

Lemma prev_month_period y m :
  prev_month (y + 400) m = (fst (prev_month y m) + 400, snd (prev_month y m)).
Proof.
  unfold prev_month. destruct (m =? 1); cbn [fst snd]; f_equal; lia.
Qed.

Lemma month_facts_period y m :
  2 <= y -> month_facts y m -> month_facts (y + 400) m.
Proof.
  intros Hy [H1 H2]. destruct H2 as [H2 H3]; [lia|].
  unfold month_facts. rewrite prev_month_period. cbn [fst snd].
  rewrite days_in_month_period, !ymd2ord_period.
  split.
  - rewrite ord2ymd_period, H1. reflexivity.
  - intros _. split; [|lia].
    replace (ymd2ord y m 1 + DI400Y - 1) with (ymd2ord y m 1 - 1 + DI400Y)
      by lia.
    rewrite ord2ymd_period, H2. reflexivity.
Qed.

Lemma month_facts_all y m : 1 <= y -> 1 <= m <= 12 -> month_facts y m.
Proof.
  intros Hy Hm.
  destruct (Z.eq_dec y 1) as [->|Hy1]; [apply month_facts_base; lia|].
  assert (Hk : forall k : nat, forall y0, 2 <= y0 <= 401 ->
             month_facts (y0 + 400 * Z.of_nat k) m).
  { induction k as [|k IH]; intros y0 Hy0.
    - rewrite Z.mul_0_r, Z.add_0_r. apply month_facts_base; lia.
    - replace (y0 + 400 * Z.of_nat (S k)) with (y0 + 400 * Z.of_nat k + 400)
        by lia.
      apply month_facts_period; [lia|]. apply IH, Hy0. }
  specialize (Hk (Z.to_nat ((y - 2) / 400)) ((y - 2) mod 400 + 2)).
  replace ((y - 2) mod 400 + 2 + 400 * Z.of_nat (Z.to_nat ((y - 2) / 400)))
    with y in Hk.
  - apply Hk. pose proof (Z.mod_pos_bound (y - 2) 400). lia.
  - rewrite Z2Nat.id by (apply Z.div_pos; lia).
    pose proof (Z.div_mod (y - 2) 400). lia.
Qed.

(** The ordinal of the first day of a month lies inside the range of
    [datetime], and after ordinal 1 unless it is the first day of all. *)
Lemma ymd2ord_first_bounds y m :
  MINYEAR <= y <= MAXYEAR -> 1 <= m <= 12 ->
  1 <= ymd2ord y m 1 <= MAXORDINAL
  /\ (~ (y = 1 /\ m = 1) -> 2 <= ymd2ord y m 1).
Proof.
  unfold MINYEAR, MAXYEAR, MAXORDINAL, ymd2ord, days_before_year,
    days_before_month. cbv zeta. intros Hy Hm.
  assert (Hm' : m = 1 \/ m = 2 \/ m = 3 \/ m = 4 \/ m = 5 \/ m = 6 \/ m = 7
                \/ m = 8 \/ m = 9 \/ m = 10 \/ m = 11 \/ m = 12) by lia.
  pose proof (Z.div_mod (y - 1) 4 ltac:(lia)).
  pose proof (Z.mod_pos_bound (y - 1) 4 ltac:(lia)).
  pose proof (Z.div_mod (y - 1) 100 ltac:(lia)).
  pose proof (Z.mod_pos_bound (y - 1) 100 ltac:(lia)).
  pose proof (Z.div_mod (y - 1) 400 ltac:(lia)).
  pose proof (Z.mod_pos_bound (y - 1) 400 ltac:(lia)).
  destruct (is_leap y);
    repeat (destruct Hm' as [->|Hm']); try subst m; cbn; lia.
Qed.

(** ** Evaluations of the model *)

Example strptime_date_ok :
  Strptime.strptime "2025-10-15" Strptime.fmt_date
  = Ok (naive (mkcivil 2025 10 15 0 0 0 0)).
Proof. reflexivity. Qed.

Example strptime_month_13 :
  is_ok (Strptime.strptime "2025-13-01" Strptime.fmt_date) = false.
Proof. reflexivity. Qed.

Example strptime_timestamp_ok :
  Strptime.strptime "2025-09-30T23:59:59" Strptime.fmt_timestamp
  = Ok (naive (mkcivil 2025 9 30 23 59 59 0)).
Proof. reflexivity. Qed.

Example strptime_february_30 :
  is_ok (Strptime.strptime "2025-02-30T00:00:00" Strptime.fmt_timestamp) = false.
Proof. reflexivity. Qed.

Example strptime_year_one :
  Cli.reference_date_of (Some "0001-01-15"%string)
  = inl (Some (naive (mkcivil 1 1 15 0 0 0 0))).
Proof. reflexivity. Qed.

Example strptime_lenient_fields :
  Strptime.strptime "2025-9-5t7:08:09" Strptime.fmt_timestamp
  = Ok (naive (mkcivil 2025 9 5 7 8 9 0)).
Proof. reflexivity. Qed.

Example list_s3_files_september :
  Archiver.list_s3_files Examples.s3_env Examples.s3_archiver "Opening/"
    Examples.september_start Examples.september_end
  = Ok ["Opening/TXN1/IDD.pdf"; "Opening/TXN2/IDD.pdf";
        "Opening/TXN3/IDD.pdf"; "Opening/TXN4/IDD.pdf"]%string.
Proof. reflexivity. Qed.

Example main_local_run :
  Cli.exit_code
    (fst (Cli.main Examples.local_env
            (Cli.mkargs None (Some "data"%string) "archives" false
               (Some "2025-10-15"%string))
            Examples.empty_state)) = 0.
Proof. vm_compute. reflexivity. Qed.

Example main_year_one_run :
  fst (Cli.main Examples.local_env
         (Cli.mkargs None (Some "data"%string) "archives" false
            (Some "0001-01-15"%string))
         Examples.empty_state) = Cli.Return 1.
Proof. vm_compute. reflexivity. Qed.

Example main_remote_run_uploads :
  uploads
    (snd (Cli.main Examples.s3_env
            (Cli.mkargs (Some "transaction-documents"%string) None "archives"
               true (Some "2025-10-15"%string))
            Examples.empty_state))
  = [("archives/Opening_2025-09.zip", "transaction-documents",
      "archives/Opening_2025-09.zip")]%string.
Proof. vm_compute. reflexivity. Qed.

Example ordinal_of_2025_10_01 :
  ymd2ord 2025 10 1 = 739525 /\ ord2ymd 739159 = (2024, 9, 30)
  /\ ymd2ord 9999 12 31 = MAXORDINAL.
Proof. repeat split. Qed.

Example population_64 : length Generator.population = 64%nat.
Proof. reflexivity. Qed.

Example strftime_example :
  strftime_Y_m (naive (mkcivil 2025 9 1 0 0 0 0)) = "2025-09"%string.
Proof. reflexivity. Qed.

Example strftime_year_999 :
  strftime_Y_m (naive (mkcivil 999 5 1 0 0 0 0)) = "999-05"%string.
Proof. reflexivity. Qed.

Example path_join_examples :
  path_join "archives" "Opening_2025-09.zip"
  = "archives/Opening_2025-09.zip"%string
  /\ path_join "./archives" "Opening_2025-09.zip"
     = "archives/Opening_2025-09.zip"%string
  /\ path_join "archives//" "Opening_2025-09.zip"
     = "archives/Opening_2025-09.zip"%string
  /\ path_join "/srv/out/" "Opening_2025-09.zip"
     = "/srv/out/Opening_2025-09.zip"%string
  /\ path_join "." "Opening_2025-09.zip" = "Opening_2025-09.zip"%string.
Proof. vm_compute. repeat split. Qed.

Example archive_name_examples :
  Zipfile.filename_of "Opening/TXN1/IDD.pdf" false
  = Ok "Opening/TXN1/IDD.pdf"%string
  /\ Zipfile.filename_of "Opening//TXN1/IDD.pdf" false
     = Ok "Opening/TXN1/IDD.pdf"%string
  /\ Zipfile.filename_of "Opening/" false = Ok "Opening"%string
  /\ Zipfile.filename_of "/abs/key" false = Ok "abs/key"%string
  /\ Zipfile.filename_of "a/../b" false = Ok "b"%string
  /\ Zipfile.filename_of "/" false
     = Raise (Exc IndexError "string index out of range").
Proof. vm_compute. repeat split. Qed.

Example member_dated_1979 :
  Zipfile.member (mkstat false (mkcivil 1979 12 31 23 59 59 0)) (Ok [])
    "old.pdf"
  = Raise (Exc ValueError "ZIP does not support timestamps before 1980").
Proof. reflexivity. Qed.

(** A key that is a path prefix of the next one: the object stands as a
    file where the directory of the next one is to be made. *)
Example key_under_a_key :
  snd (fst (Plan.members Broken.download_env Examples.s3_archiver
              "/tmp/tmpk3v9" ∅
              ["Opening"; "Opening/TXN1/IDD.pdf"]%string))
  = Some (Exc OSError
            "[Errno 20] Not a directory: '/tmp/tmpk3v9/Opening/TXN1'").
Proof. vm_compute. reflexivity. Qed.

Example pdf_skeleton_584 : Generator.fixed_skeleton_length Generator.pdf = 584.
Proof. reflexivity. Qed.

Example xml_skeleton_100 : Generator.fixed_skeleton_length Generator.xml = 100.
Proof. reflexivity. Qed.


(** ** The content synthesizer *)

Lemma encode_length (s : string) :
  length (Generator.encode s) = String.length s.
Proof.
  unfold Generator.encode, list_byte_of_string. rewrite length_map.
  induction s as [|c s IH]; cbn; [reflexivity|now rewrite IH].
Qed.

Lemma string_of_list_ascii_length (l : list ascii) :
  String.length (string_of_list_ascii l) = length l.
Proof. induction l as [|c l IH]; cbn; [reflexivity|now rewrite IH]. Qed.

Lemma choices_length rng pop k : length (Generator.choices rng pop k) = k.
Proof. unfold Generator.choices. now rewrite length_map, length_seq. Qed.

Lemma dummy_pdf_length size_bytes :
  Generator.len (Generator.dummy_pdf size_bytes)
  = Z.max size_bytes (Generator.fixed_skeleton_length Generator.pdf).
Proof.
  unfold Generator.dummy_pdf, Generator.fixed_skeleton_length, Generator.len.
  cbv zeta. generalize Generator.pdf_header Generator.pdf_content. intros h c.
  rewrite !length_app, repeat_length. lia.
Qed.

Lemma dummy_xml_length rng size_bytes :
  Generator.len (Generator.dummy_xml rng size_bytes)
  = Z.max size_bytes (Generator.fixed_skeleton_length Generator.xml).
Proof.
  unfold Generator.dummy_xml, Generator.fixed_skeleton_length, Generator.len.
  cbv zeta.
  generalize Generator.xml_header Generator.xml_start Generator.xml_end.
  intros h s e.
  rewrite !length_app, encode_length, string_of_list_ascii_length,
    choices_length. lia.
Qed.

(** C1. For every requested size and each kind, the file the synthesizer
    writes holds [max size (fixed_skeleton_length kind)] bytes, and it is
    the whole skeleton of the kind around (after, for a PDF) a padding. *)
Theorem synthesizer_output_length :
  forall (k : Generator.kind) (rng : nat -> nat) (filepath : string)
         (size_bytes : Z) (fs : gmap string (list byte)),
  exists content padding : list byte,
    Generator.create_dummy k rng filepath size_bytes fs !! filepath
      = Some content
    /\ Generator.len content
       = Z.max size_bytes (Generator.fixed_skeleton_length k)
    /\ content =
       match k with
       | Generator.pdf =>
           Generator.pdf_header ++ Generator.pdf_content ++ padding
       | Generator.xml =>
           Generator.xml_header ++ Generator.xml_start ++ padding
             ++ Generator.xml_end
       end.
Proof.
  intros [|] rng filepath size_bytes fs; cbn [Generator.create_dummy].
  - eexists _, _. unfold Generator.create_dummy_pdf.
    rewrite lookup_insert_eq. split; [reflexivity|].
    split; [apply dummy_pdf_length|]. unfold Generator.dummy_pdf.
    reflexivity.
  - eexists _, _. unfold Generator.create_dummy_xml.
    rewrite lookup_insert_eq. split; [reflexivity|].
    split; [apply dummy_xml_length|]. unfold Generator.dummy_xml.
    reflexivity.
Qed.

(** ** The month-boundary resolver *)

Lemma civil_ok_bounds c :
  civil_ok c = true ->
  MINYEAR <= year c <= MAXYEAR /\ 1 <= month c <= 12.
Proof.
  unfold civil_ok. intros H.
  repeat (apply andb_prop in H as [H ?]).
  repeat match goal with
         | X : (_ <=? _) = true |- _ => apply Z.leb_le in X
         | X : (_ <? _) = true |- _ => apply Z.ltb_lt in X
         end.
  lia.
Qed.

Lemma div_first_minus_day o : (o * US_PER_DAY - US_PER_DAY) / US_PER_DAY = o - 1.
Proof.
  replace (o * US_PER_DAY - US_PER_DAY) with ((o - 1) * US_PER_DAY) by lia.
  apply Z.div_mul. discriminate.
Qed.

Lemma mod_first_minus_day o : (o * US_PER_DAY - US_PER_DAY) mod US_PER_DAY = 0.
Proof.
  replace (o * US_PER_DAY - US_PER_DAY) with ((o - 1) * US_PER_DAY) by lia.
  apply Z.mod_mul. discriminate.
Qed.

Lemma div_first_minus_us o : (o * US_PER_DAY - 1) / US_PER_DAY = o - 1.
Proof.
  symmetry. apply (Z.div_unique _ _ _ (US_PER_DAY - 1)).
  - left. unfold US_PER_DAY, US_PER_SECOND. lia.
  - lia.
Qed.

Lemma mod_first_minus_us o :
  (o * US_PER_DAY - 1) mod US_PER_DAY = US_PER_DAY - 1.
Proof.
  symmetry. apply (Z.mod_unique _ _ (o - 1)).
  - left. unfold US_PER_DAY, US_PER_SECOND. lia.
  - lia.
Qed.

Lemma to_us_first_instant y m tz :
  to_us (wall (first_instant y m tz)) = ymd2ord y m 1 * US_PER_DAY.
Proof. unfold to_us, toordinal. cbn. lia. Qed.

Lemma sub_day_first_instant y m tz :
  MINYEAR <= y <= MAXYEAR -> 1 <= m <= 12 -> ~ (y = 1 /\ m = 1) ->
  sub (first_instant y m tz) (days 1)
  = Ok {| wall := mkcivil (fst (prev_month y m)) (snd (prev_month y m))
                    (days_in_month (fst (prev_month y m)) (snd (prev_month y m)))
                    0 0 0 0;
          tzinfo := tz |}.
Proof.
  intros Hy Hm Hne.
  destruct (ymd2ord_first_bounds y m Hy Hm) as [Hb Hb2]. specialize (Hb2 Hne).
  destruct (month_facts_all y m ltac:(unfold MINYEAR in Hy; lia) Hm) as [_ Hf].
  destruct (Hf Hne) as [Hord _].
  unfold sub. rewrite to_us_first_instant.
  replace (timedelta_us (days 1)) with US_PER_DAY by reflexivity.
  cbv zeta. rewrite div_first_minus_day, mod_first_minus_day, Hord.
  replace ((0 <? ymd2ord y m 1 - 1) && (ymd2ord y m 1 - 1 <=? MAXORDINAL))
    with true by (symmetry; apply andb_true_intro; split;
                  [apply Z.ltb_lt|apply Z.leb_le]; lia).
  reflexivity.
Qed.

Lemma sub_us_first_instant y m tz :
  MINYEAR <= y <= MAXYEAR -> 1 <= m <= 12 -> ~ (y = 1 /\ m = 1) ->
  sub (first_instant y m tz) (microseconds 1)
  = Ok (last_instant (fst (prev_month y m)) (snd (prev_month y m)) tz).
Proof.
  intros Hy Hm Hne.
  destruct (ymd2ord_first_bounds y m Hy Hm) as [Hb Hb2]. specialize (Hb2 Hne).
  destruct (month_facts_all y m ltac:(unfold MINYEAR in Hy; lia) Hm) as [_ Hf].
  destruct (Hf Hne) as [Hord _].
  unfold sub. rewrite to_us_first_instant.
  replace (timedelta_us (microseconds 1)) with 1 by reflexivity.
  cbv zeta. rewrite div_first_minus_us, mod_first_minus_us, Hord.
  replace ((0 <? ymd2ord y m 1 - 1) && (ymd2ord y m 1 - 1 <=? MAXORDINAL))
    with true by (symmetry; apply andb_true_intro; split;
                  [apply Z.ltb_lt|apply Z.leb_le]; lia).
  reflexivity.
Qed.

(** Before year 1 there is no month: both subtractions overflow. *)
Lemma sub_day_first_of_all tz :
  sub (first_instant 1 1 tz) (days 1)
  = Raise (Exc OverflowError "date value out of range").
Proof. reflexivity. Qed.

(** The reference date the resolver starts from: the one given, else the
    clock. *)
Lemma resolver_unfold E self reference_date :
  Archiver.get_previous_month_range E self reference_date
  = let D := default (naive (now E)) reference_date in
    let foc := first_instant (year (wall D)) (month (wall D)) (tzinfo D) in
    last_of_previous_month ← sub foc (days 1);
    end_of_previous_month ← sub foc (microseconds 1);
    if use_s3 self then
      Ok (replace_tzinfo (replace_first_instant last_of_previous_month) utc,
          replace_tzinfo end_of_previous_month utc)
    else Ok (replace_first_instant last_of_previous_month,
             end_of_previous_month).
Proof. destruct reference_date; reflexivity. Qed.

Lemma to_us_last_instant y m tz :
  to_us (wall (last_instant y m tz))
  = ymd2ord y m (days_in_month y m) * US_PER_DAY + (US_PER_DAY - 1).
Proof.
  unfold to_us, toordinal. cbn. unfold US_PER_DAY, US_PER_SECOND. lia.
Qed.

Lemma days_in_month_pos y m : 1 <= m <= 12 -> 28 <= days_in_month y m <= 31.
Proof.
  intros Hm. unfold days_in_month.
  assert (Hm' : m = 1 \/ m = 2 \/ m = 3 \/ m = 4 \/ m = 5 \/ m = 6 \/ m = 7
                \/ m = 8 \/ m = 9 \/ m = 10 \/ m = 11 \/ m = 12) by lia.
  destruct (is_leap y);
    repeat (destruct Hm' as [->|Hm']); try subst m; cbn; lia.
Qed.

Lemma le_same_zone a b tz :
  tzinfo a = tz -> tzinfo b = tz ->
  le a b = Ok (to_us (wall a) <=? to_us (wall b)).
Proof.
  intros Ha Hb. unfold le. rewrite Ha, Hb. destruct tz; [|reflexivity].
  f_equal. apply eq_iff_eq_true. rewrite !Z.leb_le. lia.
Qed.

(** The value of the resolver away from January of year 1, and its
    failure there. *)
Lemma resolver_value E self reference_date :
  let D := default (naive (now E)) reference_date in
  let py := fst (prev_month (year (wall D)) (month (wall D))) in
  let pm := snd (prev_month (year (wall D)) (month (wall D))) in
  let tz := if use_s3 self then Some utc else tzinfo D in
  civil_ok (wall D) = true ->
  ~ (year (wall D) = 1 /\ month (wall D) = 1) ->
  Archiver.get_previous_month_range E self reference_date
  = Ok (first_instant py pm tz, last_instant py pm tz).
Proof.
  intros D py pm tz Hok Hne.
  destruct (civil_ok_bounds _ Hok) as [Hy Hm].
  rewrite resolver_unfold. fold D. cbv zeta.
  rewrite (sub_day_first_instant _ _ _ Hy Hm Hne).
  rewrite (sub_us_first_instant _ _ _ Hy Hm Hne).
  fold py pm. subst tz. destruct (use_s3 self); reflexivity.
Qed.

Lemma resolver_year_one E self reference_date :
  let D := default (naive (now E)) reference_date in
  year (wall D) = 1 -> month (wall D) = 1 ->
  Archiver.get_previous_month_range E self reference_date
  = Raise (Exc OverflowError "date value out of range").
Proof.
  intros D Hy Hm. rewrite resolver_unfold. fold D. cbv zeta.
  rewrite Hy, Hm, sub_day_first_of_all. reflexivity.
Qed.

(** C2 (amended). For every reference date whose month is not January of
    year 1, the resolver returns the first instant of day 1 of the month
    before and the last microsecond of that month: the end is one
    microsecond before the first instant of the reference month, both lie
    in the same month, and the start is not after the end. The reference
    date is the one given, else the clock; in remote mode both bounds are
    in UTC, in local mode they keep the zone of the reference date. *)
Theorem previous_month_range_correct :
  forall (E : env) (self : MonthlyArchiver) (reference_date : option datetime),
    let D := default (naive (now E)) reference_date in
    let py := fst (prev_month (year (wall D)) (month (wall D))) in
    let pm := snd (prev_month (year (wall D)) (month (wall D))) in
    let tz := if use_s3 self then Some utc else tzinfo D in
    civil_ok (wall D) = true ->
    ~ (year (wall D) = 1 /\ month (wall D) = 1) ->
    Archiver.get_previous_month_range E self reference_date
      = Ok (first_instant py pm tz, last_instant py pm tz)
    /\ to_us (wall (last_instant py pm tz)) + 1
       = to_us (wall (first_instant (year (wall D)) (month (wall D)) tz))
    /\ month (wall (first_instant py pm tz))
       = month (wall (last_instant py pm tz))
    /\ le (first_instant py pm tz) (last_instant py pm tz) = Ok true.
Proof.
  intros E self reference_date D py pm tz Hok Hne.
  destruct (civil_ok_bounds _ Hok) as [Hy Hm].
  destruct (month_facts_all (year (wall D)) (month (wall D))
              ltac:(unfold MINYEAR in Hy; lia) Hm) as [_ Hf].
  destruct (Hf Hne) as [_ Hlast]. fold py pm in Hlast.
  assert (Hpm : 1 <= pm <= 12).
  { subst pm. unfold prev_month. destruct (Z.eqb_spec (month (wall D)) 1);
      cbn [snd]; lia. }
  split; [|split; [|split]].
  - apply resolver_value; assumption.
  - rewrite to_us_last_instant, to_us_first_instant, Hlast. lia.
  - reflexivity.
  - rewrite (le_same_zone _ _ tz) by reflexivity.
    rewrite to_us_last_instant, to_us_first_instant. f_equal.
    apply Z.leb_le. pose proof (days_in_month_pos py pm Hpm).
    unfold ymd2ord, US_PER_DAY, US_PER_SECOND. lia.
Qed.

Lemma previous_month_range_correct_witness :
  Archiver.get_previous_month_range Examples.local_env Examples.local_archiver
    (Some (naive (mkcivil 2025 10 15 0 0 0 0)))
  = Ok (naive (mkcivil 2025 9 1 0 0 0 0),
        naive (mkcivil 2025 9 30 23 59 59 999999)).
Proof.
  refine (proj1 (previous_month_range_correct Examples.local_env
                   Examples.local_archiver
                   (Some (naive (mkcivil 2025 10 15 0 0 0 0))) _ _)).
  - reflexivity.
  - cbn. lia.
Defined.

(** C2, as stated, fails in January of year 1: the month before it is
    outside the range of [datetime], and the resolver raises. *)
Lemma previous_month_range_year_one :
  civil_ok (mkcivil 1 1 15 0 0 0 0) = true
  /\ Archiver.get_previous_month_range Examples.local_env
       Examples.local_archiver (Some (naive (mkcivil 1 1 15 0 0 0 0)))
     = Raise (Exc OverflowError "date value out of range").
Proof. split; reflexivity. Qed.

(** ** The remote file selector *)

Lemma le_aware a b :
  is_aware a = true -> is_aware b = true -> exists r, le a b = Ok r.
Proof.
  unfold is_aware, le. destruct (tzinfo a), (tzinfo b); try discriminate.
  intros _ _. eexists. reflexivity.
Qed.

Lemma between_aware lo x hi :
  is_aware lo = true -> is_aware x = true -> is_aware hi = true ->
  exists r, between lo x hi = Ok r.
Proof.
  intros Hlo Hx Hhi. unfold between.
  destruct (le_aware lo x Hlo Hx) as [r1 ->]. cbn.
  destruct r1; [apply le_aware; assumption|eexists; reflexivity].
Qed.

Lemma between_naive lo x hi :
  is_aware lo = false -> is_aware x = false -> is_aware hi = false ->
  exists r, between lo x hi = Ok r.
Proof.
  unfold is_aware, between, le.
  destruct (tzinfo lo), (tzinfo x), (tzinfo hi); try discriminate.
  intros _ _ _. cbn. destruct (_ <=? _); eexists; reflexivity.
Qed.

(** Whatever the [try] block settles on is an aware instant. *)
Lemma s3_file_date_aware E self obj file_date :
  Archiver.s3_file_date E self obj = Ok file_date -> is_aware file_date = true.
Proof.
  unfold Archiver.s3_file_date.
  destruct (head_object E (bucket_name self) (Key obj)) as [r|e]; cbn;
    [|discriminate].
  destruct (default ∅ (Metadata r) !! "original-timestamp"%string) as [ts|].
  - destruct (Strptime.strptime ts Strptime.fmt_timestamp); cbn;
      [|discriminate].
    intros [= <-]. reflexivity.
  - intros [= <-]. reflexivity.
Qed.

(** With aware bounds the inner loop body never raises. *)
Lemma s3_select_total E self start_date end_date obj files :
  is_aware start_date = true -> is_aware end_date = true ->
  exists b : bool,
    Archiver.s3_select E self start_date end_date obj files
    = Ok (if b then files ++ [Key obj] else files).
Proof.
  intros Hs He. unfold Archiver.s3_select.
  destruct (between_aware start_date (obj_LastModified obj) end_date
              Hs eq_refl He) as [bl Hbl].
  destruct (Archiver.s3_file_date E self obj) as [fd|e] eqn:Hfd; cbn.
  - destruct (between_aware start_date fd end_date Hs
                (s3_file_date_aware _ _ _ _ Hfd) He) as [b ->]. cbn.
    exists b. reflexivity.
  - rewrite Hbl. cbn. exists bl. reflexivity.
Qed.

Lemma s3_contents_loop_total E self start_date end_date contents :
  is_aware start_date = true -> is_aware end_date = true ->
  forall files, exists out,
    Archiver.s3_contents_loop E self start_date end_date contents files = Ok out.
Proof.
  intros Hs He. induction contents as [|obj rest IH]; intros files; cbn.
  - eexists. reflexivity.
  - destruct (s3_select_total E self start_date end_date obj files Hs He)
      as [b ->]. cbn. apply IH.
Qed.

Lemma s3_select_decision E self start_date end_date obj files :
  is_aware start_date = true -> is_aware end_date = true ->
  Archiver.s3_select E self start_date end_date obj files
  = Ok (if Selection.within start_date
             (Selection.effective_timestamp E self obj) end_date
        then files ++ [Key obj] else files).
Proof.
  intros Hs He. unfold Archiver.s3_select, Selection.within,
    Selection.effective_timestamp.
  destruct (Archiver.s3_file_date E self obj) as [fd|e] eqn:Hfd; cbn.
  - destruct (between_aware start_date fd end_date Hs
                (s3_file_date_aware _ _ _ _ Hfd) He) as [b ->]. reflexivity.
  - destruct (between_aware start_date (obj_LastModified obj) end_date
                Hs eq_refl He) as [b ->]. reflexivity.
Qed.

Lemma s3_contents_loop_filter E self start_date end_date contents :
  is_aware start_date = true -> is_aware end_date = true ->
  forall files,
    Archiver.s3_contents_loop E self start_date end_date contents files
    = Ok (files ++ map Key
            (List.filter
               (fun obj => Selection.within start_date
                             (Selection.effective_timestamp E self obj)
                             end_date) contents)).
Proof.
  intros Hs He. induction contents as [|obj rest IH]; intros files.
  - cbn. now rewrite app_nil_r.
  - cbn [Archiver.s3_contents_loop List.filter].
    rewrite (s3_select_decision _ _ _ _ _ _ Hs He). cbn.
    destruct (Selection.within _ _ _); rewrite IH; [|reflexivity].
    cbn. now rewrite <- app_assoc.
Qed.

Lemma remote_selection_is_a_filter_aux :
  forall (E : env) (self : MonthlyArchiver) (prefix : string)
         (start_date end_date : datetime),
    is_aware start_date = true ->
    is_aware end_date = true ->
    Forall (fun page => is_ok page = true)
           (paginate E (bucket_name self) prefix) ->
    Archiver.list_s3_files E self prefix start_date end_date
    = Ok (map Key
            (List.filter
               (fun obj => Selection.within start_date
                             (Selection.effective_timestamp E self obj)
                             end_date)
               (Selection.page_objects
                  (paginate E (bucket_name self) prefix)))).
Proof.
  intros E self prefix start_date end_date Hs He Hpages.
  unfold Archiver.list_s3_files.
  change (map Key (List.filter _ (Selection.page_objects ?p)))
    with ([] ++ map Key
            (List.filter
               (fun obj => Selection.within start_date
                             (Selection.effective_timestamp E self obj)
                             end_date) (Selection.page_objects p))).
  generalize (@nil string) as files.
  induction Hpages as [|page pages Hpage _ IH]; intros files.
  - cbn. now rewrite app_nil_r.
  - destruct page as [[contents|]|e]; [| |discriminate Hpage].
    + cbn [Archiver.s3_pages_loop Selection.page_objects flat_map].
      rewrite (s3_contents_loop_filter _ _ _ _ _ Hs He). cbn.
      rewrite IH. unfold Selection.page_objects.
      rewrite List.filter_app, map_app, app_assoc. reflexivity.
    + cbn [Archiver.s3_pages_loop Selection.page_objects flat_map].
      rewrite IH. reflexivity.
Qed.

Lemma kept_split E self start_date end_date before obj after :
  Selection.kept E self start_date end_date (before ++ obj :: after)
  = Selection.kept E self start_date end_date before
    ++ (if Selection.within start_date
             (Selection.effective_timestamp E self obj) end_date
        then [Key obj] else [])
    ++ Selection.kept E self start_date end_date after.
Proof.
  unfold Selection.kept. rewrite List.filter_app, map_app.
  cbn [List.filter]. destruct (Selection.within _ _ _); reflexivity.
Qed.

(** C3. With the aware bounds of remote mode, in a listing whose pages
    all arrive, an object whose metadata holds a timestamp that parses is
    among the keys [list_s3_files] returns, at its place in the listing,
    exactly when that timestamp, labelled UTC, lies between the bounds: its
    [LastModified] plays no part, whatever it is. *)
Theorem metadata_timestamp_decides :
  forall (E : env) (self : MonthlyArchiver) (prefix : string)
         (start_date end_date : datetime) (before after : list S3Object)
         (obj : S3Object) (response : head_response)
         (timestamp_str : string) (file_date : datetime),
    is_aware start_date = true ->
    is_aware end_date = true ->
    Forall (fun page => is_ok page = true)
           (paginate E (bucket_name self) prefix) ->
    Selection.page_objects (paginate E (bucket_name self) prefix)
      = before ++ obj :: after ->
    head_object E (bucket_name self) (Key obj) = Ok response ->
    default ∅ (Metadata response) !! "original-timestamp"%string
      = Some timestamp_str ->
    Strptime.strptime timestamp_str Strptime.fmt_timestamp = Ok file_date ->
    exists b : bool,
      between start_date (replace_tzinfo file_date utc) end_date = Ok b
      /\ Archiver.list_s3_files E self prefix start_date end_date
         = Ok (Selection.kept E self start_date end_date before
               ++ (if b then [Key obj] else [])
               ++ Selection.kept E self start_date end_date after)
      /\ forall (last_modified : civil) (files : list string),
           Archiver.s3_select E self start_date end_date
             (mkS3Object (Key obj) last_modified) files
           = Ok (if b then files ++ [Key obj] else files).
Proof.
  intros E self prefix start_date end_date before after obj response ts fd
    Hs He Hpages Hobjs Hhead Hmd Hp.
  destruct (between_aware start_date (replace_tzinfo fd utc) end_date
              Hs eq_refl He) as [b Hb].
  exists b. split; [exact Hb|]. split.
  - rewrite (remote_selection_is_a_filter_aux E self prefix start_date
               end_date Hs He Hpages), Hobjs.
    fold (Selection.kept E self start_date end_date (before ++ obj :: after)).
    rewrite kept_split. do 3 f_equal.
    unfold Selection.within, Selection.effective_timestamp,
      Archiver.s3_file_date.
    rewrite Hhead. cbn. rewrite Hmd, Hp. cbn. rewrite Hb. reflexivity.
  - intros lm files. unfold Archiver.s3_select, Archiver.s3_file_date.
    cbn [Key]. rewrite Hhead. cbn. rewrite Hmd, Hp. cbn. rewrite Hb.
    reflexivity.
Qed.

Lemma metadata_timestamp_decides_witness :
  Archiver.list_s3_files Examples.s3_env Examples.s3_archiver "Opening/"
    Examples.september_start Examples.september_end
  = Ok ["Opening/TXN1/IDD.pdf"; "Opening/TXN2/IDD.pdf";
        "Opening/TXN3/IDD.pdf"; "Opening/TXN4/IDD.pdf"]%string
  /\ between Examples.september_start
       (obj_LastModified Examples.stamped) Examples.september_end = Ok false.
Proof.
  split; [|reflexivity].
  destruct (metadata_timestamp_decides Examples.s3_env Examples.s3_archiver
              "Opening/" Examples.september_start Examples.september_end
              []
              [Examples.unstamped; Examples.garbled; Examples.unreachable;
               Examples.restamped]
              Examples.stamped (Examples.stamp "2025-09-05T10:00:00")
              "2025-09-05T10:00:00"
              (naive (mkcivil 2025 9 5 10 0 0 0))
              eq_refl eq_refl ltac:(repeat constructor)
              eq_refl eq_refl eq_refl eq_refl) as [b [Hb [Hlist _]]].
  rewrite Hlist. vm_compute in Hb. injection Hb as <-. reflexivity.
Defined.

Lemma s3_select_fallback E self start_date end_date obj files :
  (forall file_date, Archiver.s3_file_date E self obj = Ok file_date ->
                     file_date = obj_LastModified obj) ->
  is_aware start_date = true -> is_aware end_date = true ->
  exists b : bool,
    between start_date (obj_LastModified obj) end_date = Ok b
    /\ Archiver.s3_select E self start_date end_date obj files
       = Ok (if b then files ++ [Key obj] else files).
Proof.
  intros Hfd Hs He.
  destruct (between_aware start_date (obj_LastModified obj) end_date
              Hs eq_refl He) as [b Hb].
  exists b. split; [exact Hb|]. unfold Archiver.s3_select.
  destruct (Archiver.s3_file_date E self obj) as [fd|e]; cbn.
  - rewrite (Hfd fd eq_refl), Hb. reflexivity.
  - rewrite Hb. reflexivity.
Qed.

(** C4. With the aware bounds of remote mode, in a listing whose pages
    all arrive: when the metadata of an object cannot be fetched, or holds
    no [original-timestamp], or holds one that does not parse,
    [list_s3_files] does not raise; it returns what it keeps of the objects
    before, then the key of that object exactly when its [LastModified]
    lies between the bounds, then what it keeps of the objects after. *)
Theorem unusable_metadata_falls_back :
  forall (E : env) (self : MonthlyArchiver) (prefix : string)
         (start_date end_date : datetime) (before after : list S3Object)
         (obj : S3Object),
    is_aware start_date = true ->
    is_aware end_date = true ->
    Forall (fun page => is_ok page = true)
           (paginate E (bucket_name self) prefix) ->
    Selection.page_objects (paginate E (bucket_name self) prefix)
      = before ++ obj :: after ->
    ((exists e, head_object E (bucket_name self) (Key obj) = Raise e)
     \/ (exists response,
           head_object E (bucket_name self) (Key obj) = Ok response
           /\ default ∅ (Metadata response) !! "original-timestamp"%string
              = None)
     \/ (exists response timestamp_str e,
           head_object E (bucket_name self) (Key obj) = Ok response
           /\ default ∅ (Metadata response) !! "original-timestamp"%string
              = Some timestamp_str
           /\ Strptime.strptime timestamp_str Strptime.fmt_timestamp
              = Raise e)) ->
    exists b : bool,
      between start_date (obj_LastModified obj) end_date = Ok b
      /\ Archiver.list_s3_files E self prefix start_date end_date
         = Ok (Selection.kept E self start_date end_date before
               ++ (if b then [Key obj] else [])
               ++ Selection.kept E self start_date end_date after)
      /\ forall files : list string,
           Archiver.s3_select E self start_date end_date obj files
           = Ok (if b then files ++ [Key obj] else files).
Proof.
  intros E self prefix start_date end_date before after obj Hs He Hpages
    Hobjs Hcase.
  assert (Hfd : forall fd, Archiver.s3_file_date E self obj = Ok fd ->
                           fd = obj_LastModified obj).
  { intros fd. unfold Archiver.s3_file_date.
    destruct Hcase as [[e ->]|[[r [-> Hmd]]|[r [ts [e [-> [Hmd Hp]]]]]]]; cbn.
    - discriminate.
    - rewrite Hmd. congruence.
    - rewrite Hmd, Hp. cbn. discriminate. }
  destruct (between_aware start_date (obj_LastModified obj) end_date
              Hs eq_refl He) as [b Hb].
  exists b. split; [exact Hb|]. split.
  - rewrite (remote_selection_is_a_filter_aux E self prefix start_date
               end_date Hs He Hpages), Hobjs.
    fold (Selection.kept E self start_date end_date (before ++ obj :: after)).
    rewrite kept_split. do 3 f_equal.
    unfold Selection.within, Selection.effective_timestamp.
    destruct (Archiver.s3_file_date E self obj) as [fd|e] eqn:Hdate.
    + rewrite (Hfd fd eq_refl), Hb. reflexivity.
    + rewrite Hb. reflexivity.
  - intros files.
    destruct (s3_select_fallback E self start_date end_date obj files
                Hfd Hs He) as [b' [Hb' Hsel]].
    rewrite Hb in Hb'. injection Hb' as <-. exact Hsel.
Qed.

Lemma unusable_metadata_falls_back_witness :
  Archiver.list_s3_files Examples.s3_env Examples.s3_archiver "Opening/"
    Examples.september_start Examples.september_end
  = Ok ["Opening/TXN1/IDD.pdf"; "Opening/TXN2/IDD.pdf";
        "Opening/TXN3/IDD.pdf"; "Opening/TXN4/IDD.pdf"]%string
  /\ head_object Examples.s3_env "transaction-documents"
       "Opening/TXN4/IDD.pdf" = Raise Examples.not_found.
Proof.
  split; [|reflexivity].
  destruct (unusable_metadata_falls_back Examples.s3_env Examples.s3_archiver
              "Opening/" Examples.september_start Examples.september_end
              [Examples.stamped; Examples.unstamped; Examples.garbled]
              [Examples.restamped] Examples.unreachable
              eq_refl eq_refl ltac:(repeat constructor) eq_refl
              (or_introl (ex_intro _ Examples.not_found eq_refl)))
    as [b [Hb [Hlist _]]].
  rewrite Hlist. vm_compute in Hb. injection Hb as <-. reflexivity.
Defined.

(** ** The local file selector *)


(** C9. When the folder does not exist under the data directory, the local
    selector returns the empty list, for every interval: the same answer as
    for a folder that exists and holds nothing. *)
Theorem absent_folder_selects_nothing :
  forall (E : env) (self : MonthlyArchiver) (data_dir folder_name : string)
         (start_date end_date : datetime),
    local_data_dir self = Some data_dir ->
    path_exists E (path_join data_dir folder_name) = false ->
    Archiver.list_local_files E self folder_name start_date end_date = Ok []
    /\ forall E' : env,
         path_exists E' (path_join data_dir folder_name) = true ->
         rglob E' (path_join data_dir folder_name) = [] ->
         Archiver.list_local_files E' self folder_name start_date end_date
         = Archiver.list_local_files E self folder_name start_date end_date.
Proof.
  intros E self data_dir folder_name start_date end_date Hdir Hno.
  unfold Archiver.list_local_files. rewrite Hdir, Hno. cbn.
  split; [reflexivity|]. intros E' Hyes Hempty. rewrite Hyes, Hempty.
  reflexivity.
Qed.

Lemma absent_folder_selects_nothing_witness :
  Archiver.list_local_files Examples.local_env Examples.local_archiver
    "Customer" (naive (mkcivil 2025 9 1 0 0 0 0))
    (naive (mkcivil 2025 9 30 23 59 59 999999)) = Ok [].
Proof.
  refine (proj1 (absent_folder_selects_nothing Examples.local_env
                   Examples.local_archiver "data" "Customer" _ _ _ _));
    reflexivity.
Defined.

(** ** The comparison domain *)

Lemma sub_tzinfo d t d' : sub d t = Ok d' -> tzinfo d' = tzinfo d.
Proof.
  unfold sub. cbv zeta. destruct (_ && _); [|discriminate].
  destruct (ord2ymd _) as [[y m] dd]. intros [= <-]. reflexivity.
Qed.


(** The zone of the bounds: UTC in remote mode, that of the reference date
    (the clock is naive) in local mode. *)
Lemma resolver_zone E self reference_date start_date end_date :
  Archiver.get_previous_month_range E self reference_date
    = Ok (start_date, end_date) ->
  let tz := if use_s3 self then Some utc
            else tzinfo (default (naive (now E)) reference_date) in
  tzinfo start_date = tz /\ tzinfo end_date = tz.
Proof.
  rewrite resolver_unfold. cbv zeta.
  set (foc := first_instant _ _ _).
  destruct (sub foc (days 1)) as [l|] eqn:Hl; cbn; [|discriminate].
  destruct (sub foc (microseconds 1)) as [e|] eqn:He; cbn; [|discriminate].
  apply sub_tzinfo in He, Hl.
  destruct (use_s3 self); intros [= <- <-]; split; try reflexivity.
  - exact Hl.
  - exact He.
Qed.

Lemma remote_bounds_aware E self reference_date start_date end_date :
  use_s3 self = true ->
  Archiver.get_previous_month_range E self reference_date
    = Ok (start_date, end_date) ->
  is_aware start_date = true /\ is_aware end_date = true.
Proof.
  intros Hs3 Hr. destruct (resolver_zone _ _ _ _ _ Hr) as [Hs He].
  cbv zeta in Hs, He. rewrite Hs3 in Hs, He. unfold is_aware.
  rewrite Hs, He. split; reflexivity.
Qed.




(** ** Paths *)

Lemma append_cons c a b :
  String.append (String c a) b = String c (String.append a b).
Proof. reflexivity. Qed.

Lemma append_empty b : String.append EmptyString b = b.
Proof. reflexivity. Qed.

Lemma no_slash_append a b :
  Effects.no_slash (String.append a b)
  = Effects.no_slash a && Effects.no_slash b.
Proof.
  induction a as [|c a IH]; [reflexivity|].
  rewrite append_cons. cbn [Effects.no_slash]. rewrite IH.
  now rewrite andb_assoc.
Qed.




Lemma split_segments s :
  Forall (fun x => Effects.no_slash x = true) (Posix.split s).
Proof.
  induction s as [|c s IH]; cbn [Posix.split].
  - repeat constructor.
  - destruct (Posix.is_sep c) eqn:Hc.
    + constructor; [reflexivity|exact IH].
    + destruct (Posix.split s) as [|x xs]; inversion IH; subst;
        constructor; try constructor.
      * cbn. unfold Posix.is_sep in Hc. now rewrite Hc.
      * cbn. unfold Posix.is_sep in Hc. now rewrite Hc.
      * assumption.
Qed.

Lemma split_no_slash s : Effects.no_slash s = true -> Posix.split s = [s].
Proof.
  induction s as [|c s IH]; [reflexivity|]. cbn.
  intros H. apply andb_prop in H as [Hc Hs]. unfold Posix.is_sep.
  apply negb_true_iff in Hc. rewrite Hc, (IH Hs). reflexivity.
Qed.

Lemma split_append a b :
  Effects.no_slash a = true ->
  Posix.split (String.append a (String "/" b)) = a :: Posix.split b.
Proof.
  induction a as [|c a IH]; intros H.
  - reflexivity.
  - cbn in H. apply andb_prop in H as [Hc Ha]. apply negb_true_iff in Hc.
    rewrite append_cons. cbn [Posix.split]. unfold Posix.is_sep at 1.
    rewrite Hc, (IH Ha). reflexivity.
Qed.

Lemma split_join parts :
  parts <> [] ->
  Forall (fun x => Effects.no_slash x = true) parts ->
  Posix.split (Posix.join parts) = parts.
Proof.
  induction parts as [|x xs IH]; [congruence|]. intros _ H.
  inversion H as [|? ? Hx Hxs]; subst. cbn [Posix.join].
  destruct xs as [|y ys].
  - apply split_no_slash, Hx.
  - rewrite (split_append _ _ Hx), IH; [reflexivity|discriminate|exact Hxs].
Qed.

Lemma filter_keep_segments s :
  Forall (fun x => Effects.part_ok x = true) (List.filter Pathlib.keep (Posix.split s)).
Proof.
  pose proof (split_segments s) as H.
  induction H as [|x xs Hx _ IH]; cbn; [constructor|].
  destruct (Pathlib.keep x) eqn:Hk; [|exact IH].
  constructor; [|exact IH]. unfold Effects.part_ok. now rewrite Hk, Hx.
Qed.

Lemma Path_ok s : Effects.path_ok (Pathlib.Path s).
Proof.
  unfold Pathlib.Path, Pathlib.splitroot.
  destruct (String.prefix "/" s).
  - destruct (Nat.eqb _ 2); split; cbn; auto using filter_keep_segments.
  - split; cbn; auto using filter_keep_segments.
Qed.

Lemma prefix_slash s :
  String.prefix "/" s
  = match s with String c _ => Posix.is_sep c | EmptyString => false end.
Proof.
  destruct s as [|c s]; [reflexivity|].
  change (String.prefix "/" (String c s))
    with (if ascii_dec "/" c then String.prefix EmptyString s else false).
  unfold Posix.is_sep. destruct (ascii_dec "/" c) as [<-|Hne].
  - destruct s; reflexivity.
  - symmetry. apply Ascii.eqb_neq. congruence.
Qed.

(** A name is one part of its own. *)
Lemma Path_name name :
  Effects.part_ok name = true -> Pathlib.Path name = Pathlib.mkpath EmptyString [name].
Proof.
  unfold Effects.part_ok. intros H. apply andb_prop in H as [Hk Hs].
  unfold Pathlib.Path, Pathlib.splitroot. rewrite prefix_slash.
  destruct name as [|c name].
  - discriminate Hk.
  - cbn in Hs. apply andb_prop in Hs as [Hc Hs']. unfold Posix.is_sep.
    apply negb_true_iff in Hc. rewrite Hc.
    rewrite split_no_slash by (cbn; now rewrite Hc, Hs').
    cbn [List.filter]. now rewrite Hk.
Qed.

Lemma filter_keep_ok parts :
  Forall (fun x => Effects.part_ok x = true) parts -> List.filter Pathlib.keep parts = parts.
Proof.
  induction 1 as [|x xs Hx _ IH]; [reflexivity|]. cbn.
  unfold Effects.part_ok in Hx. apply andb_prop in Hx as [-> _]. now rewrite IH.
Qed.

Lemma parts_no_slash parts :
  Forall (fun x => Effects.part_ok x = true) parts ->
  Forall (fun x => Effects.no_slash x = true) parts.
Proof.
  intros H. eapply Forall_impl; [exact H|]. intros x Hx. cbv beta in Hx.
  unfold Effects.part_ok in Hx. now apply andb_prop in Hx as [_ ?].
Qed.

(** The text of joined parts starts with a character that is no slash. *)
Lemma join_head x xs :
  Effects.part_ok x = true ->
  exists c rest, Posix.join (x :: xs) = String c rest /\ Posix.is_sep c = false.
Proof.
  unfold Effects.part_ok. intros H. apply andb_prop in H as [Hk Hs].
  destruct x as [|c x]; [discriminate Hk|].
  cbn in Hs. apply andb_prop in Hs as [Hc _]. apply negb_true_iff in Hc.
  cbn [Posix.join]. destruct xs.
  - exists c, x. split; [reflexivity|exact Hc].
  - rewrite append_cons. eexists c, _. split; [reflexivity|exact Hc].
Qed.

Lemma is_sep_slash : Posix.is_sep "/" = true.
Proof. reflexivity. Qed.

(** [Path(str(p)) == p] *)
Lemma Path_str p :
  Effects.path_ok p -> Pathlib.parts p <> [] -> Pathlib.Path (Pathlib.str p) = p.
Proof.
  destruct p as [r parts]. intros [Hroot Hparts] Hne. cbn in *.
  unfold Pathlib.str. cbn [Pathlib.parts Pathlib.root].
  destruct parts as [|x xs]; [congruence|].
  inversion Hparts as [|? ? Hx Hxs]; subst.
  destruct (join_head x xs Hx) as (c & rest & Hj & Hc).
  assert (Hsplit : List.filter Pathlib.keep (Posix.split (Posix.join (x :: xs)))
                   = x :: xs).
  { rewrite split_join; [|discriminate|apply parts_no_slash, Hparts].
    apply filter_keep_ok, Hparts. }
  unfold Pathlib.Path, Pathlib.splitroot.
  destruct Hroot as [-> | [-> | ->]].
  - rewrite append_empty, prefix_slash, Hj, Hc, <- Hj, Hsplit. reflexivity.
  - change (String.append "/" ?j) with (String "/" j).
    rewrite prefix_slash, is_sep_slash. cbn [Posix.lstrip].
    rewrite is_sep_slash, Hj. cbn [Posix.lstrip]. rewrite Hc.
    replace (String.length (String "/" (String c rest))
             - String.length (String c rest))%nat with 1%nat
      by (cbn [String.length]; lia).
    cbn [Nat.eqb]. rewrite <- Hj, Hsplit. reflexivity.
  - change (String.append "//" ?j) with (String "/" (String "/" j)).
    rewrite prefix_slash, is_sep_slash. cbn [Posix.lstrip].
    rewrite !is_sep_slash, Hj. cbn [Posix.lstrip]. rewrite Hc.
    replace (String.length (String "/" (String "/" (String c rest)))
             - String.length (String c rest))%nat with 2%nat
      by (cbn [String.length]; lia).
    cbn [Nat.eqb]. rewrite <- Hj, Hsplit. reflexivity.
Qed.

(** The path made by joining a directory and a name. *)
Lemma truediv_name d name :
  Effects.part_ok name = true ->
  Pathlib.truediv (Pathlib.Path d) name
  = Pathlib.mkpath (Pathlib.root (Pathlib.Path d))
      (Pathlib.parts (Pathlib.Path d) ++ [name]).
Proof.
  intros H. unfold Pathlib.truediv. rewrite (Path_name _ H). reflexivity.
Qed.

Lemma Path_path_join d name :
  Effects.part_ok name = true ->
  Pathlib.Path (path_join d name)
  = Pathlib.mkpath (Pathlib.root (Pathlib.Path d))
      (Pathlib.parts (Pathlib.Path d) ++ [name]).
Proof.
  intros H. unfold path_join. rewrite (truediv_name _ _ H).
  apply Path_str.
  - destruct (Path_ok d) as [Hr Hp]. split; [exact Hr|]. cbn.
    apply Forall_app. split; [exact Hp|]. repeat constructor. exact H.
  - cbn. destruct (Pathlib.parts (Pathlib.Path d)); discriminate.
Qed.

(** The file name of a path made by joining a directory and a name. *)
Lemma path_name_join d name :
  Effects.part_ok name = true -> Archiver.path_name (path_join d name) = name.
Proof.
  intros H. unfold Archiver.path_name. rewrite (Path_path_join _ _ H).
  unfold Pathlib.name. cbn. apply List.last_last.
Qed.

Lemma truthy_path_join d name :
  Effects.part_ok name = true -> truthy (Some (path_join d name)) = true.
Proof.
  intros H. cbn. destruct (String.eqb _ _) eqn:Heq; [|reflexivity].
  apply String.eqb_eq in Heq.
  pose proof (path_name_join d name H) as Hn. rewrite Heq in Hn.
  cbn in Hn. subst name. discriminate H.
Qed.

Lemma path_join_inj d a b :
  Effects.part_ok a = true -> Effects.part_ok b = true ->
  path_join d a = path_join d b -> a = b.
Proof.
  intros Ha Hb H. rewrite <- (path_name_join d a Ha), <- (path_name_join d b Hb).
  now rewrite H.
Qed.

Lemma digit_no_slash n : Ascii.eqb (digit n) "/" = false.
Proof.
  unfold digit. pose proof (Z.mod_pos_bound n 10 ltac:(lia)) as Hb.
  assert (Hk : (Z.to_nat (n mod 10) < 10)%nat) by lia.
  generalize dependent (Z.to_nat (n mod 10)). intros k Hk.
  do 10 (destruct k as [|k]; [reflexivity|]). lia.
Qed.

Lemma no_slash_zero_padded width n :
  Effects.no_slash (zero_padded width n) = true.
Proof.
  revert n. induction width as [|w IH]; intros n; cbn; [reflexivity|].
  rewrite no_slash_append, IH. cbn. now rewrite digit_no_slash.
Qed.

Lemma no_slash_decimal fuel n : Effects.no_slash (decimal fuel n) = true.
Proof.
  revert n. induction fuel as [|fuel IH]; intros n; cbn [decimal];
    [reflexivity|].
  destruct (n <? 10).
  - cbn. now rewrite digit_no_slash.
  - rewrite no_slash_append, IH. cbn. now rewrite digit_no_slash.
Qed.

Lemma no_slash_str_int n : Effects.no_slash (str_int n) = true.
Proof.
  unfold str_int. destruct (n <? 0).
  - cbn [Effects.no_slash]. now rewrite no_slash_decimal.
  - apply no_slash_decimal.
Qed.

Lemma no_slash_month start_date :
  Effects.no_slash (strftime_Y_m start_date) = true.
Proof.
  unfold strftime_Y_m.
  rewrite !no_slash_append, no_slash_str_int, no_slash_zero_padded.
  reflexivity.
Qed.

(** The names of the two archives are names. *)
Lemma zip_name_ok folder month_str :
  folder = "Opening"%string \/ folder = "Customer"%string ->
  Effects.no_slash month_str = true ->
  Effects.part_ok (Archiver.zip_name folder month_str) = true.
Proof.
  intros Hf Hm. unfold Effects.part_ok, Archiver.zip_name.
  rewrite !no_slash_append, Hm.
  destruct Hf as [-> | ->]; reflexivity.
Qed.

Lemma zip_paths_differ d month_str :
  Effects.no_slash month_str = true ->
  path_join d (Archiver.zip_name "Opening" month_str)
  <> path_join d (Archiver.zip_name "Customer" month_str).
Proof.
  intros Hm H. apply path_join_inj in H.
  - discriminate H.
  - apply zip_name_ok; auto.
  - apply zip_name_ok; auto.
Qed.

(** *** Names in normal form *)




(** *** The tree of the run *)




(** *** Numbers in names *)

Lemma append_length a b :
  String.length (String.append a b) = (String.length a + String.length b)%nat.
Proof.
  induction a as [|c a IH]; [reflexivity|].
  change (String.append (String c a) b) with (String c (String.append a b)).
  cbn [String.length]. now rewrite IH.
Qed.

(** [str(n)] of a number of [k + 1] digits is its zero-padded rendering. *)
Lemma decimal_zero_padded k :
  forall fuel n,
    10 ^ Z.of_nat k <= n < 10 ^ Z.of_nat (S k) -> (k < fuel)%nat ->
    decimal fuel n = zero_padded (S k) n.
Proof.
  induction k as [|k IH]; intros fuel n Hn Hfuel.
  - destruct fuel as [|fuel]; [lia|]. cbn [decimal].
    change (10 ^ Z.of_nat 1) with 10 in Hn.
    destruct (Z.ltb_spec n 10); [reflexivity|lia].
  - destruct fuel as [|fuel]; [lia|]. cbn [decimal].
    rewrite !Nat2Z.inj_succ, !Z.pow_succ_r in Hn by lia.
    assert (Hpos : 0 < 10 ^ Z.of_nat k) by (apply Z.pow_pos_nonneg; lia).
    destruct (Z.ltb_spec n 10); [lia|].
    rewrite (IH fuel (n / 10)); [reflexivity| |lia].
    rewrite Nat2Z.inj_succ, Z.pow_succ_r by lia.
    split.
    + apply Z.div_le_lower_bound; lia.
    + apply Z.div_lt_upper_bound; lia.
Qed.

Lemma str_int_six_digits n :
  100000 <= n <= 999999 -> str_int n = zero_padded 6 n.
Proof.
  intros Hn. unfold str_int.
  destruct (Z.ltb_spec n 0); [lia|].
  apply (decimal_zero_padded 5); [cbn; lia|].
  pose proof (Z.log2_le_mono 100000 n ltac:(lia)) as Hlog.
  change (Z.log2 100000) with 16 in Hlog. lia.
Qed.


Lemma rmtree_empty dir : Fs.rmtree dir ∅ = ∅.
Proof.
  unfold Fs.rmtree. rewrite map_filter_empty. apply delete_empty.
Qed.

(** ** The archive assembler *)

Lemma state_eta st :
  mkstate (zips st) (dirs st) (temp st) (uploads st) (stderr st) = st.
Proof. destruct st. reflexivity. Qed.

Lemma bind_unfold {A B} (m : M A) (k : A -> M B) st :
  (m ≫= k) st
  = match m st with
    | (Ok a, st') => k a st'
    | (Raise e, st') => (Raise e, st')
    end.
Proof. reflexivity. Qed.

Lemma for_each_cons {A} (x : A) xs body st :
  for_each (x :: xs) body st
  = match body x st with
    | (Ok _, st') => for_each xs body st'
    | (Raise e, st') => (Raise e, st')
    end.
Proof. reflexivity. Qed.

(** [zipf.write] adds the member its plan says. *)
Lemma zip_write_plan E zip_path local_file arcname st acc :
  zips st !! zip_path = Some acc ->
  Archiver.zip_write E zip_path local_file arcname st
  = match Plan.stored E (temp st) local_file arcname with
    | Ok m =>
        (Ok tt,
         mkstate (<[zip_path := acc ++ [m]]> (zips st)) (dirs st) (temp st)
           (uploads st) (stderr st))
    | Raise e => (Raise e, st)
    end.
Proof.
  intros Hacc. unfold Archiver.zip_write, Plan.stored.
  rewrite bind_unfold. unfold tree_op at 1.
  destruct (Fs.stat E local_file (temp st)) as [s|e]; cbn [mbind result_bind];
    [|now rewrite state_eta].
  rewrite state_eta, bind_unfold. unfold tree_op.
  destruct (Zipfile.member s _ arcname) as [m|e]; [|now rewrite state_eta].
  rewrite state_eta. unfold set_zips. rewrite Hacc. reflexivity.
Qed.

(** One pass of the loop of [create_zip_archive] on a file. *)
Lemma zip_member_step E self zip_path temp_dir file_key st acc :
  zips st !! zip_path = Some acc ->
  (local_file ←
     (if use_s3 self then
        let local_file :=
          Pathlib.truediv (Pathlib.Path temp_dir) file_key in
        _ ← Archiver.download_s3_file E self file_key local_file;
        mret local_file
      else
        match local_data_dir self with
        | Some data_dir =>
            mret (Pathlib.truediv (Pathlib.Path data_dir) file_key)
        | None =>
            lift (Raise (Exc TypeError "unsupported operand type(s) for /"))
        end);
   Archiver.zip_write E zip_path (Pathlib.str local_file) file_key) st
  = match Plan.member E self temp_dir (temp st) file_key with
    | (Ok m, t') =>
        (Ok tt,
         mkstate (<[zip_path := acc ++ [m]]> (zips st)) (dirs st) t'
           (uploads st) (stderr st))
    | (Raise e, t') =>
        (Raise e, mkstate (zips st) (dirs st) t' (uploads st) (stderr st))
    end.
Proof.
  intros Hacc. unfold Plan.member. rewrite bind_unfold.
  destruct (use_s3 self).
  - cbv zeta. rewrite bind_unfold. unfold Archiver.download_s3_file.
    rewrite bind_unfold. unfold tree_op at 1.
    destruct (Fs.mkdir E _ (temp st)) as [[[]|e] t1]; [|reflexivity].
    rewrite bind_unfold. unfold lift at 1.
    destruct (download_file E (bucket_name self) file_key) as [content|e];
      [|reflexivity].
    unfold tree_op. cbn [temp zips dirs uploads stderr].
    destruct (Fs.write E _ content t1) as [[[]|e] t2]; [|reflexivity].
    unfold mret, M_ret.
    rewrite (zip_write_plan E zip_path _ file_key _ acc) by exact Hacc.
    cbn [temp zips dirs uploads stderr].
    destruct (Plan.stored E t2 _ file_key); reflexivity.
  - destruct (local_data_dir self) as [data_dir|].
    + unfold mret, M_ret.
      rewrite (zip_write_plan E zip_path _ file_key _ acc) by exact Hacc.
      unfold path_join.
      destruct (Plan.stored E (temp st) _ file_key);
        now rewrite ?state_eta.
    + unfold lift. now rewrite state_eta.
Qed.

(** The loop of [create_zip_archive]: the members of the plan are appended
    to the archive, and the loop ends as the plan does. *)
Lemma zip_loop_plan E self zip_path temp_dir files :
  forall st acc,
    zips st !! zip_path = Some acc ->
    for_each files (fun file_key =>
        local_file ←
          (if use_s3 self then
             let local_file :=
               Pathlib.truediv (Pathlib.Path temp_dir) file_key in
             _ ← Archiver.download_s3_file E self file_key local_file;
             mret local_file
           else
             match local_data_dir self with
             | Some data_dir =>
                 mret (Pathlib.truediv (Pathlib.Path data_dir) file_key)
             | None =>
                 lift (Raise (Exc TypeError
                                "unsupported operand type(s) for /"))
             end);
        Archiver.zip_write E zip_path (Pathlib.str local_file) file_key) st
    = (Plan.outcome
         (snd (fst (Plan.members E self temp_dir (temp st) files))) tt,
       mkstate
         (<[zip_path :=
              acc ++ fst (fst (Plan.members E self temp_dir (temp st) files))]>
            (zips st))
         (dirs st)
         (snd (Plan.members E self temp_dir (temp st) files))
         (uploads st) (stderr st)).
Proof.
  induction files as [|f rest IH]; intros st acc Hacc.
  - cbn. now rewrite app_nil_r, (insert_id _ _ _ Hacc), state_eta.
  - rewrite for_each_cons.
    pose proof (zip_member_step E self zip_path temp_dir f st acc Hacc)
      as Hstep.
    cbv zeta in Hstep. cbv beta zeta. rewrite Hstep. clear Hstep.
    cbn [Plan.members].
    destruct (Plan.member E self temp_dir (temp st) f) as [[m|e] t1].
    + set (st1 := mkstate _ _ t1 _ _).
      pose proof (IH st1 (acc ++ [m])) as Hrest.
      cbv beta zeta in Hrest. rewrite Hrest
        by (subst st1; cbn [zips]; apply lookup_insert_eq).
      subst st1. cbn [temp zips dirs uploads stderr].
      destruct (Plan.members E self temp_dir t1 rest) as [[ms failure] t2].
      cbn [fst snd]. now rewrite insert_insert_eq, <- app_assoc.
    + cbn [fst snd Plan.outcome]. now rewrite app_nil_r, (insert_id _ _ _ Hacc).
Qed.

(** [create_zip_archive] does what its plan says. *)
Lemma create_zip_archive_plan E self files zip_path folder_prefix temp_dir st :
  Archiver.create_zip_archive E self files zip_path folder_prefix temp_dir st
  = (fst (fst (Plan.archive E self temp_dir (temp st) files zip_path)),
     mkstate
       (snd (fst (Plan.archive E self temp_dir (temp st) files zip_path))
          (zips st))
       (dirs st)
       (snd (Plan.archive E self temp_dir (temp st) files zip_path))
       (uploads st) (stderr st)).
Proof.
  unfold Archiver.create_zip_archive, Plan.archive.
  destruct files as [|f rest].
  - cbn. now rewrite state_eta.
  - rewrite bind_unfold. unfold Archiver.zip_open.
    destruct (create_error E zip_path) as [e|].
    + cbn. now rewrite state_eta.
    + unfold set_zips. rewrite bind_unfold.
      set (st0 := mkstate _ _ _ _ _).
      pose proof (zip_loop_plan E self zip_path temp_dir (f :: rest) st0 [])
        as Hloop.
      cbv beta zeta in Hloop. rewrite Hloop
        by (subst st0; cbn [zips]; apply lookup_insert_eq).
      subst st0. cbn [temp zips dirs uploads stderr].
      destruct (Plan.members E self temp_dir (temp st) (f :: rest))
        as [[ms failure] t'].
      cbn [fst snd app]. rewrite insert_insert_eq.
      destruct failure; reflexivity.
Qed.

(** *** The members of an archive *)












(** ** The orchestrator *)

Lemma process_opening_plan E self start_date end_date month_str temp_dir s st :
  Archiver.process_opening E self start_date end_date month_str temp_dir s st
  = (fst (fst (Plan.folder E self temp_dir (temp st) "Opening"
                 Archiver.set_opening start_date end_date month_str s)),
     mkstate
       (snd (fst (Plan.folder E self temp_dir (temp st) "Opening"
                    Archiver.set_opening start_date end_date month_str s))
          (zips st))
       (dirs st)
       (snd (Plan.folder E self temp_dir (temp st) "Opening"
               Archiver.set_opening start_date end_date month_str s))
       (uploads st) (stderr st)).
Proof.
  unfold Archiver.process_opening, Plan.folder. rewrite bind_unfold.
  unfold lift.
  destruct (Archiver.list_files E self "Opening" start_date end_date)
    as [[|f rest]|e].
  - cbn. now rewrite state_eta.
  - cbv zeta. rewrite bind_unfold, create_zip_archive_plan.
    destruct (Plan.archive _ _ _ _ _ _) as [[[n|e] change] t']; reflexivity.
  - cbn. now rewrite state_eta.
Qed.

Lemma process_customer_plan E self start_date end_date month_str temp_dir s st :
  Archiver.process_customer E self start_date end_date month_str temp_dir s st
  = (fst (fst (Plan.folder E self temp_dir (temp st) "Customer"
                 Archiver.set_customer start_date end_date month_str s)),
     mkstate
       (snd (fst (Plan.folder E self temp_dir (temp st) "Customer"
                    Archiver.set_customer start_date end_date month_str s))
          (zips st))
       (dirs st)
       (snd (Plan.folder E self temp_dir (temp st) "Customer"
               Archiver.set_customer start_date end_date month_str s))
       (uploads st) (stderr st)).
Proof.
  unfold Archiver.process_customer, Plan.folder. rewrite bind_unfold.
  unfold lift.
  destruct (Archiver.list_files E self "Customer" start_date end_date)
    as [[|f rest]|e].
  - cbn. now rewrite state_eta.
  - cbv zeta. rewrite bind_unfold, create_zip_archive_plan.
    destruct (Plan.archive _ _ _ _ _ _) as [[[n|e] change] t']; reflexivity.
  - cbn. now rewrite state_eta.
Qed.

Lemma uploads_plan E self opening customer st :
  (_ ← Archiver.upload_if_made E self opening;
   Archiver.upload_if_made E self customer) st
  = (Plan.outcome
       (snd (Plan.upload_all E self
               (List.filter (fun path => truthy (Some path))
                  (option_list opening ++ option_list customer)))) tt,
     mkstate (zips st) (dirs st) (temp st)
       (uploads st
        ++ fst (Plan.upload_all E self
                  (List.filter (fun path => truthy (Some path))
                     (option_list opening ++ option_list customer))))
       (stderr st)).
Proof.
  rewrite bind_unfold. unfold Archiver.upload_if_made, Archiver.upload_file.
  destruct opening as [o|], customer as [c|];
    unfold option_list; cbn [option_rect app List.filter]; cbv beta;
    repeat match goal with
           | |- context [truthy (Some ?p)] => destruct (truthy (Some p))
           end;
    cbn [Plan.upload_all];
    repeat match goal with
           | |- context [upload_error ?E ?a ?b ?c] =>
               destruct (upload_error E a b c)
           end;
    unfold add_upload, lift, mret, M_ret; cbn;
    rewrite ?app_nil_r, ?state_eta, <- ?app_assoc; reflexivity.
Qed.

(** [archive_previous_month] does what its plan says: the result, the
    change to the ZIP files, the uploads, the tree left; the directories
    and standard error are left alone. *)
Lemma archive_previous_month_plan E self reference_date upload st :
  Archiver.archive_previous_month E self reference_date upload st
  = let R := Plan.run E self reference_date upload in
    (Plan.returned R,
     mkstate (Plan.change R (zips st)) (dirs st)
       (default (temp st) (Plan.left R))
       (uploads st ++ Plan.uploaded R) (stderr st)).
Proof.
  unfold Archiver.archive_previous_month, Plan.run. rewrite bind_unfold.
  unfold lift.
  destruct (Archiver.get_previous_month_range E self reference_date)
    as [[start_date end_date]|e].
  2:{ cbn. now rewrite app_nil_r, state_eta. }
  rewrite bind_unfold. unfold Archiver.with_temporary_directory.
  fold (Plan.workspace E).
  rewrite bind_unfold.
  set (m := strftime_Y_m start_date).
  set (s0 := Archiver.mkstats m 0 0 None None).
  rewrite process_opening_plan. cbn [temp zips dirs uploads stderr].
  destruct (Plan.folder E self (tempdir E) ∅ "Opening" Archiver.set_opening
              start_date end_date m s0) as [[[s1|e1] change1] t1];
    cbn [fst snd].
  2:{ cbn. now rewrite app_nil_r. }
  rewrite process_customer_plan. cbn [temp zips dirs uploads stderr].
  destruct (Plan.folder E self (tempdir E) t1 "Customer" Archiver.set_customer
              start_date end_date m s1) as [[[s2|e2] change2] t2];
    cbn [fst snd].
  2:{ cbn. now rewrite app_nil_r. }
  rewrite bind_unfold.
  destruct (upload && use_s3 self).
  - rewrite uploads_plan. unfold Plan.made_archives.
    destruct (Plan.upload_all E self _) as [done failure].
    cbn [fst snd zips dirs temp uploads stderr].
    destruct failure; reflexivity.
  - cbn. now rewrite app_nil_r.
Qed.

(** The block of a folder, when it ends well. *)
Lemma folder_ok E self temp_dir t name record start_date end_date month_str
    s s' change t' :
  Plan.folder E self temp_dir t name record start_date end_date month_str s
    = (Ok s', change, t') ->
  let zip_path :=
    path_join (output_dir self) (Archiver.zip_name name month_str) in
  exists files entries,
    Archiver.list_files E self name start_date end_date = Ok files
    /\ Plan.members E self temp_dir t files = (entries, None, t')
    /\ match files with
       | [] => s' = s /\ change = (fun z => z)
       | _ :: _ =>
           s' = record s (Z.of_nat (length files)) zip_path
           /\ change = (fun z => <[zip_path := entries]> z)
       end.
Proof.
  unfold Plan.folder. cbv zeta.
  destruct (Archiver.list_files E self name start_date end_date)
    as [[|f rest]|e]; [| |discriminate].
  - intros [= <- <- <-]. exists [], []. auto.
  - unfold Plan.archive.
    destruct (create_error E _); [discriminate|].
    destruct (Plan.members E self temp_dir t (f :: rest))
      as [[ms failure] t2] eqn:Hm.
    destruct failure as [e|]; [discriminate|]. cbn.
    intros [= <- <- <-]. exists (f :: rest), ms.
    repeat split; try reflexivity. exact Hm.
Qed.

(** A completed run: the bounds, the two selections, the members the two
    loops stored, the statistics and the archives on disk. *)
Lemma archive_previous_month_ok E self reference_date upload st s st' :
  Archiver.archive_previous_month E self reference_date upload st
    = (Ok s, st') ->
  exists start_date end_date opening customer opening_entries
         customer_entries t1 t2,
    let month_str := strftime_Y_m start_date in
    let opening_path :=
      path_join (output_dir self) (Archiver.zip_name "Opening" month_str) in
    let customer_path :=
      path_join (output_dir self) (Archiver.zip_name "Customer" month_str) in
    Archiver.get_previous_month_range E self reference_date
      = Ok (start_date, end_date)
    /\ Archiver.list_files E self "Opening" start_date end_date = Ok opening
    /\ Archiver.list_files E self "Customer" start_date end_date = Ok customer
    /\ Plan.members E self (tempdir E) ∅ opening
       = (opening_entries, None, t1)
    /\ Plan.members E self (tempdir E) t1 customer
       = (customer_entries, None, t2)
    /\ s = Archiver.mkstats month_str
             (Z.of_nat (length opening)) (Z.of_nat (length customer))
             (match opening with [] => None | _ :: _ => Some opening_path end)
             (match customer with [] => None | _ :: _ => Some customer_path end)
    /\ zips st' =
       (match customer with
        | [] => fun z => z
        | _ :: _ => fun z => <[customer_path := customer_entries]> z
        end)
         ((match opening with
           | [] => fun z => z
           | _ :: _ => fun z => <[opening_path := opening_entries]> z
           end) (zips st)).
Proof.
  rewrite archive_previous_month_plan. cbv zeta. unfold Plan.run.
  destruct (Archiver.get_previous_month_range E self reference_date)
    as [[start_date end_date]|e]; [|discriminate].
  cbv zeta.
  destruct (Plan.folder E self (tempdir E) ∅ "Opening" _ _ _ _ _)
    as [[[s1|e1] change1] t1] eqn:Ho; [|discriminate].
  destruct (Plan.folder E self (tempdir E) t1 "Customer" _ _ _ _ _)
    as [[[s2|e2] change2] t2] eqn:Hc; [|discriminate].
  apply folder_ok in Ho as (opening & oe & Hol & Hom & Ho).
  apply folder_ok in Hc as (customer & ce & Hcl & Hcm & Hc).
  intros Hrun.
  assert (Hs : s = s2 /\ zips st' = change2 (change1 (zips st))).
  { destruct (upload && use_s3 self).
    - destruct (Plan.upload_all E self _) as [done [e|]];
        cbn in Hrun; [discriminate Hrun|].
      injection Hrun as <- <-. split; reflexivity.
    - cbn in Hrun. injection Hrun as <- <-. split; reflexivity. }
  destruct Hs as [-> Hz].
  exists start_date, end_date, opening, customer, oe, ce, t1, t2. cbv zeta.
  clear Hrun. split; [reflexivity|]. do 4 (split; [assumption|]). rewrite Hz.
  destruct opening as [|o orest], customer as [|c crest];
    destruct Ho as [-> ->], Hc as [-> ->]; split; reflexivity.
Qed.

(** C5. The assembler, given no file, returns zero and leaves the disk as
    it is. In the orchestrator, a folder whose selection is empty passes its
    block without an archive and without a change to the statistics; a run
    that returns records zero files and no archive path for it, and leaves
    no archive at its path that was not there; and a run in which both
    selections are empty returns, with zeros and no archive at all. *)
Theorem empty_selection_makes_no_archive :
  (forall (E : env) (self : MonthlyArchiver)
          (zip_path folder_prefix temp_dir : string) (st : state),
      Archiver.create_zip_archive E self [] zip_path folder_prefix temp_dir st
      = (Ok 0, st))
  /\ forall (E : env) (self : MonthlyArchiver)
            (reference_date : option datetime) (upload : bool) (st : state)
            (start_date end_date : datetime),
      Archiver.get_previous_month_range E self reference_date
        = Ok (start_date, end_date) ->
      let month_str := strftime_Y_m start_date in
      let opening_path :=
        path_join (output_dir self) (Archiver.zip_name "Opening" month_str) in
      let customer_path :=
        path_join (output_dir self) (Archiver.zip_name "Customer" month_str) in
      (Archiver.list_files E self "Opening" start_date end_date = Ok [] ->
       (forall temp_dir s st0,
           Archiver.process_opening E self start_date end_date month_str
             temp_dir s st0 = (Ok s, st0))
       /\ forall s st',
            Archiver.archive_previous_month E self reference_date upload st
              = (Ok s, st') ->
            Archiver.opening_files s = 0 /\ Archiver.opening_zip s = None
            /\ zips st' !! opening_path = zips st !! opening_path)
      /\ (Archiver.list_files E self "Customer" start_date end_date = Ok [] ->
          (forall temp_dir s st0,
              Archiver.process_customer E self start_date end_date month_str
                temp_dir s st0 = (Ok s, st0))
          /\ forall s st',
               Archiver.archive_previous_month E self reference_date upload st
                 = (Ok s, st') ->
               Archiver.customer_files s = 0 /\ Archiver.customer_zip s = None
               /\ zips st' !! customer_path = zips st !! customer_path)
      /\ (Archiver.list_files E self "Opening" start_date end_date = Ok [] ->
          Archiver.list_files E self "Customer" start_date end_date = Ok [] ->
          Archiver.archive_previous_month E self reference_date upload st
          = (Ok (Archiver.mkstats month_str 0 0 None None),
             mkstate (zips st) (dirs st) ∅ (uploads st) (stderr st))).
Proof.
  split; [reflexivity|].
  intros E self reference_date upload st start_date end_date Hr.
  cbv zeta. split; [|split].
  - intros Ho. split.
    + intros temp_dir s st0. unfold Archiver.process_opening, mbind, M_bind, lift.
      rewrite Ho. reflexivity.
    + intros s st' Hrun.
      apply archive_previous_month_ok in Hrun
        as (sd & ed & opening & customer & oe & ce & t1 & t2 & Hr' & Ho'
            & Hc' & _ & _ & -> & Hz).
      rewrite Hr in Hr'. injection Hr' as <- <-.
      rewrite Ho in Ho'. injection Ho' as <-. cbn.
      split; [reflexivity|]. split; [reflexivity|].
      rewrite Hz. destruct customer; [reflexivity|].
      apply lookup_insert_ne. intros Heq. symmetry in Heq.
      exact (zip_paths_differ _ _ (no_slash_month _) Heq).
  - intros Hc. split.
    + intros temp_dir s st0.
      unfold Archiver.process_customer, mbind, M_bind, lift.
      rewrite Hc. reflexivity.
    + intros s st' Hrun.
      apply archive_previous_month_ok in Hrun
        as (sd & ed & opening & customer & oe & ce & t1 & t2 & Hr' & Ho'
            & Hc' & _ & _ & -> & Hz).
      rewrite Hr in Hr'. injection Hr' as <- <-.
      rewrite Hc in Hc'. injection Hc' as <-. cbn.
      split; [reflexivity|]. split; [reflexivity|].
      rewrite Hz. destruct opening; [reflexivity|].
      apply lookup_insert_ne, zip_paths_differ, no_slash_month.
  - intros Ho Hc.
    rewrite archive_previous_month_plan. cbv zeta.
    unfold Plan.run, Plan.folder. rewrite Hr, Ho, Hc.
    cbn [Plan.made_archives Archiver.opening_zip Archiver.customer_zip
           option_list app List.filter Plan.upload_all Plan.outcome].
    rewrite rmtree_empty.
    destruct (upload && use_s3 self); cbn; rewrite ?app_nil_r; reflexivity.
Qed.

Lemma empty_selection_makes_no_archive_witness :
  Archiver.archive_previous_month Examples.s3_env
    (mkarchiver "transaction-documents" "archives" true None)
    (Some (naive (mkcivil 2025 3 10 0 0 0 0))) true Examples.empty_state
  = (Ok (Archiver.mkstats "2025-02" 0 0 None None), Examples.empty_state).
Proof.
  refine (proj2 (proj2 (proj2 empty_selection_makes_no_archive
            Examples.s3_env _ (Some (naive (mkcivil 2025 3 10 0 0 0 0))) true
            Examples.empty_state
            (aware_utc (mkcivil 2025 2 1 0 0 0 0))
            (aware_utc (mkcivil 2025 2 28 23 59 59 999999)) _)) _ _);
    vm_compute; reflexivity.
Defined.

(** C10. In the statistics of a run that returns, a folder has an archive
    path exactly when its count is positive, and each count is the number
    of files selected for its folder. *)
Theorem statistics_paths_match_counts :
  forall (E : env) (self : MonthlyArchiver) (reference_date : option datetime)
         (upload : bool) (st : state) (s : Archiver.stats) (st' : state),
    Archiver.archive_previous_month E self reference_date upload st
      = (Ok s, st') ->
    (Archiver.opening_zip s <> None <-> 0 < Archiver.opening_files s)
    /\ (Archiver.customer_zip s <> None <-> 0 < Archiver.customer_files s)
    /\ exists start_date end_date opening customer,
         Archiver.get_previous_month_range E self reference_date
           = Ok (start_date, end_date)
         /\ Archiver.list_files E self "Opening" start_date end_date
            = Ok opening
         /\ Archiver.list_files E self "Customer" start_date end_date
            = Ok customer
         /\ Archiver.opening_files s = Z.of_nat (length opening)
         /\ Archiver.customer_files s = Z.of_nat (length customer).
Proof.
  intros E self reference_date upload st s st' Hrun.
  apply archive_previous_month_ok in Hrun
    as (sd & ed & opening & customer & oe & ce & t1 & t2 & Hr & Ho & Hc & _
        & _ & -> & _).
  cbn [Archiver.opening_zip Archiver.customer_zip Archiver.opening_files
         Archiver.customer_files].
  split; [|split].
  - destruct opening; cbn [length]; split; intros H;
      try congruence; try lia.
  - destruct customer; cbn [length]; split; intros H;
      try congruence; try lia.
  - exists sd, ed, opening, customer. auto.
Qed.

Lemma statistics_paths_match_counts_witness :
  exists s st',
    Archiver.archive_previous_month Examples.local_env Examples.local_archiver
      (Some (naive (mkcivil 2025 10 15 0 0 0 0))) false Examples.empty_state
    = (Ok s, st')
    /\ (Archiver.opening_zip s <> None <-> 0 < Archiver.opening_files s).
Proof.
  destruct (Archiver.archive_previous_month Examples.local_env
              Examples.local_archiver
              (Some (naive (mkcivil 2025 10 15 0 0 0 0))) false
              Examples.empty_state) as [r st'] eqn:Hrun.
  destruct r as [s|e].
  - exists s, st'. split; [reflexivity|].
    exact (proj1 (statistics_paths_match_counts _ _ _ _ _ _ _ Hrun)).
  - vm_compute in Hrun. discriminate Hrun.
Defined.




(** ** The command line *)

Lemma reference_date_of_malformed a :
  Cli.malformed_date a = true ->
  exists message,
    Cli.reference_date_of (Cli.date a) = inr message
    /\ message <> EmptyString.
Proof.
  unfold Cli.malformed_date, Cli.reference_date_of. intros H.
  apply andb_prop in H as [Ht Hp]. rewrite Ht.
  destruct (Strptime.strptime _ _); [discriminate|].
  eexists. split; [reflexivity|]. discriminate.
Qed.

Lemma reference_date_of_well_formed a :
  Cli.malformed_date a = false ->
  exists reference_date, Cli.reference_date_of (Cli.date a) = inl reference_date.
Proof.
  unfold Cli.malformed_date, Cli.reference_date_of.
  destruct (truthy (Cli.date a)); [|eexists; reflexivity].
  destruct (Strptime.strptime _ _); [eexists; reflexivity|discriminate].
Qed.

(** C6 (amended). An invocation with both of [--bucket] and [--local-dir]
    (non-empty), with neither, or with a [--date] that does not parse, ends
    in [parser.error]: exit status 2, a message on standard error, and
    nothing else changed (no archive, no directory). An invocation with
    valid arguments whose archiver is built exits with status 0 when the
    run returns, and with status 1 and a message when the run raises. *)
Theorem command_line_exit_status :
  forall (E : env) (a : Cli.args) (st : state),
    (Cli.invalid_arguments a = true ->
     exists message,
       Cli.main E a st = (Cli.SystemExit 2, eprint message st)
       /\ message <> EmptyString
       /\ Cli.exit_code (fst (Cli.main E a st)) = 2
       /\ zips (snd (Cli.main E a st)) = zips st
       /\ dirs (snd (Cli.main E a st)) = dirs st)
    /\ (Cli.invalid_arguments a = false ->
        exists reference_date,
          Cli.reference_date_of (Cli.date a) = inl reference_date
          /\ forall self st1,
               Cli.init E
                 (if truthy (Cli.bucket a)
                  then default EmptyString (Cli.bucket a) else "local")
                 (Cli.output a) (truthy (Cli.bucket a)) (Cli.local_dir a) st
               = (Ok self, st1) ->
               (forall s st2,
                   Archiver.archive_previous_month E self reference_date
                     (Cli.upload_to_s3 a) st1 = (Ok s, st2) ->
                   Cli.main E a st = (Cli.Return 0, st2)
                   /\ Cli.exit_code (fst (Cli.main E a st)) = 0)
               /\ (forall e st2,
                     Archiver.archive_previous_month E self reference_date
                       (Cli.upload_to_s3 a) st1 = (Raise e, st2) ->
                     Cli.exit_code (fst (Cli.main E a st)) = 1
                     /\ stderr (snd (Cli.main E a st))
                        = stderr st2
                          ++ [String.append Generator.newline
                                (String.append "Error: " (exc_msg e))])).
Proof.
  intros E a st. split.
  - intros Hinv.
    assert (Hshape : exists message,
               Cli.main E a st = (Cli.SystemExit 2, eprint message st)
               /\ message <> EmptyString).
    { unfold Cli.invalid_arguments, Cli.both_given, Cli.neither_given in Hinv.
      unfold Cli.main.
      destruct (negb (truthy (Cli.bucket a)) && negb (truthy (Cli.local_dir a))).
      { eexists. split; [reflexivity|discriminate]. }
      destruct (truthy (Cli.bucket a) && truthy (Cli.local_dir a)).
      { eexists. split; [reflexivity|discriminate]. }
      cbn in Hinv.
      destruct (reference_date_of_malformed a Hinv) as (message & -> & Hm).
      exists message. split; [reflexivity|exact Hm]. }
    destruct Hshape as (message & Hmain & Hm). exists message.
    rewrite Hmain. repeat split; assumption.
  - intros Hvalid.
    unfold Cli.invalid_arguments, Cli.both_given, Cli.neither_given in Hvalid.
    apply orb_false_elim in Hvalid as [Hvalid Hdate].
    apply orb_false_elim in Hvalid as [Hboth Hneither].
    destruct (reference_date_of_well_formed a Hdate) as [reference_date Href].
    exists reference_date. split; [exact Href|].
    intros self st1 Hinit. unfold Cli.main.
    rewrite Hneither, Hboth, Href, Hinit. split.
    + intros s st2 ->. split; reflexivity.
    + intros e st2 ->. split; reflexivity.
Qed.

Lemma command_line_exit_status_witness :
  exists message,
    Cli.main Examples.local_env
      (Cli.mkargs None (Some "data"%string) "archives" false
         (Some "2025-13-01"%string))
      Examples.empty_state
    = (Cli.SystemExit 2, eprint message Examples.empty_state)
    /\ message <> EmptyString.
Proof.
  destruct (proj1 (command_line_exit_status Examples.local_env
                     (Cli.mkargs None (Some "data"%string) "archives" false
                        (Some "2025-13-01"%string))
                     Examples.empty_state) eq_refl)
    as (message & Hmain & Hm & _).
  exists message. split; assumption.
Defined.

(** C6, as stated, fails: with both [--bucket] and [--local-dir] the
    process exits with status 2, not 1. *)
Lemma both_sources_exit_status_two :
  Cli.exit_code
    (fst (Cli.main Examples.local_env
            (Cli.mkargs (Some "X"%string) (Some "Y"%string) "archives" false None)
            Examples.empty_state)) = 2
  /\ Cli.exit_code
       (fst (Cli.main Examples.local_env
               (Cli.mkargs (Some "X"%string) (Some "Y"%string) "archives" false
                  None)
               Examples.empty_state)) <> 1.
Proof. split; [reflexivity|discriminate]. Qed.

(** * Further properties *)

(** ** What the selectors return *)

(** X1. With aware bounds, when every page of the listing arrives, the
    remote selector returns, in listing order, the keys of exactly the
    objects whose effective timestamp lies between the bounds; pages
    without ['Contents'] contribute nothing. *)
Theorem remote_selection_is_a_filter :
  forall (E : env) (self : MonthlyArchiver) (prefix : string)
         (start_date end_date : datetime),
    is_aware start_date = true ->
    is_aware end_date = true ->
    Forall (fun page => is_ok page = true)
           (paginate E (bucket_name self) prefix) ->
    Archiver.list_s3_files E self prefix start_date end_date
    = Ok (map Key
            (List.filter
               (fun obj => Selection.within start_date
                             (Selection.effective_timestamp E self obj)
                             end_date)
               (Selection.page_objects
                  (paginate E (bucket_name self) prefix)))).
Proof. exact remote_selection_is_a_filter_aux. Qed.

Lemma remote_selection_is_a_filter_witness :
  Archiver.list_s3_files Examples.s3_env Examples.s3_archiver "Opening/"
    Examples.september_start Examples.september_end
  = Ok (map Key [Examples.stamped; Examples.unstamped; Examples.garbled;
                 Examples.unreachable]).
Proof.
  rewrite (remote_selection_is_a_filter Examples.s3_env Examples.s3_archiver
             "Opening/" Examples.september_start Examples.september_end
             eq_refl eq_refl).
  - reflexivity.
  - repeat constructor.
Defined.

(** X2. A page that fails to arrive aborts the remote listing with its
    exception, whatever was selected from the pages before it: only the
    metadata of single objects is tolerated to fail. *)
Theorem failed_page_aborts_listing :
  forall (E : env) (self : MonthlyArchiver) (prefix : string)
         (start_date end_date : datetime)
         (before rest : list (result (option (list S3Object))))
         (e : exception),
    is_aware start_date = true ->
    is_aware end_date = true ->
    paginate E (bucket_name self) prefix = before ++ Raise e :: rest ->
    Forall (fun page => is_ok page = true) before ->
    Archiver.list_s3_files E self prefix start_date end_date = Raise e.
Proof.
  intros E self prefix start_date end_date before rest e Hs He Hp Hbefore.
  unfold Archiver.list_s3_files. rewrite Hp. clear Hp.
  generalize (@nil string) as files.
  induction Hbefore as [|page pages Hpage _ IH]; intros files.
  - reflexivity.
  - destruct page as [[contents|]|e']; [| |discriminate Hpage].
    + cbn [app Archiver.s3_pages_loop].
      rewrite (s3_contents_loop_filter _ _ _ _ _ Hs He). cbn. apply IH.
    + cbn [app Archiver.s3_pages_loop]. apply IH.
Qed.

Lemma local_selection_is_a_filter_aux :
  forall (E : env) (self : MonthlyArchiver) (data_dir folder_name : string)
         (start_date end_date : datetime),
    is_aware start_date = false ->
    is_aware end_date = false ->
    local_data_dir self = Some data_dir ->
    path_exists E (path_join data_dir folder_name) = true ->
    Archiver.list_local_files E self folder_name start_date end_date
    = Ok (map rel_path
            (List.filter
               (fun entry => is_file entry
                             && Selection.within start_date
                                  (entry_mtime entry) end_date)
               (rglob E (path_join data_dir folder_name)))).
Proof.
  intros E self data_dir folder_name start_date end_date Hs He Hdir Hex.
  unfold Archiver.list_local_files. rewrite Hdir, Hex. cbn [negb].
  change (map rel_path (List.filter ?f ?l))
    with ([] ++ map rel_path (List.filter f l)).
  generalize (@nil string) as files.
  induction (rglob E (path_join data_dir folder_name)) as [|entry rest IH];
    intros files.
  - cbn. now rewrite app_nil_r.
  - cbn [Archiver.local_loop List.filter]. destruct (is_file entry); cbn [andb].
    + unfold Selection.within at 1.
      destruct (between_naive start_date (entry_mtime entry) end_date
                  Hs eq_refl He) as [b ->]. cbn.
      destruct b; rewrite IH; [|reflexivity]. cbn. now rewrite <- app_assoc.
    + apply IH.
Qed.

(** X3. With naive bounds, for a folder that exists, the local selector
    returns, in the order of the walk, the relative paths of exactly the
    regular files whose modification time lies between the bounds;
    directories are never selected. *)
Theorem local_selection_is_a_filter :
  forall (E : env) (self : MonthlyArchiver) (data_dir folder_name : string)
         (start_date end_date : datetime),
    is_aware start_date = false ->
    is_aware end_date = false ->
    local_data_dir self = Some data_dir ->
    path_exists E (path_join data_dir folder_name) = true ->
    Archiver.list_local_files E self folder_name start_date end_date
    = Ok (map rel_path
            (List.filter
               (fun entry => is_file entry
                             && Selection.within start_date
                                  (entry_mtime entry) end_date)
               (rglob E (path_join data_dir folder_name)))).
Proof. exact local_selection_is_a_filter_aux. Qed.

Lemma local_selection_is_a_filter_witness :
  Archiver.list_local_files Examples.local_env Examples.local_archiver
    "Opening" (naive (mkcivil 2025 9 1 0 0 0 0))
    (naive (mkcivil 2025 9 30 23 59 59 999999))
  = Ok ["Opening/TXN100000/IDD.pdf"%string].
Proof.
  rewrite (local_selection_is_a_filter Examples.local_env
             Examples.local_archiver "data" "Opening"
             (naive (mkcivil 2025 9 1 0 0 0 0))
             (naive (mkcivil 2025 9 30 23 59 59 999999))
             eq_refl eq_refl eq_refl eq_refl).
  reflexivity.
Defined.

(** ** The calendar month an interval covers *)

Lemma days_before_year_succ y :
  days_before_year (y + 1)
  = days_before_year y + 365 + (if is_leap y then 1 else 0).
Proof.
  unfold days_before_year, is_leap. cbv zeta.
  replace (y + 1 - 1) with y by lia.
  destruct (Z.eqb_spec (y mod 4) 0), (Z.eqb_spec (y mod 100) 0),
    (Z.eqb_spec (y mod 400) 0); cbn [negb andb orb];
    Z.to_euclidean_division_equations; lia.
Qed.

Lemma days_before_year_mono y1 y2 :
  y1 <= y2 -> days_before_year y1 <= days_before_year y2.
Proof.
  unfold days_before_year. cbv zeta. intros H.
  Z.to_euclidean_division_equations. lia.
Qed.

Lemma month_cases m :
  1 <= m <= 12 ->
  m = 1 \/ m = 2 \/ m = 3 \/ m = 4 \/ m = 5 \/ m = 6 \/ m = 7
  \/ m = 8 \/ m = 9 \/ m = 10 \/ m = 11 \/ m = 12.
Proof. lia. Qed.

(** The first day of the month after a month comes right after its last
    day. *)
Lemma ymd2ord_next_month y m :
  1 <= m <= 12 ->
  ymd2ord (fst (Selection.next_month y m)) (snd (Selection.next_month y m)) 1
  = ymd2ord y m 1 + days_in_month y m.
Proof.
  intros Hm. unfold Selection.next_month, ymd2ord.
  destruct (Z.eqb_spec m 12) as [->|Hne]; cbn [fst snd].
  - rewrite days_before_year_succ. unfold days_before_month, days_in_month.
    cbn. destruct (is_leap y), (is_leap (y + 1)); cbn; lia.
  - unfold days_before_month, days_in_month.
    pose proof (month_cases m Hm) as Hcm;
      repeat (destruct Hcm as [->|Hcm]); try subst m; try lia;
      repeat match goal with
             | |- context [Z.pos ?a + 1] =>
                 let c := eval vm_compute in (Z.pos a + 1) in
                 change (Z.pos a + 1) with c
             end;
      destruct (is_leap y); cbn; lia.
Qed.

Lemma ymd2ord_first_mono y1 m1 y2 m2 :
  1 <= m1 <= 12 -> 1 <= m2 <= 12 ->
  y1 < y2 \/ (y1 = y2 /\ m1 <= m2) ->
  ymd2ord y1 m1 1 <= ymd2ord y2 m2 1.
Proof.
  intros Hm1 Hm2 Hle. unfold ymd2ord.
  assert (Hb : forall y m, 1 <= m <= 12 -> 0 <= days_before_month y m <= 335).
  { intros y m Hm. unfold days_before_month.
    pose proof (month_cases m Hm) as Hcm;
      repeat (destruct Hcm as [->|Hcm]); try subst m;
      destruct (is_leap y); cbn; lia. }
  destruct Hle as [Hlt|[-> Hle]].
  - pose proof (days_before_year_succ y1).
    pose proof (days_before_year_mono (y1 + 1) y2 ltac:(lia)).
    pose proof (Hb y1 m1 Hm1). pose proof (Hb y2 m2 Hm2).
    destruct (is_leap y1); lia.
  - unfold days_before_month.
    pose proof (month_cases m1 Hm1) as Hcm1;
      repeat (destruct Hcm1 as [->|Hcm1]); try subst m1;
      pose proof (month_cases m2 Hm2) as Hcm2;
      repeat (destruct Hcm2 as [->|Hcm2]); try subst m2;
      try lia; destruct (is_leap y2); cbn; lia.
Qed.

Lemma civil_ok_fields c :
  civil_ok c = true ->
  1 <= year c /\ 1 <= month c <= 12
  /\ 1 <= day c <= days_in_month (year c) (month c)
  /\ 0 <= ((hour c * 60 + minute c) * 60 + second c) * US_PER_SECOND
          + microsecond c < US_PER_DAY.
Proof.
  unfold civil_ok, MINYEAR, US_PER_DAY. intros H.
  repeat (apply andb_prop in H as [H ?]).
  repeat match goal with
         | X : (_ <=? _) = true |- _ => apply Z.leb_le in X
         | X : (_ <? _) = true |- _ => apply Z.ltb_lt in X
         end.
  unfold US_PER_SECOND in *. lia.
Qed.

Lemma to_us_in_own_month c :
  civil_ok c = true ->
  ymd2ord (year c) (month c) 1 * US_PER_DAY <= to_us c
  /\ to_us c < (ymd2ord (year c) (month c) 1
                + days_in_month (year c) (month c)) * US_PER_DAY.
Proof.
  intros Hok. destruct (civil_ok_fields c Hok) as (_ & _ & Hd & Ht).
  unfold to_us, toordinal, ymd2ord in *. unfold US_PER_DAY, US_PER_SECOND in *.
  lia.
Qed.

(** A month interval holds exactly the instants of its month. *)
Lemma within_month_interval y m tz c :
  1 <= m <= 12 -> civil_ok c = true ->
  Selection.within (first_instant y m tz) (mkdatetime c tz) (last_instant y m tz)
  = Selection.in_month y m c.
Proof.
  intros Hm Hok.
  destruct (civil_ok_fields c Hok) as (_ & Hmc & _ & _).
  destruct (to_us_in_own_month c Hok) as [Hlo Hhi].
  pose proof (ymd2ord_next_month (year c) (month c) Hmc) as Hnc.
  pose proof (ymd2ord_next_month y m Hm) as Hn.
  unfold Selection.within, between.
  rewrite !(le_same_zone _ _ tz) by reflexivity.
  rewrite to_us_first_instant, to_us_last_instant.
  cbn [wall mbind result_bind].
  unfold Selection.in_month.
  assert (Hlast : ymd2ord y m (days_in_month y m)
                  = ymd2ord y m 1 + days_in_month y m - 1)
    by (unfold ymd2ord; lia).
  rewrite Hlast.
  destruct (Z.eqb_spec (year c) y) as [Hy|Hy];
    [destruct (Z.eqb_spec (month c) m) as [Hmm|Hmm]|]; cbn [andb].
  - rewrite Hy, Hmm in Hlo, Hhi.
    destruct (Z.leb_spec (ymd2ord y m 1 * US_PER_DAY) (to_us c)); [|lia].
    apply Z.leb_le. unfold US_PER_DAY, US_PER_SECOND in *. lia.
  - rewrite Hy in *.
    destruct (Z.lt_ge_cases (month c) m) as [Hlt|Hge].
    + (* an earlier month of the same year *)
      assert (Hmono : ymd2ord y (month c) 1 + days_in_month y (month c)
                      <= ymd2ord y m 1).
      { rewrite <- Hnc. unfold Selection.next_month.
        destruct (Z.eqb_spec (month c) 12); cbn [fst snd]; [lia|].
        apply ymd2ord_first_mono; lia. }
      destruct (Z.leb_spec (ymd2ord y m 1 * US_PER_DAY) (to_us c));
        [|reflexivity].
      unfold US_PER_DAY, US_PER_SECOND in *. lia.
    + (* a later month of the same year *)
      assert (Hmono : ymd2ord y m 1 + days_in_month y m
                      <= ymd2ord y (month c) 1).
      { rewrite <- Hn. unfold Selection.next_month.
        destruct (Z.eqb_spec m 12); cbn [fst snd]; [lia|].
        apply ymd2ord_first_mono; lia. }
      destruct (Z.leb_spec (ymd2ord y m 1 * US_PER_DAY) (to_us c));
        [|reflexivity].
      apply Z.leb_gt. unfold US_PER_DAY, US_PER_SECOND in *. lia.
  - destruct (Z.lt_ge_cases (year c) y) as [Hlt|Hge].
    + assert (Hmono : ymd2ord (year c) (month c) 1
                      + days_in_month (year c) (month c) <= ymd2ord y m 1).
      { rewrite <- Hnc. unfold Selection.next_month.
        destruct (Z.eqb_spec (month c) 12); cbn [fst snd];
          apply ymd2ord_first_mono; lia. }
      destruct (Z.leb_spec (ymd2ord y m 1 * US_PER_DAY) (to_us c));
        [|reflexivity].
      unfold US_PER_DAY, US_PER_SECOND in *. lia.
    + assert (Hmono : ymd2ord y m 1 + days_in_month y m
                      <= ymd2ord (year c) (month c) 1).
      { rewrite <- Hn. unfold Selection.next_month.
        destruct (Z.eqb_spec m 12); cbn [fst snd];
          apply ymd2ord_first_mono; lia. }
      destruct (Z.leb_spec (ymd2ord y m 1 * US_PER_DAY) (to_us c));
        [|reflexivity].
      apply Z.leb_gt. unfold US_PER_DAY, US_PER_SECOND in *. lia.
Qed.

Lemma prev_month_range y m :
  1 <= m <= 12 -> 1 <= snd (prev_month y m) <= 12.
Proof.
  intros Hm. unfold prev_month. destruct (Z.eqb_spec m 1); cbn [snd]; lia.
Qed.

(** The bounds a successful call of the resolver returns. *)
Lemma resolver_ok_bounds E self reference_date start_date end_date :
  let D := default (naive (now E)) reference_date in
  let py := fst (prev_month (year (wall D)) (month (wall D))) in
  let pm := snd (prev_month (year (wall D)) (month (wall D))) in
  let tz := if use_s3 self then Some utc else tzinfo D in
  civil_ok (wall D) = true ->
  Archiver.get_previous_month_range E self reference_date
    = Ok (start_date, end_date) ->
  start_date = first_instant py pm tz /\ end_date = last_instant py pm tz
  /\ 1 <= pm <= 12.
Proof.
  intros D py pm tz Hok Hr.
  assert (Hne : ~ (year (wall D) = 1 /\ month (wall D) = 1)).
  { intros [Hy Hm].
    rewrite (resolver_year_one E self reference_date Hy Hm) in Hr.
    discriminate Hr. }
  rewrite (resolver_value E self reference_date Hok Hne) in Hr.
  injection Hr as <- <-. split; [reflexivity|]. split; [reflexivity|].
  apply prev_month_range. apply (civil_ok_bounds _ Hok).
Qed.

Lemma strptime_civil_ok text format d :
  Strptime.strptime text format = Ok d -> civil_ok (wall d) = true.
Proof.
  unfold Strptime.strptime.
  destruct (Strptime.match_format format text) as [|[groups rest] _];
    [discriminate|].
  destruct rest; [|discriminate].
  destruct (civil_ok _) eqn:Hc; [|discriminate]. intros [= <-]. exact Hc.
Qed.

(** X4. The bounds the resolver returns enclose exactly the month before
    the reference date: a well-formed instant in the zone of the bounds
    lies between them if and only if its year and month are those of that
    month. *)
Theorem resolver_interval_is_previous_month :
  forall (E : env) (self : MonthlyArchiver) (reference_date : option datetime)
         (start_date end_date : datetime) (c : civil),
    let D := default (naive (now E)) reference_date in
    civil_ok (wall D) = true ->
    civil_ok c = true ->
    Archiver.get_previous_month_range E self reference_date
      = Ok (start_date, end_date) ->
    Selection.within start_date (mkdatetime c (tzinfo start_date)) end_date
    = Selection.in_month (fst (prev_month (year (wall D)) (month (wall D))))
        (snd (prev_month (year (wall D)) (month (wall D)))) c.
Proof.
  intros E self reference_date start_date end_date c D Hok Hc Hr.
  destruct (resolver_ok_bounds E self reference_date _ _ Hok Hr)
    as (-> & -> & Hpm).
  cbn [tzinfo first_instant]. apply within_month_interval; assumption.
Qed.

Lemma resolver_interval_is_previous_month_witness :
  Selection.within (naive (mkcivil 2025 9 1 0 0 0 0))
    (naive (mkcivil 2025 8 31 23 59 59 999999))
    (naive (mkcivil 2025 9 30 23 59 59 999999)) = false
  /\ Selection.within (naive (mkcivil 2025 9 1 0 0 0 0))
       (naive (mkcivil 2025 9 30 23 59 59 999999))
       (naive (mkcivil 2025 9 30 23 59 59 999999)) = true.
Proof.
  split.
  - exact (resolver_interval_is_previous_month Examples.local_env
             Examples.local_archiver
             (Some (naive (mkcivil 2025 10 15 0 0 0 0)))
             (naive (mkcivil 2025 9 1 0 0 0 0))
             (naive (mkcivil 2025 9 30 23 59 59 999999))
             (mkcivil 2025 8 31 23 59 59 999999) eq_refl eq_refl eq_refl).
  - exact (resolver_interval_is_previous_month Examples.local_env
             Examples.local_archiver
             (Some (naive (mkcivil 2025 10 15 0 0 0 0)))
             (naive (mkcivil 2025 9 1 0 0 0 0))
             (naive (mkcivil 2025 9 30 23 59 59 999999))
             (mkcivil 2025 9 30 23 59 59 999999) eq_refl eq_refl eq_refl).
Defined.

(** X5. In local mode, for a folder that exists, the selection the
    orchestrator works on is the list of the regular files whose
    modification time falls in the calendar month before the (naive)
    reference date, in the order of the walk. *)
Theorem local_selection_is_previous_month :
  forall (E : env) (self : MonthlyArchiver) (reference_date : option datetime)
         (data_dir folder : string) (start_date end_date : datetime),
    let D := default (naive (now E)) reference_date in
    use_s3 self = false ->
    local_data_dir self = Some data_dir ->
    path_exists E (path_join data_dir folder) = true ->
    tzinfo D = None ->
    civil_ok (wall D) = true ->
    Forall (fun entry => civil_ok (mtime entry) = true)
           (rglob E (path_join data_dir folder)) ->
    Archiver.get_previous_month_range E self reference_date
      = Ok (start_date, end_date) ->
    Archiver.list_files E self folder start_date end_date
    = Ok (map rel_path
            (List.filter
               (fun entry =>
                  is_file entry
                  && Selection.in_month
                       (fst (prev_month (year (wall D)) (month (wall D))))
                       (snd (prev_month (year (wall D)) (month (wall D))))
                       (mtime entry))
               (rglob E (path_join data_dir folder)))).
Proof.
  intros E self reference_date data_dir folder start_date end_date D
    Hlocal Hdir Hex Hnaive Hok Hentries Hr.
  destruct (resolver_ok_bounds E self reference_date _ _ Hok Hr)
    as (-> & -> & Hpm).
  rewrite Hlocal. fold D. rewrite Hnaive.
  unfold Archiver.list_files. rewrite Hlocal.
  rewrite (local_selection_is_a_filter_aux E self data_dir folder)
    by (reflexivity || assumption).
  f_equal. f_equal. apply filter_ext_in. intros entry Hin.
  rewrite Forall_forall in Hentries. f_equal.
  apply (within_month_interval _ _ None (mtime entry) Hpm).
  apply Hentries. apply list_elem_of_In. exact Hin.
Qed.

Lemma local_selection_is_previous_month_witness :
  Archiver.list_files Examples.local_env Examples.local_archiver "Opening"
    (naive (mkcivil 2025 9 1 0 0 0 0))
    (naive (mkcivil 2025 9 30 23 59 59 999999))
  = Ok ["Opening/TXN100000/IDD.pdf"%string].
Proof.
  rewrite (local_selection_is_previous_month Examples.local_env
             Examples.local_archiver (Some Samples.october_15)
             "data" "Opening"
             (naive (mkcivil 2025 9 1 0 0 0 0))
             (naive (mkcivil 2025 9 30 23 59 59 999999))
             eq_refl eq_refl eq_refl eq_refl eq_refl).
  - reflexivity.
  - repeat constructor.
  - reflexivity.
Defined.

Lemma failed_page_aborts_listing_witness :
  Archiver.list_s3_files Samples.flaky_env Examples.s3_archiver "Opening/"
    Examples.september_start Examples.september_end
  = Raise Samples.timed_out.
Proof.
  apply (failed_page_aborts_listing Samples.flaky_env Examples.s3_archiver
           "Opening/" Examples.september_start Examples.september_end
           [Ok (Some [Examples.stamped; Examples.unstamped])]
           [Ok (Some [Examples.unreachable])] Samples.timed_out
           eq_refl eq_refl eq_refl).
  repeat constructor.
Defined.

Lemma effective_timestamp_civil_ok E self obj :
  civil_ok (LastModified obj) = true ->
  civil_ok (wall (Selection.effective_timestamp E self obj)) = true
  /\ tzinfo (Selection.effective_timestamp E self obj) = Some utc.
Proof.
  intros Hlm. unfold Selection.effective_timestamp, Archiver.s3_file_date.
  destruct (head_object E (bucket_name self) (Key obj)) as [r|e]; cbn;
    [|split; [exact Hlm|reflexivity]].
  destruct (default ∅ (Metadata r) !! "original-timestamp"%string) as [ts|];
    [|split; [exact Hlm|reflexivity]].
  destruct (Strptime.strptime ts Strptime.fmt_timestamp) as [d|e] eqn:Hp; cbn.
  - split; [exact (strptime_civil_ok _ _ _ Hp)|reflexivity].
  - split; [exact Hlm|reflexivity].
Qed.

(** X6. In remote mode, when every page of the listing arrives, the
    selection the orchestrator works on is the list of the keys of the
    objects whose effective timestamp (the metadata timestamp when it is
    there and parses, else [LastModified]) falls, read in UTC, in the
    calendar month before the reference date. *)
Theorem remote_selection_is_previous_month :
  forall (E : env) (self : MonthlyArchiver) (reference_date : option datetime)
         (folder : string) (start_date end_date : datetime),
    let D := default (naive (now E)) reference_date in
    let pages := paginate E (bucket_name self) (String.append folder "/") in
    use_s3 self = true ->
    civil_ok (wall D) = true ->
    Forall (fun page => is_ok page = true) pages ->
    Forall (fun obj => civil_ok (LastModified obj) = true)
           (Selection.page_objects pages) ->
    Archiver.get_previous_month_range E self reference_date
      = Ok (start_date, end_date) ->
    Archiver.list_files E self folder start_date end_date
    = Ok (map Key
            (List.filter
               (fun obj =>
                  Selection.in_month
                    (fst (prev_month (year (wall D)) (month (wall D))))
                    (snd (prev_month (year (wall D)) (month (wall D))))
                    (wall (Selection.effective_timestamp E self obj)))
               (Selection.page_objects pages))).
Proof.
  intros E self reference_date folder start_date end_date D pages
    Hremote Hok Hpages Hobjs Hr.
  destruct (resolver_ok_bounds E self reference_date _ _ Hok Hr)
    as (-> & -> & Hpm).
  rewrite Hremote. fold D.
  unfold Archiver.list_files. rewrite Hremote.
  rewrite remote_selection_is_a_filter_aux by (reflexivity || assumption).
  fold pages. f_equal. f_equal. apply filter_ext_in. intros obj Hin.
  rewrite Forall_forall in Hobjs.
  assert (Hlm : civil_ok (LastModified obj) = true)
    by (apply Hobjs, list_elem_of_In, Hin).
  destruct (effective_timestamp_civil_ok E self obj Hlm) as [Hc Htz].
  rewrite <- (within_month_interval _ _ (Some utc) _ Hpm Hc).
  f_equal. destruct (Selection.effective_timestamp E self obj) as [w tz].
  cbn in Htz |- *. now rewrite Htz.
Qed.

Lemma remote_selection_is_previous_month_witness :
  Archiver.list_files Examples.s3_env Examples.s3_archiver "Opening"
    Examples.september_start Examples.september_end
  = Ok (map Key [Examples.stamped; Examples.unstamped; Examples.garbled;
                 Examples.unreachable]).
Proof.
  rewrite (remote_selection_is_previous_month Examples.s3_env
             Examples.s3_archiver (Some Samples.october_15) "Opening"
             Examples.september_start Examples.september_end
             eq_refl eq_refl).
  - reflexivity.
  - repeat constructor.
  - repeat constructor.
  - reflexivity.
Defined.

(** ** The run as a function of its surroundings *)









(** ** Uploads *)

Lemma upload_all_done E self made :
  snd (Plan.upload_all E self made) = None ->
  fst (Plan.upload_all E self made)
  = map (fun path =>
           (path, bucket_name self,
            String.append "archives/" (Archiver.path_name path))) made.
Proof.
  induction made as [|path rest IH]; cbn; [reflexivity|].
  destruct (upload_error E path (bucket_name self) _); [discriminate|].
  destruct (Plan.upload_all E self rest) as [done failure]. cbn in *.
  intros ->. now rewrite IH.
Qed.

(** X11. Archives are uploaded only in remote mode with the upload flag:
    otherwise a run records no upload, whatever its outcome. With both, a
    run that returns has uploaded each archive it made, Opening first,
    from its path on disk to the key [archives/<Folder>_<YYYY-MM>.zip] of
    the source bucket, and nothing else. *)
Theorem uploads_follow_flag_and_mode :
  forall (E : env) (self : MonthlyArchiver) (reference_date : option datetime)
         (upload : bool) (st : state),
    (upload && use_s3 self = false ->
     uploads (snd (Archiver.archive_previous_month E self reference_date
                     upload st))
     = uploads st)
    /\ (upload && use_s3 self = true ->
        forall s st',
          Archiver.archive_previous_month E self reference_date upload st
            = (Ok s, st') ->
          uploads st'
          = uploads st
            ++ Effects.upload_of self "Opening" (Archiver.stat_month s)
                 (Archiver.opening_zip s)
            ++ Effects.upload_of self "Customer" (Archiver.stat_month s)
                 (Archiver.customer_zip s)).
Proof.
  intros E self reference_date upload st. split.
  - intros Hoff. rewrite archive_previous_month_plan. cbv zeta.
    cbn [snd uploads]. unfold Plan.run.
    destruct (Archiver.get_previous_month_range E self reference_date)
      as [[start_date end_date]|e]; [|cbn; apply app_nil_r].
    cbv zeta.
    destruct (Plan.folder E self (tempdir E) ∅ "Opening" _ _ _ _ _)
      as [[[s1|e1] c1] t1]; [|cbn; apply app_nil_r].
    destruct (Plan.folder E self (tempdir E) t1 "Customer" _ _ _ _ _)
      as [[[s2|e2] c2] t2]; [|cbn; apply app_nil_r].
    rewrite Hoff. cbn. apply app_nil_r.
  - intros Hon s st' Hrun.
    pose proof Hrun as Hshape.
    apply archive_previous_month_ok in Hshape
      as (sd & ed & opening & customer & oe & ce & t1' & t2' & Hr & _ & _
          & _ & _ & Hs & _).
    rewrite archive_previous_month_plan in Hrun. cbv zeta in Hrun.
    injection Hrun as Hret <-. cbn [uploads]. f_equal.
    unfold Plan.run in *. rewrite Hr in *. cbv zeta in *.
    destruct (Plan.folder E self (tempdir E) ∅ "Opening" _ _ _ _ _)
      as [[[s1|e1] c1] t1]; [|discriminate Hret].
    destruct (Plan.folder E self (tempdir E) t1 "Customer" _ _ _ _ _)
      as [[[s2|e2] c2] t2]; [|discriminate Hret].
    rewrite Hon in *.
    pose proof (upload_all_done E self (Plan.made_archives s2)) as Hdone.
    destruct (Plan.upload_all E self (Plan.made_archives s2))
      as [done failure].
    cbn [Plan.returned Plan.uploaded fst snd] in *.
    destruct failure; [discriminate Hret|]. injection Hret as ->.
    rewrite (Hdone eq_refl). subst s.
    unfold Plan.made_archives, Effects.upload_of.
    cbn [Archiver.opening_zip Archiver.customer_zip Archiver.stat_month].
    assert (Hname : forall folder,
               Effects.part_ok (Archiver.zip_name folder (strftime_Y_m sd))
               = true ->
               Archiver.path_name
                 (path_join (output_dir self)
                    (Archiver.zip_name folder (strftime_Y_m sd)))
               = Archiver.zip_name folder (strftime_Y_m sd)).
    { intros folder Hf. apply path_name_join, Hf. }
    pose proof (zip_name_ok "Opening" (strftime_Y_m sd) (or_introl eq_refl)
                  (no_slash_month sd)) as Hopening.
    pose proof (zip_name_ok "Customer" (strftime_Y_m sd) (or_intror eq_refl)
                  (no_slash_month sd)) as Hcustomer.
    destruct opening, customer; unfold option_list;
      cbn [option_rect app List.filter map]; cbv beta;
      rewrite ?(truthy_path_join _ _ Hopening),
        ?(truthy_path_join _ _ Hcustomer); cbn [map app];
      rewrite ?(Hname "Opening"%string Hopening),
        ?(Hname "Customer"%string Hcustomer); reflexivity.
Qed.

Lemma uploads_follow_flag_and_mode_witness :
  uploads (snd (Archiver.archive_previous_month Examples.s3_env
                  Examples.s3_archiver (Some Samples.october_15) true
                  Examples.empty_state))
  = [("archives/Opening_2025-09.zip", "transaction-documents",
      "archives/Opening_2025-09.zip")]%string.
Proof.
  destruct (Archiver.archive_previous_month Examples.s3_env
              Examples.s3_archiver (Some Samples.october_15) true
              Examples.empty_state) as [r st'] eqn:Hrun.
  pose proof Hrun as Hval. vm_compute in Hval. injection Hval as Hr Hst.
  destruct r as [s|e]; [|discriminate Hr]. injection Hr as Hs.
  cbn [snd].
  rewrite (proj2 (uploads_follow_flag_and_mode Examples.s3_env
                    Examples.s3_archiver (Some Samples.october_15) true
                    Examples.empty_state) eq_refl s st' Hrun).
  rewrite <- Hs. reflexivity.
Defined.

(** ** The command line, continued *)

(** X12. Configuration errors of the constructor escape [main]: with valid
    arguments, a data directory that does not exist (local mode) or a
    missing client library (remote mode) ends [main] with the exception
    uncaught, before the output directory is made and before any ZIP file,
    upload or message is produced. *)
Theorem constructor_errors_escape_main :
  forall (E : env) (a : Cli.args) (st : state),
    Cli.invalid_arguments a = false ->
    (truthy (Cli.bucket a) = false ->
     path_exists E (default EmptyString (Cli.local_dir a)) = false ->
     Cli.main E a st
     = (Cli.Uncaught
          (Exc ValueError "local_data_dir must exist when use_s3=False"), st))
    /\ (truthy (Cli.bucket a) = true ->
        HAS_BOTO3 E = false ->
        Cli.main E a st
        = (Cli.Uncaught
             (Exc RuntimeError
                "boto3 is required for S3 operations. Install with: pip install boto3"),
           st)).
Proof.
  intros E a st Hvalid.
  unfold Cli.invalid_arguments, Cli.both_given, Cli.neither_given in Hvalid.
  apply orb_false_elim in Hvalid as [Hvalid Hdate].
  apply orb_false_elim in Hvalid as [Hboth Hneither].
  destruct (reference_date_of_well_formed a Hdate) as [reference_date Href].
  split.
  - intros Hlocal Hmissing. unfold Cli.main.
    rewrite Hneither, Hboth, Href, Hlocal.
    rewrite Hlocal in Hneither. cbn in Hneither.
    apply negb_false_iff in Hneither.
    unfold Cli.init. rewrite Hneither.
    destruct (Cli.local_dir a) as [d|]; [|discriminate Hneither].
    cbn in Hmissing. rewrite bind_unfold. rewrite Hmissing. reflexivity.
  - intros Hremote Hnolib. unfold Cli.main.
    rewrite Hneither, Hboth, Href, Hremote.
    unfold Cli.init. rewrite bind_unfold, Hnolib. reflexivity.
Qed.

Lemma constructor_errors_escape_main_witness :
  Cli.exit_code
    (fst (Cli.main Examples.local_env
            (Cli.mkargs None (Some "nowhere"%string) "archives" false None)
            Examples.empty_state)) = 1
  /\ snd (Cli.main Examples.local_env
            (Cli.mkargs None (Some "nowhere"%string) "archives" false None)
            Examples.empty_state) = Examples.empty_state.
Proof.
  rewrite (proj1 (constructor_errors_escape_main Examples.local_env
                    (Cli.mkargs None (Some "nowhere"%string) "archives" false
                       None)
                    Examples.empty_state eq_refl) eq_refl eq_refl).
  split; reflexivity.
Defined.

(** X13. The exit status of the archiver is 2 exactly when the arguments
    are refused (both sources, none, or a date that does not parse);
    otherwise it is 0 when the archiver is built and its run returns, and
    1 in every other case. *)
Theorem exit_status_is_0_1_or_2 :
  forall (E : env) (a : Cli.args) (st : state),
    let status := Cli.exit_code (fst (Cli.main E a st)) in
    (status = 2 <-> Cli.invalid_arguments a = true)
    /\ (status = 0 \/ status = 1 \/ status = 2)
    /\ (status = 0 <->
        Cli.invalid_arguments a = false
        /\ exists reference_date self st1 s st2,
             Cli.reference_date_of (Cli.date a) = inl reference_date
             /\ Cli.init E
                  (if truthy (Cli.bucket a)
                   then default EmptyString (Cli.bucket a) else "local")
                  (Cli.output a) (truthy (Cli.bucket a)) (Cli.local_dir a) st
                = (Ok self, st1)
             /\ Archiver.archive_previous_month E self reference_date
                  (Cli.upload_to_s3 a) st1 = (Ok s, st2)).
Proof.
  intros E a st. cbv zeta.
  unfold Cli.main, Cli.invalid_arguments, Cli.both_given, Cli.neither_given,
    Cli.malformed_date, Cli.reference_date_of, Cli.parser_error.
  destruct (truthy (Cli.bucket a)), (truthy (Cli.local_dir a));
    cbn [negb andb orb];
    try (destruct (truthy (Cli.date a)); cbn [andb];
         [destruct (Strptime.strptime _ _) as [d|e0]; cbn [is_ok negb]|]);
    try (destruct (Cli.init E _ _ _ _ st) as [[self|e1] st1];
         [destruct (Archiver.archive_previous_month E self _ _ st1)
            as [[s|e2] st2] eqn:Hrun|]);
    cbn [fst Cli.exit_code].
  all: (split; [split; first [reflexivity|discriminate]|]).
  all: (split; [first [left; reflexivity|right; left; reflexivity
                      |right; right; reflexivity]|]).
  all: split.
  all: try (intros H; discriminate H).
  all: try (intros [H _]; discriminate H).
  all: try (intros _; reflexivity).
  all: try (intros (_ & rd & self' & st1' & s' & st2' & Hrd & Hi & Hr);
            first [discriminate Hi
                  |injection Hi as <- <-; injection Hrd as <-;
                   rewrite Hrun in Hr; discriminate Hr]).
  all: (intros _; split; [reflexivity|]; eexists _, _, _, _, _;
        split; [reflexivity|]; split; [reflexivity|]; eassumption).
Qed.

(** * The tree builder *)

(** ** Strings *)

Lemma append_assoc_string a b c :
  String.append (String.append a b) c = String.append a (String.append b c).
Proof.
  induction a as [|x a IH]; [reflexivity|].
  change (String.append (String x a) b) with (String x (String.append a b)).
  change (String.append (String x (String.append a b)) c)
    with (String x (String.append (String.append a b) c)).
  now rewrite IH.
Qed.

Lemma zero_padded_length width n : String.length (zero_padded width n) = width.
Proof.
  revert n. induction width as [|w IH]; intros n; [reflexivity|].
  cbn [zero_padded]. rewrite append_length, IH. cbn. lia.
Qed.

(** Two names of the same length that end the same path are equal. *)
Lemma append_same_suffix q1 n1 q2 n2 :
  String.append q1 n1 = String.append q2 n2 ->
  String.length n1 = String.length n2 ->
  q1 = q2 /\ n1 = n2.
Proof.
  revert q2. induction q1 as [|c q1 IH]; intros q2 Heq Hlen.
  - destruct q2 as [|c2 q2]; [split; [reflexivity|exact Heq]|].
    exfalso. apply (f_equal String.length) in Heq.
    change (String.append (String c2 q2) n2)
      with (String c2 (String.append q2 n2)) in Heq.
    change (String.append EmptyString n1) with n1 in Heq.
    cbn [String.length] in Heq. rewrite append_length in Heq. lia.
  - destruct q2 as [|c2 q2].
    + exfalso. apply (f_equal String.length) in Heq.
      change (String.append (String c q1) n1)
        with (String c (String.append q1 n1)) in Heq.
      change (String.append EmptyString n2) with n2 in Heq.
      cbn [String.length] in Heq. rewrite append_length in Heq. lia.
    + change (String.append (String c q1) n1)
        with (String c (String.append q1 n1)) in Heq.
      change (String.append (String c2 q2) n2)
        with (String c2 (String.append q2 n2)) in Heq.
      injection Heq as -> Heq. destruct (IH q2 Heq Hlen) as [-> ->].
      split; reflexivity.
Qed.

Example str_int_examples :
  str_int 123456 = "123456"%string
  /\ str_int 0 = "0"%string
  /\ str_int (-42) = "-42"%string
  /\ Builder.os_path_join "/home/ali/s3-test/data" "Opening"
     = "/home/ali/s3-test/data/Opening"%string
  /\ Builder.os_path_join "data/" "Opening" = "data/Opening"%string
  /\ Builder.endswith "OPA.xml" ".xml" = true
  /\ Builder.endswith "IDD.pdf" ".xml" = false.
Proof. repeat split. Qed.

(** ** Random draws *)

Lemma randint_ok rng a b t :
  a <= b ->
  exists n,
    a <= n <= b
    /\ Builder.randint rng a b t
       = (Ok n, Builder.mktree (Builder.files t) (Builder.made t)
                  (S (Builder.drawn t))).
Proof.
  intros Hab. unfold Builder.randint.
  destruct (Z.ltb_spec b a); [lia|].
  eexists. split; [|reflexivity].
  pose proof (Z.mod_pos_bound (Z.of_nat (rng (Builder.drawn t))) (b - a + 1)
                ltac:(lia)). lia.
Qed.

Lemma generate_transaction_id_ok :
  forall (rng : nat -> nat) (t : Builder.tree),
  exists txn_id,
    Builder.generate_transaction_id rng t
    = (Ok txn_id,
       Builder.mktree (Builder.files t) (Builder.made t)
         (S (Builder.drawn t)))
    /\ Builder.is_transaction_id txn_id
    /\ String.length txn_id = 9%nat.
Proof.
  intros rng t. unfold Builder.generate_transaction_id.
  destruct (randint_ok rng 100000 999999 t ltac:(lia)) as (n & Hn & Hdraw).
  exists (String.append "TXN" (zero_padded 6 n)). split; [|split].
  - unfold mbind, Builder.G_bind. rewrite Hdraw.
    rewrite (str_int_six_digits n Hn). reflexivity.
  - exists n. split; [exact Hn|reflexivity].
  - rewrite append_length, zero_padded_length. reflexivity.
Qed.

(** X14. A transaction identifier is always [TXN] followed by six decimal
    digits (nine characters), whatever is drawn; generating one consumes a
    draw and changes nothing in the staging tree. *)
Theorem transaction_id_format :
  forall (rng : nat -> nat) (t : Builder.tree),
  exists txn_id,
    Builder.generate_transaction_id rng t
    = (Ok txn_id,
       Builder.mktree (Builder.files t) (Builder.made t)
         (S (Builder.drawn t)))
    /\ Builder.is_transaction_id txn_id
    /\ String.length txn_id = 9%nat.
Proof. exact generate_transaction_id_ok. Qed.

(** ** The Opening folder *)

Lemma opening_spec_facts name size :
  In (name, size) Builder.OPENING_FILE_SPECS ->
  String.length name = 7%nat
  /\ Builder.starts_with_slash name = false
  /\ Generator.fixed_skeleton_length
       (if Builder.endswith name ".xml" then Generator.xml else Generator.pdf)
     <= size.
Proof.
  unfold Builder.OPENING_FILE_SPECS. cbn [In].
  intros [H|[H|[H|[H|[]]]]]; apply pair_equal_spec in H as [<- <-];
    (split; [reflexivity|split; [reflexivity|]]); vm_compute; discriminate.
Qed.

Lemma opening_spec_functional name size1 size2 :
  In (name, size1) Builder.OPENING_FILE_SPECS ->
  In (name, size2) Builder.OPENING_FILE_SPECS ->
  size1 = size2.
Proof.
  unfold Builder.OPENING_FILE_SPECS. cbn [In].
  intros [H1|[H1|[H1|[H1|[]]]]] [H2|[H2|[H2|[H2|[]]]]];
    apply pair_equal_spec in H1 as [<- <-];
    apply pair_equal_spec in H2 as [H2 <-];
    first [reflexivity|discriminate H2].
Qed.

Lemma os_path_join_suffix a b :
  Builder.starts_with_slash b = false ->
  exists prefix, Builder.os_path_join a b = String.append prefix b.
Proof.
  intros Hb. unfold Builder.os_path_join. rewrite Hb.
  destruct (String.eqb a EmptyString || Builder.ends_with_slash a).
  - exists a. reflexivity.
  - exists (String.append a "/"). now rewrite append_assoc_string.
Qed.

(** Writing the document [name] of the table: the file written holds the
    size listed. *)
Lemma write_opening_document rng name size filepath t :
  In (name, size) Builder.OPENING_FILE_SPECS ->
  exists content n,
    (if Builder.endswith name ".xml" then Builder.write_xml rng filepath size
     else Builder.write_pdf filepath size) t
    = (Ok tt,
       Builder.mktree (<[filepath := content]> (Builder.files t))
         (Builder.made t) n)
    /\ Generator.len content = size.
Proof.
  intros Hin. destruct (opening_spec_facts name size Hin) as (_ & _ & Hsize).
  destruct (Builder.endswith name ".xml").
  - eexists _, _. split; [reflexivity|].
    rewrite dummy_xml_length. lia.
  - eexists _, _. split; [reflexivity|].
    rewrite dummy_pdf_length. lia.
Qed.

(** What a write of a document of the table keeps: the files that hold a
    document of the table go on holding one, and every path is left alone
    or holds one. *)
Lemma opening_write_keeps fs prefix name size content :
  In (name, size) Builder.OPENING_FILE_SPECS ->
  Generator.len content = size ->
  let fs' := <[String.append prefix name := content]> fs in
  Builder.holds fs' (String.append prefix name) size
  /\ (forall prefix0 name0 size0,
         In (name0, size0) Builder.OPENING_FILE_SPECS ->
         Builder.holds fs (String.append prefix0 name0) size0 ->
         Builder.holds fs' (String.append prefix0 name0) size0)
  /\ (forall path, fs' !! path = fs !! path
                   \/ Staging.opening_document fs' path).
Proof.
  intros Hin Hlen fs'.
  assert (Hnew : Builder.holds fs' (String.append prefix name) size).
  { exists content. split; [apply lookup_insert_eq|exact Hlen]. }
  split; [exact Hnew|]. split.
  - intros prefix0 name0 size0 Hin0 (c0 & Hc0 & Hlen0).
    destruct (decide (String.append prefix name = String.append prefix0 name0))
      as [Heq|Hne].
    + destruct (opening_spec_facts _ _ Hin) as (Hl & _).
      destruct (opening_spec_facts _ _ Hin0) as (Hl0 & _).
      destruct (append_same_suffix _ _ _ _ Heq ltac:(congruence)) as [-> ->].
      rewrite (opening_spec_functional _ _ _ Hin0 Hin). exact Hnew.
    + exists c0. split; [|exact Hlen0]. subst fs'.
      now rewrite lookup_insert_ne.
  - intros path.
    destruct (decide (String.append prefix name = path)) as [<-|Hne].
    + right. exists prefix, name, size. auto.
    + left. subst fs'. now rewrite lookup_insert_ne.
Qed.

Lemma extends_refl fs : Staging.extends fs fs.
Proof. split; [auto|]. intros path. now left. Qed.

Lemma extends_trans fs1 fs2 fs3 :
  Staging.extends fs1 fs2 -> Staging.extends fs2 fs3 -> Staging.extends fs1 fs3.
Proof.
  intros [Hk12 Hf12] [Hk23 Hf23]. split.
  - intros prefix name size Hin H. apply Hk23, Hk12; assumption.
  - intros path. destruct (Hf23 path) as [H23|H23]; [|now right].
    destruct (Hf12 path) as [H12|(prefix & name & size & -> & Hin & Hh)].
    + left. congruence.
    + right. exists prefix, name, size. split; [reflexivity|].
      split; [exact Hin|]. apply Hk23; assumption.
Qed.

Lemma complete_transaction_extends fs fs' txn_dir :
  Staging.extends fs fs' ->
  Staging.complete_transaction fs txn_dir ->
  Staging.complete_transaction fs' txn_dir.
Proof.
  intros [Hkeep _] Hc name size Hin.
  destruct (opening_spec_facts name size Hin) as (_ & Hslash & _).
  destruct (os_path_join_suffix txn_dir name Hslash) as [prefix Hp].
  rewrite Hp. apply Hkeep; [exact Hin|]. rewrite <- Hp. apply Hc, Hin.
Qed.

(** The inner loop of [generate_opening_folder] on part of the table. *)
Lemma write_documents rng txn_dir items :
  (forall item, In item items -> In item Builder.OPENING_FILE_SPECS) ->
  forall t,
  exists t',
    Builder.for_items items (fun '(filename, size) =>
      let filepath := Builder.os_path_join txn_dir filename in
      if Builder.endswith filename ".xml"
      then Builder.write_xml rng filepath size
      else Builder.write_pdf filepath size) t
    = (Ok tt, t')
    /\ Builder.made t' = Builder.made t
    /\ Staging.extends (Builder.files t) (Builder.files t')
    /\ forall name size,
         In (name, size) items ->
         Builder.holds (Builder.files t')
           (Builder.os_path_join txn_dir name) size.
Proof.
  induction items as [|[name size] rest IH]; intros Hitems t.
  - exists t. split; [reflexivity|]. split; [reflexivity|].
    split; [apply extends_refl|]. intros name size [].
  - assert (Hin : In (name, size) Builder.OPENING_FILE_SPECS)
      by (apply Hitems; now left).
    destruct (opening_spec_facts name size Hin) as (_ & Hslash & _).
    destruct (os_path_join_suffix txn_dir name Hslash) as [prefix Hp].
    destruct (write_opening_document rng name size
                (Builder.os_path_join txn_dir name) t Hin)
      as (content & n & Hw & Hlen).
    pose proof (opening_write_keeps (Builder.files t) prefix name size
                  content Hin Hlen) as (Hnew & Hkeep & Hframe).
    rewrite <- Hp in Hnew, Hkeep, Hframe.
    set (t1 := Builder.mktree _ (Builder.made t) n) in Hw.
    destruct (IH (fun item H => Hitems item (or_intror H)) t1)
      as (t' & Hrest & Hmade & Hext & Hholds).
    exists t'. split.
    + cbn [Builder.for_items]. unfold mbind at 1, Builder.G_bind at 1.
      cbv zeta. rewrite Hw. exact Hrest.
    + split; [exact Hmade|]. split.
      * apply (extends_trans _ (Builder.files t1)); [|exact Hext].
        split; assumption.
      * intros name0 size0 [Heq|Hin0].
        -- apply pair_equal_spec in Heq as [<- <-].
           rewrite Hp. apply (proj1 Hext); [exact Hin|].
           rewrite <- Hp. exact Hnew.
        -- apply Hholds, Hin0.
Qed.

(** One transaction: a directory named by a transaction identifier, with
    the four documents at their sizes. *)
Lemma opening_transaction_ok rng opening_dir t :
  exists txn_id t',
    Builder.opening_transaction rng opening_dir t = (Ok tt, t')
    /\ Builder.is_transaction_id txn_id
    /\ Builder.made t'
       = {[Builder.os_path_join opening_dir txn_id]} ∪ Builder.made t
    /\ Staging.extends (Builder.files t) (Builder.files t')
    /\ Staging.complete_transaction (Builder.files t')
         (Builder.os_path_join opening_dir txn_id).
Proof.
  destruct (generate_transaction_id_ok rng t) as (txn_id & Hid & Htxn & _).
  unfold Builder.opening_transaction.
  set (t0 := Builder.mktree (Builder.files t) (Builder.made t)
               (S (Builder.drawn t))) in Hid.
  set (t1 := Builder.mktree (Builder.files t)
               ({[Builder.os_path_join opening_dir txn_id]} ∪ Builder.made t)
               (S (Builder.drawn t))).
  destruct (write_documents rng (Builder.os_path_join opening_dir txn_id)
              Builder.OPENING_FILE_SPECS (fun item H => H) t1)
    as (t' & Hw & Hmade & Hext & Hholds).
  exists txn_id, t'. split.
  - unfold mbind at 1, Builder.G_bind at 1. rewrite Hid. cbv zeta.
    unfold mbind at 1, Builder.G_bind at 1. exact Hw.
  - split; [exact Htxn|]. split; [exact Hmade|]. split; [exact Hext|].
    intros name size Hin. apply Hholds, Hin.
Qed.

Lemma opening_loop_ok rng opening_dir n :
  forall t,
  exists t',
    Builder.repeat_times n (Builder.opening_transaction rng opening_dir) t
    = (Ok tt, t')
    /\ Staging.extends (Builder.files t) (Builder.files t')
    /\ (forall d, d ∈ Builder.made t -> d ∈ Builder.made t')
    /\ forall d,
         d ∈ Builder.made t' ->
         d ∈ Builder.made t
         \/ exists txn_id,
              Builder.is_transaction_id txn_id
              /\ d = Builder.os_path_join opening_dir txn_id
              /\ Staging.complete_transaction (Builder.files t') d.
Proof.
  induction n as [|n IH]; intros t.
  - exists t. split; [reflexivity|]. split; [apply extends_refl|]. auto.
  - destruct (opening_transaction_ok rng opening_dir t)
      as (txn_id & t1 & Hstep & Htxn & Hmade & Hext & Hcomplete).
    destruct (IH t1) as (t' & Hrest & Hext' & Hsub & Hdirs).
    exists t'. split.
    + cbn [Builder.repeat_times]. unfold mbind at 1, Builder.G_bind at 1.
      rewrite Hstep. exact Hrest.
    + split; [exact (extends_trans _ _ _ Hext Hext')|]. split.
      * intros d Hd. apply Hsub. rewrite Hmade. apply elem_of_union_r, Hd.
      * intros d Hd. destruct (Hdirs d Hd) as [Hold|Hnew]; [|now right].
        rewrite Hmade in Hold. apply elem_of_union in Hold as [Hd1|Hold].
        -- right. apply elem_of_singleton in Hd1. subst d.
           exists txn_id. split; [exact Htxn|]. split; [reflexivity|].
           exact (complete_transaction_extends _ _ _ Hext' Hcomplete).
        -- now left.
Qed.

(** X15. [generate_opening_folder] returns 1500 whatever is drawn (for two
    dates of the same kind, naive or aware). Every directory it makes is
    the Opening directory or a directory named by a transaction identifier
    that holds the four documents of the table, each of exactly the size
    listed for it (also when identifiers collide); and every path of the
    staging tree is left as it was or holds a document of the table at its
    listed size. *)
Theorem opening_folder_is_complete :
  forall (rng : nat -> nat) (base_dir : string)
         (start_date end_date : datetime) (t : Builder.tree),
    is_aware start_date = is_aware end_date ->
    exists t',
      Builder.generate_opening_folder rng base_dir start_date end_date t
      = (Ok 1500, t')
      /\ Builder.os_path_join base_dir "Opening" ∈ Builder.made t'
      /\ (forall d,
            d ∈ Builder.made t' ->
            d ∈ Builder.made t
            \/ d = Builder.os_path_join base_dir "Opening"
            \/ exists txn_id,
                 Builder.is_transaction_id txn_id
                 /\ d = Builder.os_path_join
                          (Builder.os_path_join base_dir "Opening") txn_id
                 /\ Staging.complete_transaction (Builder.files t') d)
      /\ (forall path,
            Builder.files t' !! path = Builder.files t !! path
            \/ Staging.opening_document (Builder.files t') path).
Proof.
  intros rng base_dir start_date end_date t Hkind.
  unfold Builder.generate_opening_folder. cbv zeta.
  set (opening_dir := Builder.os_path_join base_dir "Opening").
  set (t1 := Builder.mktree (Builder.files t)
               ({[opening_dir]} ∪ Builder.made t) (Builder.drawn t)).
  destruct (opening_loop_ok rng opening_dir
              (Z.to_nat (Builder.TRANSACTIONS_PER_MONTH
                         * Builder.MONTHS_TO_SIMULATE)) t1)
    as (t' & Hloop & Hext & Hsub & Hdirs).
  assert (Hdays : exists days,
             Builder.days_between end_date start_date = Ok days).
  { unfold Builder.days_between. unfold is_aware in Hkind.
    destruct (tzinfo start_date), (tzinfo end_date); try discriminate Hkind;
      eexists; reflexivity. }
  destruct Hdays as [days Hdays].
  exists t'. split.
  - unfold mbind at 1, Builder.G_bind at 1. unfold Builder.makedirs at 1.
    fold t1. unfold mbind at 1, Builder.G_bind at 1. rewrite Hdays.
    unfold mbind at 1, Builder.G_bind at 1. rewrite Hloop. reflexivity.
  - split; [apply Hsub; subst t1; cbn; apply elem_of_union_l,
                                       elem_of_singleton; reflexivity|].
    split.
    + intros d Hd. destruct (Hdirs d Hd) as [Hold|Hnew]; [|right; now right].
      subst t1. cbn in Hold. apply elem_of_union in Hold as [H1|H1].
      * right. left. now apply elem_of_singleton in H1.
      * now left.
    + exact (proj2 Hext).
Qed.

Lemma opening_folder_is_complete_witness :
  exists t',
    Builder.generate_opening_folder (fun i => i) "data"
      (naive (mkcivil 2025 8 5 9 0 0 0)) (naive (mkcivil 2025 11 3 9 0 0 0))
      (Builder.mktree ∅ ∅ 0)
    = (Ok 1500, t')
    /\ Builder.os_path_join "data" "Opening" ∈ Builder.made t'.
Proof.
  destruct (opening_folder_is_complete (fun i => i) "data"
              (naive (mkcivil 2025 8 5 9 0 0 0))
              (naive (mkcivil 2025 11 3 9 0 0 0))
              (Builder.mktree ∅ ∅ 0) eq_refl)
    as (t' & Hrun & Hdir & _).
  exists t'. split; assumption.
Defined.

(** ** The Customer folder *)







(** X17. When [end_date] is before [start_date] (two naive dates), by any
    amount, [generate_customer_folder] raises [ValueError] from the first
    draw of a day offset: the Customer directory is made, one draw is
    consumed, and no file is written. *)
Theorem customer_folder_reversed_dates :
  forall (rng : nat -> nat) (base_dir : string)
         (start_date end_date : datetime) (t : Builder.tree),
    tzinfo start_date = None ->
    tzinfo end_date = None ->
    to_us (wall end_date) < to_us (wall start_date) ->
    exists message,
      Builder.generate_customer_folder rng base_dir start_date end_date t
      = (Raise (Exc ValueError message),
         Builder.mktree (Builder.files t)
           ({[Builder.os_path_join base_dir "Customer"]} ∪ Builder.made t)
           (S (Builder.drawn t))).
Proof.
  intros rng base_dir start_date end_date t Hns Hne Hlt.
  exists "empty range for randrange()"%string.
  unfold Builder.generate_customer_folder. cbv zeta.
  unfold mbind at 1, Builder.G_bind at 1. unfold Builder.makedirs at 1.
  change (Z.to_nat (Builder.CUSTOMER_DOCS_PER_MONTH
                    * Builder.MONTHS_TO_SIMULATE)) with 75%nat.
  cbn [Builder.repeat_times].
  unfold mbind at 1, Builder.G_bind at 1.
  unfold mbind at 1, Builder.G_bind at 1.
  unfold Builder.customer_document.
  unfold Builder.random_below_0_7, Builder.draw.
  unfold mbind at 1, Builder.G_bind at 1.
  unfold mbind at 1, Builder.G_bind at 1. cbv beta iota zeta.
  unfold mret at 1, Builder.G_ret at 1.
  unfold mbind at 1, Builder.G_bind at 1.
  unfold Builder.days_between. rewrite Hns, Hne.
  assert (Hneg : (to_us (wall end_date) - to_us (wall start_date))
                 / US_PER_DAY < 0).
  { apply Z.div_lt_upper_bound; [reflexivity|]. lia. }
  unfold mbind at 1, Builder.G_bind at 1. unfold Builder.randint.
  destruct (Z.ltb_spec
              ((to_us (wall end_date) - to_us (wall start_date)) / US_PER_DAY)
              0); [|lia].
  reflexivity.
Qed.

Lemma customer_folder_reversed_dates_witness :
  is_ok (fst (Builder.generate_customer_folder (fun i => i) "data"
                (naive (mkcivil 2025 11 3 9 0 0 1))
                (naive (mkcivil 2025 11 3 9 0 0 0))
                (Builder.mktree ∅ ∅ 0)))
  = false.
Proof.
  destruct (customer_folder_reversed_dates (fun i => i) "data"
              (naive (mkcivil 2025 11 3 9 0 0 1))
              (naive (mkcivil 2025 11 3 9 0 0 0))
              (Builder.mktree ∅ ∅ 0) eq_refl eq_refl) as [message ->].
  - vm_compute. reflexivity.
  - reflexivity.
Defined.

(** * The resolver, continued *)

Lemma prev_of_next_month y m :
  1 <= m <= 12 ->
  prev_month (fst (Selection.next_month y m)) (snd (Selection.next_month y m))
  = (y, m).
Proof.
  intros Hm. unfold Selection.next_month, prev_month.
  destruct (Z.eqb_spec m 12) as [->|Hne]; cbn [fst snd].
  - cbn. f_equal. lia.
  - destruct (Z.eqb_spec (m + 1) 1); [lia|]. f_equal. lia.
Qed.

(** X18. The intervals of successive runs leave no gap and do not overlap:
    for a reference date in some month and another in the month after it,
    the second interval starts exactly one microsecond after the end of
    the first. *)
Theorem successive_intervals_are_adjacent :
  forall (E : env) (self : MonthlyArchiver) (d1 d2 : datetime)
         (start1 end1 start2 end2 : datetime),
    civil_ok (wall d1) = true ->
    civil_ok (wall d2) = true ->
    (year (wall d2), month (wall d2))
      = Selection.next_month (year (wall d1)) (month (wall d1)) ->
    Archiver.get_previous_month_range E self (Some d1) = Ok (start1, end1) ->
    Archiver.get_previous_month_range E self (Some d2) = Ok (start2, end2) ->
    to_us (wall start2) = to_us (wall end1) + 1.
Proof.
  intros E self d1 d2 start1 end1 start2 end2 H1 H2 Hnext Hr1 Hr2.
  destruct (civil_ok_bounds _ H1) as [Hy1 Hm1].
  destruct (resolver_ok_bounds E self (Some d1) _ _ H1 Hr1) as (-> & -> & _).
  destruct (resolver_ok_bounds E self (Some d2) _ _ H2 Hr2) as (-> & -> & _).
  cbn [default]. unfold id.
  assert (Hy2 : year (wall d2)
                = fst (Selection.next_month (year (wall d1)) (month (wall d1))))
    by (rewrite <- Hnext; reflexivity).
  assert (Hm2 : month (wall d2)
                = snd (Selection.next_month (year (wall d1)) (month (wall d1))))
    by (rewrite <- Hnext; reflexivity).
  rewrite Hy2, Hm2, (prev_of_next_month _ _ Hm1). cbn [fst snd].
  assert (Hne : ~ (year (wall d1) = 1 /\ month (wall d1) = 1)).
  { intros [Hy Hm].
    rewrite (resolver_year_one E self (Some d1) Hy Hm) in Hr1.
    discriminate Hr1. }
  destruct (month_facts_all (year (wall d1)) (month (wall d1))
              ltac:(unfold MINYEAR in Hy1; lia) Hm1) as [_ Hf].
  destruct (Hf Hne) as [_ Hlast].
  rewrite to_us_first_instant, to_us_last_instant, Hlast. lia.
Qed.

Lemma successive_intervals_are_adjacent_witness :
  to_us (mkcivil 2025 10 1 0 0 0 0)
  = to_us (mkcivil 2025 9 30 23 59 59 999999) + 1.
Proof.
  exact (successive_intervals_are_adjacent Examples.local_env
           Examples.local_archiver
           (naive (mkcivil 2025 10 15 0 0 0 0))
           (naive (mkcivil 2025 11 3 0 0 0 0))
           (naive (mkcivil 2025 9 1 0 0 0 0))
           (naive (mkcivil 2025 9 30 23 59 59 999999))
           (naive (mkcivil 2025 10 1 0 0 0 0))
           (naive (mkcivil 2025 10 31 23 59 59 999999))
           eq_refl eq_refl eq_refl eq_refl eq_refl).
Defined.
